(** * poidh-cron: the price-update job

    A shallow embedding of [jobs/updatePrices.ts] (the schema-qualified
    variant, threshold 10) and of its sidecar-table variant (threshold 5),
    with the properties of the job stated over the embedding.

    - JavaScript numbers are IEEE 754 binary64 values, taken from the
      Standard Library's [SpecFloat] with [prec = 53] and [emax = 1024].
    - Strings are [string]; a rejected promise or thrown exception is a
      [Throw] completion carrying the error.
    - The PostgreSQL client is a state: the committed store, the working
      copy of the open transaction, and the list of requests sent so far.
      Which requests the server rejects is an input of the run (a script
      indexed by request number), so that every fault can be injected. *)

From Stdlib Require Import ZArith List String Ascii Bool Lia.
From Stdlib Require Import Floats.SpecFloat.
From Stdlib Require Import DecimalString DecimalN.
Import ListNotations.

Local Open Scope string_scope.
Local Open Scope Z_scope.

(** ** Errors and completions *)

(** A JavaScript [Error], identified by its message. *)
Definition Error := string.

(** How an evaluation ends: with a value, or by throwing. *)
Inductive Completion (A : Type) : Type :=
| Return (a : A)
| Throw (e : Error).
Arguments Return {A} a.
Arguments Throw {A} e.

Definition is_throw {A} (r : Completion A) : bool :=
  match r with Throw _ => true | Return _ => false end.

(** ** JavaScript built-ins used by the job *)

Module JS.

(** The Number type: binary64. *)
Definition number := spec_float.

Definition prec : Z := 53.
Definition emax : Z := 1024.

Definition NaN : number := S754_nan.
Definition Infinity : number := S754_infinity false.

(** An integer literal, rounded to the nearest double. *)
Definition of_Z (z : Z) : number := binary_normalize prec emax z 0 false.

Definition sub : number -> number -> number := SFsub prec emax.
Definition mul : number -> number -> number := SFmul prec emax.
Definition div : number -> number -> number := SFdiv prec emax.
(** [Math.abs] *)
Definition abs : number -> number := SFabs.
(** [x === y] and [x > y] on numbers. *)
Definition strict_eq (x y : number) : bool := SFeqb x y.
Definition gt (x y : number) : bool := SFltb y x.

(** A double as the JavaScript engine holds it: canonical and in range. *)
Definition is_double (x : number) : bool := valid_binary prec emax x.

(** Finite and strictly above zero. *)
Definition positive_finite (x : number) : bool :=
  match x with
  | S754_finite false _ _ => true
  | _ => false
  end.

Definition string_of_Z (z : Z) : string :=
  NilZero.string_of_int (Z.to_int z).

(** The double-quote character, code 34. *)
Definition dquote : ascii := "034"%char.

(** [s.replace(/c/g, r)]: every occurrence of the character [c] in [s]
    is replaced by the string [r]. *)
Fixpoint replace_all (c : ascii) (r : string) (s : string) : string :=
  match s with
  | EmptyString => EmptyString
  | String a rest =>
      if Ascii.eqb a c then r ++ replace_all c r rest
      else String a (replace_all c r rest)
  end.

End JS.

Import JS.

Declare Scope js_scope.
Delimit Scope js_scope with js.
Infix "-" := JS.sub : js_scope.
Infix "*" := JS.mul : js_scope.
Infix "/" := JS.div : js_scope.
Infix "===" := JS.strict_eq (at level 70, no associativity) : js_scope.
Infix ">" := JS.gt : js_scope.

(** The part of the runtime that converts between strings, numbers and
    big integers.  These are ECMAScript functions, not code of the job; the
    job's properties are stated for every such runtime. *)
Class Runtime := {
  (** [Number(s)] for a string [s] *)
  Number : string -> number;
  (** [x.toString()] for a number [x] *)
  toString : number -> string;
  (** [BigInt(s)] for a string [s]; [None] when it throws a SyntaxError *)
  BigInt : string -> option Z;
}.

(** ** Types of the job *)

Record PriceRow := {
  eth_usd : string;
  degen_usd : string;
}.

Inductive Currency := eth | degen.

Record LatestPrice := {
  ethUsd : number;
  degenUsd : number;
}.

Record UpdatedPrice := {
  prices : LatestPrice;
  didUpdate : bool;
}.

(** ** percentChange *)

Definition percentChange (current previous : number) : Completion number :=
  if (previous === of_Z 0)%js then
    Throw "Previous price === 0"
  else
    Return (abs (((current - previous) / previous) * of_Z 100)%js).

(** ** fetchPrice *)

(** What one request to the exchange-rate endpoint yields: [fetch] or
    [response.json()] rejects, or a body arrives, of which only
    [body?.data?.rates?.USD] is read ([None] when the path is missing). *)
Inductive Response :=
| Rejected (e : Error)
| Body (USD : option string).

(** The result of a [fetchPrice] call, with what it did on the way: the
    number of requests it sent and the errors it passed to
    [console.error]. *)
Record Fetched := {
  outcome : Completion number;
  requests : nat;
  logged : list Error;
}.

Section FetchPrice.
Context {rt : Runtime}.

(** The body of the [try] block for one response. *)
Definition attempt (r : Response) (retries : Z) : Completion number :=
  match r with
  | Rejected e => Throw e
  | Body USD =>
      match USD with
      | None | Some EmptyString =>
          Throw ("USD price not found… attempts left: " ++ string_of_Z retries)
      | Some price => Return (Number price)
      end
  end.

(** The [while (true)] loop; [responses n] answers the [n]-th request of
    this call, [fuel] bounds the number of iterations. *)
Fixpoint fetchPrice_loop (fuel : nat) (responses : nat -> Response)
    (n : nat) (retries : Z) (errors : list Error) : option Fetched :=
  match fuel with
  | O => None
  | S fuel' =>
      match attempt (responses n) retries with
      | Return price =>
          Some {| outcome := Return price; requests := S n; logged := errors |}
      | Throw error =>
          let retries := retries - 1 in
          if retries =? 0 then
            Some {| outcome := Throw "Can not fetch price";
                    requests := S n; logged := errors |}
          else
            fetchPrice_loop fuel' responses (S n) retries (errors ++ [error])
      end
  end.

(** [let retries = 5; while (true) ...] *)
Definition fetchPrice_fuel (fuel : nat) (responses : nat -> Response)
    : option Fetched :=
  fetchPrice_loop fuel responses 0%nat 5 [].

(** Five iterations always suffice (lemma [fetchPrice_total]). *)
Definition fetchPrice (responses : nat -> Response) : Fetched :=
  match fetchPrice_fuel 5 responses with
  | Some f => f
  | None => {| outcome := Throw "unreachable"; requests := 0; logged := [] |}
  end.

End FetchPrice.

(** ** Number.prototype.toFixed and viem's formatEther *)

Module Fmt.

Fixpoint zeros (n : nat) : string :=
  match n with
  | O => EmptyString
  | S n' => String "0" (zeros n')
  end.

(** [s.padStart(n, "0")] *)
Definition padStart (n : nat) (s : string) : string :=
  zeros (n - String.length s) ++ s.

(** The last [n] characters of [s] and what precedes them:
    [s.slice(0, s.length - n)] and [s.slice(s.length - n)]. *)
Definition split_last (n : nat) (s : string) : string * string :=
  let k := (String.length s - n)%nat in
  (substring 0 k s, substring k n s).

(** The decimal digits of a non-negative integer. *)
Definition digits (n : Z) : string := NilZero.string_of_uint (N.to_uint (Z.to_N n)).

(** The integer [n] for which [n / 10^f] is closest to [m * 2^e], the
    larger one when two are equally close. *)
Definition nearest_scaled (f : nat) (m : positive) (e : Z) : Z :=
  let num := Zpos m * 10 ^ Z.of_nat f * 2 ^ Z.max e 0 in
  let den := 2 ^ Z.max (- e) 0 in
  (2 * num + den) / (2 * den).

(** [m * 2^e >= 10^21] *)
Definition at_least_1e21 (m : positive) (e : Z) : bool :=
  10 ^ 21 * 2 ^ Z.max (- e) 0 <=? Zpos m * 2 ^ Z.max e 0.

(** Steps 8 to 10 of Number.prototype.toFixed for the integer [n]. *)
Definition fixed_digits (f : nat) (n : Z) : string :=
  let m := padStart (S f) (digits n) in
  let '(a, b) := split_last f m in
  match f with
  | O => m
  | _ => a ++ "." ++ b
  end.

(** [x.toFixed(f)] *)
Definition toFixed {rt : Runtime} (x : number) (f : nat) : string :=
  match x with
  | S754_nan | S754_infinity _ => toString x
  | S754_zero _ => fixed_digits f 0
  | S754_finite s m e =>
      (if s then "-" else EmptyString) ++
      (if at_least_1e21 m e then toString (S754_finite false m e)
       else fixed_digits f (nearest_scaled f m e))
  end.

(** The [replace] of [/(0+)$/] by nothing: the string without its
    trailing zeros. *)
Fixpoint strip_trailing_zeros (s : string) : string :=
  match s with
  | EmptyString => EmptyString
  | String c rest =>
      match strip_trailing_zeros rest with
      | EmptyString => if Ascii.eqb c "0" then EmptyString else String c EmptyString
      | rest' => String c rest'
      end
  end.

(** viem's [formatUnits(value, decimals)]. *)
Definition formatUnits (value : Z) (decimals : nat) : string :=
  let negative := value <? 0 in
  let display := padStart decimals (digits (Z.abs value)) in
  let '(integer, fraction) := split_last decimals display in
  let fraction := strip_trailing_zeros fraction in
  (if negative then "-" else EmptyString) ++
  (match integer with EmptyString => "0" | _ => integer end) ++
  (match fraction with EmptyString => EmptyString | _ => "." ++ fraction end).

(** viem's [formatEther(wei)]: 18 decimals. *)
Definition formatEther (wei : Z) : string := formatUnits wei 18.

End Fmt.

Import Fmt.

(** ** The database client *)

Record BountyRow := {
  id : Z;
  amount : string;
  chain_id : Z;
}.

(** The statements the job sends.  Values travel as parameters; table
    identifiers are part of the statement text, so they are kept as the
    text the job interpolates. *)
Inductive Stmt :=
| BEGIN
| COMMIT
| ROLLBACK
  (** SELECT eth_usd, degen_usd FROM public."Price" ORDER BY id DESC LIMIT 1 *)
| SelectLatestPrice
  (** INSERT INTO public."Price" (eth_usd, degen_usd) VALUES ($1, $2) *)
| InsertPrice (p1 p2 : string)
  (** CREATE TABLE IF NOT EXISTS <tableName> (table_name text PRIMARY KEY) *)
| CreateTableIfNotExists (tableName : string)
  (** SELECT id, amount, chain_id FROM <bountiesTable> *)
| SelectBounties (bountiesTable : string)
  (** UPDATE <bountiesTable> SET amount_sort = $1 WHERE id = $2 *)
| UpdateAmountSort (bountiesTable : string) (p1 : string) (p2 : Z)
  (** SELECT extra.bounty_id, extra.chain_id, bounties.amount
      FROM <bountiesTable> extra JOIN public."Bounties" bounties ON ... *)
| SelectBountiesExtra (bountiesTable : string)
  (** UPDATE <bountiesTable> SET amount_sort = $1
      WHERE bounty_id = $2 AND chain_id = $3 *)
| UpdateAmountSortExtra (bountiesTable : string) (p1 : string) (p2 p3 : Z).

(** The type of the rows a statement yields. *)
Definition RowOf (s : Stmt) : Type :=
  match s with
  | SelectLatestPrice => PriceRow
  | SelectBounties _ | SelectBountiesExtra _ => BountyRow
  | _ => unit
  end.

(** pg's [QueryResult<R>]. *)
Record QueryResult (R : Type) := {
  rows : list R;
  rowCount : option Z;
}.
Arguments rows {R} q.
Arguments rowCount {R} q.

(** The relational store behind the client: any type of stores with any
    meaning for the data statements.  [exec] is never applied to [BEGIN],
    [COMMIT] or [ROLLBACK], which the client model interprets itself. *)
Class Database := {
  Store : Type;
  exec : forall s : Stmt, Store -> Store * QueryResult (RowOf s);
}.

(** What the client sends to the server. *)
Inductive Request :=
| Connect
| Query (s : Stmt)
| End_.

Definition is_update (r : Request) : bool :=
  match r with
  | Query (UpdateAmountSort _ _ _) | Query (UpdateAmountSortExtra _ _ _ _) => true
  | _ => false
  end.

Definition is_bounty_access (r : Request) : bool :=
  match r with
  | Query (SelectBounties _) | Query (SelectBountiesExtra _) => true
  | _ => is_update r
  end.


Section Client.
Context {db : Database}.

(** The state a run evolves. *)
Record World := {
  (** what other sessions see, and what survives the run *)
  committed : Store;
  (** the working copy of the open transaction, if one is open *)
  tx : option Store;
  (** the requests sent so far, oldest first, each with the error the
      server rejected it with, if it did *)
  sent : list (Request * option Error);
  (** the fault script: the request number [n] (from 0) is rejected with
      this error; it is fixed for the run *)
  rejects : nat -> option Error;
  (** lines written by [console.log] *)
  console : list string;
  (** the local variable of [main], read by its [catch] block *)
  transactionStarted : bool;
}.

Definition M (A : Type) : Type := World -> Completion A * World.

Definition ret {A} (a : A) : M A := fun w => (Return a, w).
Definition throw {A} (e : Error) : M A := fun w => (Throw e, w).
Definition bind {A B} (m : M A) (k : A -> M B) : M B :=
  fun w =>
    match m w with
    | (Return a, w') => k a w'
    | (Throw e, w') => (Throw e, w')
    end.

(** The store the next statement reads and writes. *)
Definition current (w : World) : Store :=
  match tx w with
  | Some s => s
  | None => committed w
  end.

(** The answer of the server to the next request. *)
Definition verdict (w : World) : option Error :=
  rejects w (List.length (sent w)).

Definition with_sent (r : Request) (w : World) : World :=
  {| committed := committed w; tx := tx w;
     sent := sent w ++ [(r, verdict w)];
     rejects := rejects w; console := console w;
     transactionStarted := transactionStarted w |}.

Definition with_stores (c : Store) (t : option Store) (w : World) : World :=
  {| committed := c; tx := t; sent := sent w;
     rejects := rejects w; console := console w;
     transactionStarted := transactionStarted w |}.

Definition no_rows {R} : QueryResult R := {| rows := []; rowCount := None |}.

(** The effect of a statement the server accepts.  Outside a
    transaction every statement commits on its own. *)
Definition accept (s : Stmt) (w : World) : QueryResult (RowOf s) * World :=
  match s return QueryResult (RowOf s) * World with
  | BEGIN => (no_rows, with_stores (committed w) (Some (current w)) w)
  | COMMIT => (no_rows, with_stores (current w) None w)
  | ROLLBACK => (no_rows, with_stores (committed w) None w)
  | s =>
      let '(store, result) := exec s (current w) in
      (result,
       match tx w with
       | Some _ => with_stores (committed w) (Some store) w
       | None => with_stores store None w
       end)
  end.

(** [client.query(...)]: the request is recorded, then rejected or
    carried out as the fault script says. *)
Definition query (s : Stmt) : M (QueryResult (RowOf s)) :=
  fun w =>
    let w' := with_sent (Query s) w in
    match verdict w with
    | Some e => (Throw e, w')
    | None => let '(result, w'') := accept s w' in (Return result, w'')
    end.

(** [client.connect()] *)
Definition connect : M unit :=
  fun w =>
    let w' := with_sent Connect w in
    match verdict w with
    | Some e => (Throw e, w')
    | None => (Return tt, w')
    end.

(** [client.end()]: the server aborts the transaction of a session that
    ends. *)
Definition end_ : M unit :=
  fun w =>
    let w' := with_sent End_ w in
    match verdict w with
    | Some e => (Throw e, w')
    | None => (Return tt, with_stores (committed w') None w')
    end.

Definition console_log (line : string) : M unit :=
  fun w =>
    (Return tt,
     {| committed := committed w; tx := tx w; sent := sent w;
        rejects := rejects w; console := console w ++ [line];
        transactionStarted := transactionStarted w |}).

Definition set_transactionStarted (b : bool) : M unit :=
  fun w =>
    (Return tt,
     {| committed := committed w; tx := tx w; sent := sent w;
        rejects := rejects w; console := console w;
        transactionStarted := b |}).

Definition get_transactionStarted : M bool :=
  fun w => (Return (transactionStarted w), w).

(** ** tryCatch *)

(** Awaits the promise and returns the pair [[error, result]]. *)
Definition tryCatch {T} (promise : M T) : M (option Error * option T) :=
  fun w =>
    match promise w with
    | (Return result, w') => (Return (None, Some result), w')
    | (Throw error, w') => (Return (Some error, None), w')
    end.

(** [try { body } catch (error) { handler } finally { finalizer }] *)
Definition try_catch_finally {A} (body : M A) (handler : Error -> M A)
    (finalizer : M unit) : M A :=
  fun w =>
    let '(r, w1) :=
      match body w with
      | (Return a, w') => (Return a, w')
      | (Throw error, w') => handler error w'
      end in
    match finalizer w1 with
    | (Return _, w2) => (r, w2)
    | (Throw e, w2) => (Throw e, w2)
    end.

End Client.

Notation "x <- m ;; k" := (bind m (fun x => k))
  (at level 61, m at next level, right associativity).
Notation "' pat <- m ;; k" := (bind m (fun x => match x with pat => k end))
  (at level 61, pat pattern, m at next level, right associativity).
Notation "m ;;; k" := (bind m (fun _ => k))
  (at level 61, right associativity).

(** ** The job *)

(** What [fetch(DEPLOYMENT_ID_URL)] resolves to; of the body only
    [body?.deploymentId] is read. *)
Record HttpResponse := {
  ok : bool;
  status : Z;
  json : Completion (option string);
}.

(** The inputs of a run besides the database. *)
Record Env := {
  (** [process.env.DATABASE_URL] *)
  DATABASE_URL : option string;
  (** the responses of the exchange-rate endpoint, per currency *)
  exchange_rates : Currency -> nat -> Response;
  (** the response of the deployment-id endpoint *)
  deployment_id : Completion HttpResponse;
}.

(** A string between two double-quote characters. *)
Definition quoted (s : string) : string :=
  String dquote (s ++ String dquote EmptyString).

(** The [replace] call on [schemaName]: every double quote is doubled. *)
Definition safeSchema (schemaName : string) : string :=
  replace_all dquote (String dquote (String dquote EmptyString)) schemaName.

(** How PostgreSQL reads a quoted identifier, after its opening quote: two
    double quotes in a row stand for one quote character of the name, a
    double quote alone closes the identifier.  The result is the name and
    the text that follows the identifier. *)
Fixpoint read_quoted_body (s : string) : option (string * string) :=
  match s with
  | EmptyString => None
  | String c rest =>
      if Ascii.eqb c dquote then
        match rest with
        | String c' rest' =>
            if Ascii.eqb c' dquote then
              match read_quoted_body rest' with
              | Some (name, text) => Some (String dquote name, text)
              | None => None
              end
            else Some (EmptyString, rest)
        | EmptyString => Some (EmptyString, EmptyString)
        end
      else
        match read_quoted_body rest with
        | Some (name, text) => Some (String c name, text)
        | None => None
        end
  end.

Definition read_quoted (s : string) : option (string * string) :=
  match s with
  | String c rest => if Ascii.eqb c dquote then read_quoted_body rest else None
  | EmptyString => None
  end.

Definition starts_with_quote (s : string) : bool :=
  match s with
  | String c _ => Ascii.eqb c dquote
  | EmptyString => false
  end.

(** What the escaping puts in place of one character. *)
Definition escaped (c : ascii) : string :=
  if Ascii.eqb c dquote then String dquote (String dquote EmptyString)
  else String c EmptyString.

(** The USD string of a response that [fetchPrice] accepts. *)
Definition price_of (r : Response) : option string :=
  match r with
  | Body (Some (String c rest)) => Some (String c rest)
  | _ => None
  end.

Section Job.
Context {rt : Runtime} {db : Database}.

(** [if (error) { throw error; }] *)
Definition throw_if (error : option Error) : M unit :=
  match error with
  | Some e => throw e
  | None => ret tt
  end.

(** A synchronous or network-only computation inside an async function. *)
Definition lift {A} (r : Completion A) : M A := fun w => (r, w).

(** [Promise.all([p, q])] of two computations that do not touch the
    client.  When both reject, the earlier rejection wins; the two
    [fetchPrice] rejections carry the same error. *)
Definition Promise_all2 {A B} (p : Completion A) (q : Completion B)
    : Completion (A * B) :=
  match p, q with
  | Return a, Return b => Return (a, b)
  | Throw e, _ => Throw e
  | _, Throw e => Throw e
  end.

Definition fetchDeploymentId (env : Env) : Completion string :=
  match deployment_id env with
  | Throw e => Throw e
  | Return response =>
      if negb (ok response) then
        Throw ("Deployment ID fetch failed: " ++ string_of_Z (status response))
      else
        match json response with
        | Throw e => Throw e
        | Return (None | Some EmptyString) =>
            Throw "Deployment ID missing from response"
        | Return (Some deploymentId) => Return deploymentId
        end
  end.

(** The value of [shouldUpdatePrice] in [updateLatestPrice]; [threshold]
    is the literal of the two comparisons. *)
Definition shouldUpdatePrice (threshold : Z) (latestPrice : option PriceRow)
    (currentPriceEth currentPriceDegen : number) : Completion bool :=
  match latestPrice with
  | None => Return true
  | Some latestPrice =>
      match percentChange currentPriceEth (Number (eth_usd latestPrice)) with
      | Throw e => Throw e
      | Return changeEth =>
          if (changeEth > of_Z threshold)%js then Return true
          else
            match percentChange currentPriceDegen
                    (Number (degen_usd latestPrice)) with
            | Throw e => Throw e
            | Return changeDegen => Return (changeDegen > of_Z threshold)%js
            end
      end
  end.

(** [updateLatestPrice].  Of the two price fetches it uses the outcomes;
    the lines they pass to [console.error] are those of [logged], and are
    not part of the state of the run, whose [console] holds the lines of
    [console.log]. *)
Definition updateLatestPrice (threshold : Z) (env : Env) : M UpdatedPrice :=
  '(latestError, latestResult) <- tryCatch (query SelectLatestPrice) ;;
  throw_if latestError ;;;
  let latestPrice :=
    match latestResult with
    | Some result => hd_error (rows result)
    | None => None
    end in
  '(currentPriceEth, currentPriceDegen) <-
    lift (Promise_all2 (outcome (fetchPrice (exchange_rates env eth)))
                       (outcome (fetchPrice (exchange_rates env degen)))) ;;
  shouldUpdate <-
    lift (shouldUpdatePrice threshold latestPrice
            currentPriceEth currentPriceDegen) ;;
  if negb shouldUpdate then
    match latestPrice with
    | Some latestPrice =>
        ret {| prices := {| ethUsd := Number (eth_usd latestPrice);
                            degenUsd := Number (degen_usd latestPrice) |};
               didUpdate := false |}
    | None => throw "TypeError: Cannot read properties of undefined"
    end
  else
    '(insertError, _) <-
      tryCatch (query (InsertPrice (toString currentPriceEth)
                                   (toString currentPriceDegen))) ;;
    throw_if insertError ;;;
    ret {| prices := {| ethUsd := currentPriceEth;
                        degenUsd := currentPriceDegen |};
           didUpdate := true |}.

(** The value of [tableName] in [ensureLiveQueryTables]. *)
Definition tableName (schemaName : string) : string :=
  quoted (safeSchema schemaName) ++ "." ++ quoted "live_query_tables".

Definition ensureLiveQueryTables (schemaName : string) : M unit :=
  '(createError, _) <-
    tryCatch (query (CreateTableIfNotExists (tableName schemaName))) ;;
  throw_if createError.

(** [for (const x of xs) { body }] *)
Fixpoint for_of {A} (xs : list A) (body : A -> M unit) : M unit :=
  match xs with
  | [] => ret tt
  | x :: rest => body x ;;; for_of rest body
  end.

(** [Number(formatEther(BigInt(bounty.amount)))] *)
Definition amountValue (bounty : BountyRow) : Completion number :=
  match BigInt (amount bounty) with
  | None =>
      Throw ("Cannot convert " ++ amount bounty ++ " to a BigInt")
  | Some wei => Return (Number (formatEther wei))
  end.

(** [amountSort.toFixed(5)] for one bounty. *)
Definition amountSort (prices : LatestPrice) (bounty : BountyRow)
    : Completion string :=
  match amountValue bounty with
  | Throw e => Throw e
  | Return amountValue =>
      let price :=
        if chain_id bounty =? 666666666 then degenUsd prices
        else ethUsd prices in
      let amountSort := (amountValue * price)%js in
      Return (toFixed amountSort 5)
  end.

(** The loop of [updateBountyAmounts], for the two table layouts:
    [update] builds the UPDATE statement of a row. *)
Definition revalue (update : string -> BountyRow -> Stmt)
    (prices : LatestPrice) (bounties : list BountyRow) : M unit :=
  for_of bounties (fun bounty =>
    amount_sort <- lift (amountSort prices bounty) ;;
    '(updateError, _) <- tryCatch (query (update amount_sort bounty)) ;;
    throw_if updateError).

Definition rows_undefined : Error :=
  "Something went wrong with bountyResult.rows. It`s undefined!".

End Job.

(** *** jobs/updatePrices.ts: schema-qualified bounty table, threshold 10 *)

Module Schema.
Section Schema.
Context {rt : Runtime} {db : Database}.

Definition threshold : Z := 10.

Definition bountiesTable (schemaName : string) : string :=
  quoted (safeSchema schemaName) ++ "." ++ quoted "Bounties".

Definition update (schemaName : string) (amount_sort : string)
    (bounty : BountyRow) : Stmt :=
  UpdateAmountSort (bountiesTable schemaName) amount_sort (id bounty).

Definition updateBountyAmounts (prices : LatestPrice) (schemaName : string)
    : M Z :=
  '(bountyError, bountyResult) <-
    tryCatch (query (SelectBounties (bountiesTable schemaName))) ;;
  throw_if bountyError ;;;
  match bountyResult with
  | None => throw rows_undefined
  | Some bountyResult =>
      revalue (update schemaName) prices (rows bountyResult) ;;;
      ret (match rowCount bountyResult with Some n => n | None => 0 end)
  end.

(** The [try] block of [main]. *)
Definition main_try (env : Env) (schemaName : string) : M Z :=
  '(beginError, _) <- tryCatch (query BEGIN) ;;
  throw_if beginError ;;;
  set_transactionStarted true ;;;
  updated <- updateLatestPrice threshold env ;;
  if negb (didUpdate updated) then
    '(rollbackError, _) <- tryCatch (query ROLLBACK) ;;
    throw_if rollbackError ;;;
    set_transactionStarted false ;;;
    console_log "price change below 10%, skipping bounty updates" ;;;
    ret 0
  else
    ensureLiveQueryTables schemaName ;;;
    updatedCount <- updateBountyAmounts (prices updated) schemaName ;;
    '(commitError, _) <- tryCatch (query COMMIT) ;;
    throw_if commitError ;;;
    set_transactionStarted false ;;;
    console_log ("updated amount_sort for " ++ string_of_Z updatedCount
                 ++ " bounties") ;;;
    ret 0.

(** The [catch] block of [main]. *)
Definition main_catch (error : Error) : M Z :=
  started <- get_transactionStarted ;;
  (if started then query ROLLBACK ;;; ret tt else ret tt) ;;;
  throw error.

Definition main (env : Env) : M Z :=
  match DATABASE_URL env with
  | None | Some EmptyString => throw "DATABASE_URL is required"
  | Some _ =>
      schemaName <- lift (fetchDeploymentId env) ;;
      '(connectError, _) <- tryCatch connect ;;
      throw_if connectError ;;;
      set_transactionStarted false ;;;
      try_catch_finally (main_try env schemaName) main_catch end_
  end.

End Schema.
End Schema.

(** *** The sidecar variant: amount_sort in public."BountiesExtra",
    threshold 5 *)

Module Sidecar.
Section Sidecar.
Context {rt : Runtime} {db : Database}.

Definition threshold : Z := 5.

Definition bountiesTable : string := "public." ++ quoted "BountiesExtra".

(** The sidecar's [BountyRow] names its key [bounty_id]. *)
Definition bounty_id : BountyRow -> Z := id.

Definition update (amount_sort : string) (bounty : BountyRow) : Stmt :=
  UpdateAmountSortExtra bountiesTable amount_sort
    (bounty_id bounty) (chain_id bounty).

Definition updateBountyAmounts (prices : LatestPrice) : M Z :=
  '(bountyError, bountyResult) <-
    tryCatch (query (SelectBountiesExtra bountiesTable)) ;;
  throw_if bountyError ;;;
  match bountyResult with
  | None => throw rows_undefined
  | Some bountyResult =>
      revalue update prices (rows bountyResult) ;;;
      ret (match rowCount bountyResult with Some n => n | None => 0 end)
  end.

Definition main_try (env : Env) : M Z :=
  '(beginError, _) <- tryCatch (query BEGIN) ;;
  throw_if beginError ;;;
  set_transactionStarted true ;;;
  updated <- updateLatestPrice threshold env ;;
  if negb (didUpdate updated) then
    '(rollbackError, _) <- tryCatch (query ROLLBACK) ;;
    throw_if rollbackError ;;;
    set_transactionStarted false ;;;
    console_log "price change below 10%, skipping bounty updates" ;;;
    ret 0
  else
    updatedCount <- updateBountyAmounts (prices updated) ;;
    '(commitError, _) <- tryCatch (query COMMIT) ;;
    throw_if commitError ;;;
    set_transactionStarted false ;;;
    console_log ("updated amount_sort for " ++ string_of_Z updatedCount
                 ++ " bounties") ;;;
    ret 0.

Definition main_catch (error : Error) : M Z :=
  started <- get_transactionStarted ;;
  (if started then query ROLLBACK ;;; ret tt else ret tt) ;;;
  throw error.

Definition main (env : Env) : M Z :=
  match DATABASE_URL env with
  | None | Some EmptyString => throw "DATABASE_URL is required"
  | Some _ =>
      '(connectError, _) <- tryCatch connect ;;
      throw_if connectError ;;;
      set_transactionStarted false ;;;
      try_catch_finally (main_try env) main_catch end_
  end.

End Sidecar.
End Sidecar.

(** ** A concrete runtime and store

    Used to run the job on concrete inputs.  [Number] and [BigInt] read
    plain decimal literals (an optional sign, digits, an optional
    fraction), on which they agree with ECMAScript; [toString] is the
    shortest decimal that reads back as the same double. *)

Module Sample.

Definition digit (c : ascii) : option Z :=
let n := Z.of_nat (nat_of_ascii c) in
if (48 <=? n) && (n <=? 57) then Some (n - 48) else None.

(** The value of a string of digits, after the digits [acc]. *)
Fixpoint digits_value (s : string) (acc : Z) : option Z :=
match s with
| EmptyString => Some acc
| String c rest =>
    match digit c with
    | Some d => digits_value rest (10 * acc + d)
    | None => None
    end
end.

(** [s] cut at its first ".": the integer part and the fraction. *)
Fixpoint cut_at_point (s : string) : string * option string :=
match s with
| EmptyString => (EmptyString, None)
| String c rest =>
    if Ascii.eqb c "." then (EmptyString, Some rest)
    else let '(a, b) := cut_at_point rest in (String c a, b)
end.

Definition unsigned_decimal (s : string) : option (Z * nat) :=
match cut_at_point s with
| (EmptyString, None) | (EmptyString, Some EmptyString) => None
| (int, None) =>
    match digits_value int 0 with
    | Some m => Some (m, O)
    | None => None
    end
| (int, Some frac) =>
    match digits_value (int ++ frac) 0 with
    | Some m => Some (m, String.length frac)
    | None => None
    end
end.

(** Sign, digits as an integer, and number of fraction digits. *)
Definition decimal (s : string) : option (bool * Z * nat) :=
match s with
| String "-" rest =>
    match unsigned_decimal rest with
    | Some (m, k) => Some (true, m, k)
    | None => None
    end
| String "+" rest =>
    match unsigned_decimal rest with
    | Some (m, k) => Some (false, m, k)
    | None => None
    end
| _ =>
    match unsigned_decimal s with
    | Some (m, k) => Some (false, m, k)
    | None => None
    end
end.

(** The double nearest to [m / 10^k], with the sign [neg]. *)
Definition nearest_double (neg : bool) (m : Z) (k : Z) : number :=
match m with
| Zpos p =>
    if 0 <=? k then
      SFdiv prec emax (S754_finite neg p 0)
        (S754_finite false (Z.to_pos (10 ^ k)) 0)
    else binary_normalize prec emax (cond_Zopp neg (m * 10 ^ (- k))) 0 false
| _ => S754_zero neg
end.

Definition Number (s : string) : number :=
match s with
| EmptyString => S754_zero false
| _ =>
    match decimal s with
    | Some (neg, m, k) => nearest_double neg m (Z.of_nat k)
    | None => NaN
    end
end.

Definition BigInt (s : string) : option Z :=
match s with
| EmptyString => Some 0
| String "-" (String _ _ as rest) =>
    match digits_value rest 0 with
    | Some n => Some (- n)
    | None => None
    end
| _ => digits_value s 0
end.

(** The least [n] with [m * 2^e < 10^n], searched upwards from [n]. *)
Fixpoint decimal_exponent (fuel : nat) (m : positive) (e : Z) (n : Z) : Z :=
match fuel with
| O => n
| S fuel' =>
    if Zpos m * 2 ^ Z.max e 0 * 10 ^ Z.max (- n) 0
         <? 10 ^ Z.max n 0 * 2 ^ Z.max (- e) 0
    then n
    else decimal_exponent fuel' m e (n + 1)
end.

(** The integers [s] around [m * 2^e / 10^(n - k)] of at most [k] digits
    that read back as the double, the nearest first; each with its exponent
    ([n + 1] when [s] was rounded up to [10^k]). *)
Definition candidates (m : positive) (e n : Z) (k : Z) : list (Z * Z) :=
let num := Zpos m * 2 ^ Z.max e 0 * 10 ^ Z.max (k - n) 0 in
let den := 2 ^ Z.max (- e) 0 * 10 ^ Z.max (n - k) 0 in
let lo := num / den in
let hi := lo + 1 in
let ordered :=
  match 2 * (num - lo * den) ?= den with
  | Lt => [lo; hi]
  | Gt => [hi; lo]
  | Eq => if Z.even lo then [lo; hi] else [hi; lo]
  end in
map (fun s => if s =? 10 ^ k then (10 ^ (k - 1), n + 1) else (s, n))
  (filter (fun s =>
     (10 ^ (k - 1) <=? s) && (s <=? 10 ^ k) &&
     SFeqb (nearest_double false s (k - n)) (S754_finite false m e)) ordered).

(** The shortest digits: [(s, k, n)] with [k] least, tried from [k]. *)
Fixpoint shortest (fuel : nat) (m : positive) (e n : Z) (k : Z) : Z * Z * Z :=
match fuel with
| O => (0, k, n)
| S fuel' =>
    match candidates m e n k with
    | (s, n') :: _ => (s, k, n')
    | [] => shortest fuel' m e n (k + 1)
    end
end.

(** Number::toString for the digits [s] (there are [k]) and exponent [n]. *)
Definition layout (s k n : Z) : string :=
let ds := digits s in
if (k <=? n) && (n <=? 21) then ds ++ zeros (Z.to_nat (n - k))
else if (0 <? n) && (n <=? 21) then
  substring 0 (Z.to_nat n) ds ++ "." ++ substring (Z.to_nat n) (Z.to_nat (k - n)) ds
else if (-6 <? n) && (n <=? 0) then
  "0." ++ zeros (Z.to_nat (- n)) ++ ds
else
  let exponent := (if 0 <=? n - 1 then "+" else "-") ++ digits (Z.abs (n - 1)) in
  if k =? 1 then ds ++ "e" ++ exponent
  else substring 0 1 ds ++ "." ++ substring 1 (Z.to_nat (k - 1)) ds
       ++ "e" ++ exponent.

Definition toString (x : number) : string :=
match x with
| S754_nan => "NaN"
| S754_zero _ => "0"
| S754_infinity s => (if s then "-" else EmptyString) ++ "Infinity"
| S754_finite s m e =>
    let '(digits, k, n) :=
      shortest 17 m e (decimal_exponent 700 m e (-330)) 1 in
    (if s then "-" else EmptyString) ++ layout digits k n
end.

#[export] Instance runtime : Runtime := Build_Runtime Number toString BigInt.

(** A store with one schema: the price snapshots in insertion order, the
    bounties with their [amount_sort], and whether the bookkeeping table
    exists. *)
Record Bounty := {
  row : BountyRow;
  amount_sort : string;
}.

Record Tables := {
  Price : list PriceRow;
  Bounties : list Bounty;
  live_query_tables : bool;
}.

Definition set_amount_sort (value : string) (hit : BountyRow -> bool)
    (b : Bounty) : Bounty :=
  if hit (row b) then {| row := row b; amount_sort := value |} else b.

Definition count {A} (xs : list A) : option Z :=
  Some (Z.of_nat (List.length xs)).

Definition run (s : Stmt) (t : Tables) : Tables * QueryResult (RowOf s) :=
  match s return Tables * QueryResult (RowOf s) with
  | SelectLatestPrice =>
      let latest := match rev (Price t) with [] => [] | r :: _ => [r] end in
      (t, {| rows := latest; rowCount := count latest |})
  | InsertPrice p1 p2 =>
      ({| Price := Price t ++ [{| eth_usd := p1; degen_usd := p2 |}];
          Bounties := Bounties t;
          live_query_tables := live_query_tables t |},
       {| rows := []; rowCount := Some 1 |})
  | CreateTableIfNotExists _ =>
      ({| Price := Price t; Bounties := Bounties t; live_query_tables := true |},
       {| rows := []; rowCount := None |})
  | SelectBounties _ =>
      (t, {| rows := map row (Bounties t); rowCount := count (Bounties t) |})
  | SelectBountiesExtra _ =>
      (t, {| rows := map row (Bounties t); rowCount := count (Bounties t) |})
  | UpdateAmountSort _ p1 p2 =>
      let hit := fun r => id r =? p2 in
      ({| Price := Price t;
          Bounties := map (set_amount_sort p1 hit) (Bounties t);
          live_query_tables := live_query_tables t |},
       {| rows := []; rowCount := count (filter (fun b => hit (row b)) (Bounties t)) |})
  | UpdateAmountSortExtra _ p1 p2 p3 =>
      let hit := fun r => (id r =? p2) && (chain_id r =? p3) in
      ({| Price := Price t;
          Bounties := map (set_amount_sort p1 hit) (Bounties t);
          live_query_tables := live_query_tables t |},
       {| rows := []; rowCount := count (filter (fun b => hit (row b)) (Bounties t)) |})
  | BEGIN | COMMIT | ROLLBACK => (t, {| rows := []; rowCount := None |})
  end.

#[export] Instance database : Database := {| Store := Tables; exec := run |}.

End Sample.

(** ** Runs *)

Section Runs.
Context {db : Database}.

(** The state before [main]: a client not yet connected, with the store
    as committed so far and the fault script of the run. *)
Definition fresh (store : Store) (script : nat -> option Error) : World :=
  {| committed := store; tx := None; sent := []; rejects := script;
     console := []; transactionStarted := false |}.

(** The script that rejects nothing. *)
Definition no_fault : nat -> option Error := fun _ => None.

(** The script that rejects the requests listed, each with its error. *)
Fixpoint faults (fs : list (nat * Error)) : nat -> option Error :=
  fun n =>
    match fs with
    | [] => None
    | (k, e) :: rest => if Nat.eqb n k then Some e else faults rest n
    end.

End Runs.

(** The two variants of the job. *)
Inductive Variant := SchemaQualified | SidecarTable.

Definition main_of {rt : Runtime} {db : Database} (v : Variant) : Env -> M Z :=
  match v with
  | SchemaQualified => Schema.main
  | SidecarTable => Sidecar.main
  end.

Definition threshold_of (v : Variant) : Z :=
  match v with
  | SchemaQualified => Schema.threshold
  | SidecarTable => Sidecar.threshold
  end.

(** ** Footprints of the job's steps *)

(** A log entry: a request and the server's verdict on it. *)
Definition Entry : Type := Request * option Error.

(** The data statements: every request but transaction control,
    connecting and closing. *)
Definition is_data (r : Request) : bool :=
  match r with
  | Query BEGIN | Query COMMIT | Query ROLLBACK | Connect | End_ => false
  | Query _ => true
  end.

Definition is_price_access (r : Request) : bool :=
  match r with
  | Query SelectLatestPrice | Query (InsertPrice _ _) => true
  | _ => false
  end.

Definition is_create (r : Request) : bool :=
  match r with
  | Query (CreateTableIfNotExists _) => true
  | _ => false
  end.

Definition is_closing (r : Request) : bool :=
  match r with
  | Query COMMIT | Query ROLLBACK => true
  | _ => false
  end.

(** Every request of the list was accepted. *)
Definition clean (new : list Entry) : Prop :=
  Forall (fun x => snd x = None) new.

(** All requests of the kind [P]. *)
Definition all_of (P : Request -> bool) (new : list Entry) : bool :=
  forallb (fun x => P (fst x)) new.

(** A computation that stops at the first rejected request and throws the
    server's error: if it returns, every request it sent was accepted; if
    it throws [e], either every request was accepted (the error has another
    source), or all but the last were and the last was rejected with [e]. *)
Definition fail_fast {A} (r : Completion A) (new : list Entry) : Prop :=
  match r with
  | Return _ => clean new
  | Throw e =>
      clean new \/
      exists pre q, new = (pre ++ [(q, Some e)])%list /\ clean pre
  end.

Section Footprint.
Context {db : Database}.

(** What a computation that only sends data statements of the kind [P]
    does from the state [w]: it adds the entries [new] to the log and fails
    fast; it leaves the fault script, the console and the local variable of
    [main] alone; inside a transaction it leaves the committed store alone
    and the transaction open. *)
Record footprint {A} (P : Request -> bool) (w : World)
    (res : Completion A * World) (new : list Entry) : Prop := {
  fp_sent : sent (snd res) = (sent w ++ new)%list;
  fp_kind : all_of P new = true;
  fp_rejects : rejects (snd res) = rejects w;
  fp_started : transactionStarted (snd res) = transactionStarted w;
  fp_console : console (snd res) = console w;
  fp_tx : forall s, tx w = Some s ->
          committed (snd res) = committed w /\ tx (snd res) <> None;
  fp_fail_fast : fail_fast (fst res) new;
}.

Definition data_op {A} (P : Request -> bool) (m : M A) : Prop :=
  forall w, exists new, footprint P w (m w) new.

End Footprint.

Section Transaction.
Context {rt : Runtime} {db : Database}.

(** The [try] block of [main] in both variants: [prepare] is what comes
    between the price update and the revaluation, [revalue] the
    revaluation. *)
Definition transaction (threshold : Z) (prepare : M unit)
    (revalue : LatestPrice -> M Z) (env : Env) : M Z :=
  '(beginError, _) <- tryCatch (query BEGIN) ;;
  throw_if beginError ;;;
  set_transactionStarted true ;;;
  updated <- updateLatestPrice threshold env ;;
  if negb (didUpdate updated) then
    '(rollbackError, _) <- tryCatch (query ROLLBACK) ;;
    throw_if rollbackError ;;;
    set_transactionStarted false ;;;
    console_log "price change below 10%, skipping bounty updates" ;;;
    ret 0
  else
    prepare ;;;
    updatedCount <- revalue (prices updated) ;;
    '(commitError, _) <- tryCatch (query COMMIT) ;;
    throw_if commitError ;;;
    set_transactionStarted false ;;;
    console_log ("updated amount_sort for " ++ string_of_Z updatedCount
                 ++ " bounties") ;;;
    ret 0.

End Transaction.

Section TxBody.
Context {db : Database}.

(** Whatever follows the price update in the [try] block (the preparation
    [b], the revaluation [c], a COMMIT in [d]) follows an accepted INSERT of
    a price snapshot in [a]. *)
Definition after_insert (a b c d : list Entry) : Prop :=
  (b ++ c)%list <> [] \/ (exists o, In (Query COMMIT, o) d) ->
  exists p1 p2, In (Query (InsertPrice p1 p2), None) a.

(** What the [try] block of [main] does from the state [w]. *)
Record tx_body (Q : Request -> bool) (w : World)
    (res : Completion Z * World) (new : list Entry) : Prop := {
  tb_sent : sent (snd res) = (sent w ++ new)%list;
  tb_rejects : rejects (snd res) = rejects w;
  tb_fail_fast : fail_fast (fst res) new;
  tb_shape : exists o a b c d,
      new = ((Query BEGIN, o) :: a ++ b ++ c ++ d)%list /\
      all_of is_price_access a = true /\ all_of Q b = true /\
      all_of is_bounty_access c = true /\ all_of is_closing d = true /\
      after_insert a b c d;
  tb_end : match fst res with
           | Return z =>
               z = 0 /\ tx (snd res) = None /\
               transactionStarted (snd res) = false
           | Throw e =>
               committed (snd res) = committed w /\
               (transactionStarted (snd res) = true \/
                new = [(Query BEGIN, Some e)] /\
                transactionStarted (snd res) = transactionStarted w /\
                tx (snd res) = tx w)
           end;
}.
End TxBody.

Section Ending.
Context {db : Database}.

(** What the client thrown by a rejected request, or else [e]. *)
Definition first_error (e : Error) (verdicts : list (option Error)) : Error :=
  fold_left (fun acc v => match v with Some e' => e' | None => acc end)
    verdicts e.

(** How [main] ends after its [try] block sent [new] from the state [w]:
    the requests of its [catch] and [finally] blocks, the final state [w']
    and the completion [r] of [main]. *)
Inductive ending (w w' : World) (r : Completion Z) (new : list Entry)
    : list Entry -> Prop :=
| ended_normally (en : option Error) :
    clean new ->
    r = match en with Some e => Throw e | None => Return 0 end ->
    (en = None -> tx w' = None) ->
    ending w w' r new [(End_, en)]
| ended_without_transaction (e : Error) (en : option Error) :
    new = [(Query BEGIN, Some e)] ->
    committed w' = committed w ->
    r = Throw (first_error e [en]) ->
    ending w w' r new [(End_, en)]
| ended_with_rollback (e : Error) (rb en : option Error) :
    fail_fast (@Throw Z e) new ->
    committed w' = committed w ->
    r = Throw (first_error e [rb; en]) ->
    (rb = None \/ en = None -> tx w' = None) ->
    ending w w' r new [(Query ROLLBACK, rb); (End_, en)].

End Ending.

(** What comes between the price update and the revaluation. *)
Definition prepares (v : Variant) (r : Request) : bool :=
  match v with
  | SchemaQualified => is_create r
  | SidecarTable => false
  end.

Section MainShape.
Context {db : Database}.

(** The runs of [main] from a fresh client on [store]: it stops before
    connecting, or the connection is refused, or the [try] block runs and
    [main] ends as [ending] says. *)
Inductive main_run (v : Variant) (store : Store) (res : Completion Z * World)
    : Prop :=
| run_not_connected :
    sent (snd res) = [] -> is_throw (fst res) = true ->
    committed (snd res) = store -> main_run v store res
| run_connection_refused (e : Error) :
    sent (snd res) = [(Connect, Some e)] -> fst res = Throw e ->
    committed (snd res) = store -> main_run v store res
| run_transaction (w : World) (o : option Error) (a b c d suffix : list Entry) :
    let new := ((Query BEGIN, o) :: a ++ b ++ c ++ d)%list in
    committed w = store ->
    sent (snd res) = ((Connect, None) :: new ++ suffix)%list ->
    all_of is_price_access a = true ->
    all_of (prepares v) b = true ->
    all_of is_bounty_access c = true ->
    all_of is_closing d = true ->
    after_insert a b c d ->
    ending w (snd res) (fst res) new suffix ->
    main_run v store res.

End MainShape.

Section Decision.
Context {rt : Runtime} {db : Database}.

(** The two prices [updateLatestPrice] fetches. *)
Definition fetched (env : Env) : Completion (number * number) :=
  Promise_all2 (outcome (fetchPrice (exchange_rates env eth)))
               (outcome (fetchPrice (exchange_rates env degen))).

(** The latest snapshot as a run on [store] reads it. *)
Definition latest (store : Store) : option PriceRow :=
  hd_error (rows (snd (exec SelectLatestPrice store))).

(** The update decision of a run on [store]. *)
Definition decision (threshold : Z) (env : Env) (store : Store)
    : Completion bool :=
  match fetched env with
  | Throw e => Throw e
  | Return (currentPriceEth, currentPriceDegen) =>
      shouldUpdatePrice threshold (latest store)
        currentPriceEth currentPriceDegen
  end.

(** The run gets as far as the decision: the configuration is there, the
    deployment id resolves where the variant needs it, and the server
    accepts the connection, BEGIN and the SELECT of the latest price. *)
Definition reaches_decision (v : Variant) (env : Env)
    (script : nat -> option Error) : Prop :=
  (exists c url, DATABASE_URL env = Some (String c url)) /\
  (v = SchemaQualified -> exists schemaName,
     fetchDeploymentId env = Return schemaName) /\
  script 0%nat = None /\ script 1%nat = None /\ script 2%nat = None.

End Decision.

Section Revaluation.
Context {rt : Runtime}.



End Revaluation.



(** ** Concrete runs *)

Module Scenario.

(** An exchange-rate endpoint that always answers the same price. *)
Definition always (USD : string) : nat -> Response :=
  fun _ => Body (Some USD).

(** A configured environment in which the two prices are as given and the
    deployment id is "tenant". *)
Definition env (ethUsd degenUsd : string) : Env :=
  {| DATABASE_URL := Some "postgres://poidh";
     exchange_rates := fun c =>
       match c with
       | eth => always ethUsd
       | degen => always degenUsd
       end;
     deployment_id :=
       Return {| ok := true; status := 200; json := Return (Some "tenant") |} |}.

(** The last snapshot is 2000 and 0.01 dollars; one bounty of 1 token on
    chain 1 and one of half a token on chain 666666666. *)
Definition store : Sample.Tables :=
  {| Sample.Price := [{| eth_usd := "2000"; degen_usd := "0.01" |}];
     Sample.Bounties :=
       [{| Sample.row := {| id := 1; amount := "1000000000000000000";
                            chain_id := 1 |};
           Sample.amount_sort := "0" |};
        {| Sample.row := {| id := 2; amount := "500000000000000000";
                            chain_id := 666666666 |};
           Sample.amount_sort := "0" |}];
     Sample.live_query_tables := false |}.


(** A run of a variant on [store]. *)
Definition Outcome : Type := Completion Z * @World Sample.database.

Definition run (v : Variant) (ethUsd degenUsd : string)
    (fs : list (nat * Error)) : Outcome :=
  main_of (rt := Sample.runtime) (db := Sample.database) v
    (env ethUsd degenUsd) (fresh (db := Sample.database) store (faults fs)).

(** The requests of a run. *)
Definition requests (res : Outcome) : list Request :=
  map fst (sent (snd res)).

Definition amounts (res : Outcome) : list string :=
  map Sample.amount_sort (Sample.Bounties (committed (snd res))).

Definition bounties_table : string := Schema.bountiesTable "tenant".

End Scenario.

Section Script.
Context {db : Database}.

(** The log agrees with the fault script: the verdict recorded with the
    request number [i] is the script's. *)
Definition follows_script (w : World) : Prop :=
  forall i x, nth_error (sent w) i = Some x -> snd x = rejects w i.

(** A computation that keeps the log in agreement with the script, and the
    script as it is. *)
Definition keeps_script {A} (m : M A) : Prop :=
  forall w, follows_script w ->
    follows_script (snd (m w)) /\ rejects (snd (m w)) = rejects w.

End Script.

(** A string of decimal digits. *)
Fixpoint all_digits (s : string) : bool :=
  match s with
  | EmptyString => true
  | String c rest =>
      match Sample.digit c with
      | Some _ => all_digits rest
      | None => false
      end
  end.

(** ** Whole runs: further definitions *)

(** The configuration a variant reads before it connects: a non-empty
    DATABASE_URL and, in the schema-qualified variant, a deployment id. *)
Definition configured (v : Variant) (env : Env) : Prop :=
  (exists c url, DATABASE_URL env = Some (String c url)) /\
  (v = SchemaQualified ->
   exists schemaName, fetchDeploymentId env = Return schemaName).

Definition is_end (r : Request) : bool :=
  match r with
  | End_ => true
  | _ => false
  end.

(** [main] from the connection on, in both variants: [body] is its [try]
    block. *)
Definition connected {db : Database} (body : M Z) : M Z :=
  '(connectError, _) <- tryCatch connect ;;
  throw_if connectError ;;;
  set_transactionStarted false ;;;
  try_catch_finally body Schema.main_catch end_.

(** What a variant does between the price update and the revaluation,
    and its revaluation, for the deployment [schemaName]. *)
Definition prepare_of {db : Database} (v : Variant) (schemaName : string)
    : M unit :=
  match v with
  | SchemaQualified => ensureLiveQueryTables schemaName
  | SidecarTable => ret tt
  end.

Definition revalue_of {rt : Runtime} {db : Database} (v : Variant)
    (schemaName : string) (prices : LatestPrice) : M Z :=
  match v with
  | SchemaQualified => Schema.updateBountyAmounts prices schemaName
  | SidecarTable => Sidecar.updateBountyAmounts prices
  end.

(** The deployment a configured run works on (the sidecar variant has
    none). *)
Definition schema_of (v : Variant) (env : Env) : string :=
  match v, fetchDeploymentId env with
  | SchemaQualified, Return schemaName => schemaName
  | _, _ => EmptyString
  end.

(** A request the server accepted, as the log records it. *)
Definition accepted (r : Request) : Entry := (r, None).

(** The store after the statements [statements], executed in order. *)
Definition exec_all {db : Database} (statements : list Stmt) (store : Store)
    : Store :=
  fold_left (fun s q => fst (exec q s)) statements store.

(** The UPDATE statements of a revaluation: one per row, in order, each
    with the amount of its row. *)
Definition updates (update : string -> BountyRow -> Stmt)
    (values : list string) (bounties : list BountyRow) : list Stmt :=
  map (fun p => update (fst p) (snd p)) (combine values bounties).

(** The statements of a variant for the deployment [schemaName]. *)
Definition update_of (v : Variant) (schemaName : string)
    : string -> BountyRow -> Stmt :=
  match v with
  | SchemaQualified => Schema.update schemaName
  | SidecarTable => Sidecar.update
  end.

Definition select_of (v : Variant) (schemaName : string) : Stmt :=
  match v with
  | SchemaQualified => SelectBounties (Schema.bountiesTable schemaName)
  | SidecarTable => SelectBountiesExtra Sidecar.bountiesTable
  end.

Definition prepare_stmts (v : Variant) (schemaName : string) : list Stmt :=
  match v with
  | SchemaQualified => [CreateTableIfNotExists (tableName schemaName)]
  | SidecarTable => []
  end.

(** What the SELECT of the bounties yields on [store]. *)
Definition bounties_of {db : Database} (v : Variant) (schemaName : string)
    (store : Store) : QueryResult BountyRow :=
  match v with
  | SchemaQualified =>
      snd (exec (SelectBounties (Schema.bountiesTable schemaName)) store)
  | SidecarTable =>
      snd (exec (SelectBountiesExtra Sidecar.bountiesTable) store)
  end.

(** [w'] is [w] after the data statements [statements], all accepted,
    inside the open transaction. *)
Definition after_accepted {db : Database} (statements : list Stmt)
    (w w' : World) : Prop :=
  committed w' = committed w /\
  (exists s, tx w = Some s /\ tx w' = Some (exec_all statements s)) /\
  sent w' = (sent w ++ map accepted (map Query statements))%list /\
  rejects w' = rejects w /\
  console w' = console w /\
  transactionStarted w' = transactionStarted w.

(** How the process ends: its exit code, and the error the last statement
    of the script passed to [console.error], if any. *)
Record Exit := {
  code : Z;
  reported : option Error;
}.

(** The last statement of the script.  When the file is the entry point
    of the process, [main] runs; when it resolves, the script logs
    [finished with code 0] and exits with 0; when it rejects, the script
    reports the error and exits with 1.  Otherwise nothing runs. *)
Definition entry_point {rt : Runtime} {db : Database} (v : Variant)
    (is_entry_point : bool) (env : Env) (w : World) : option Exit * World :=
  if is_entry_point then
    match main_of v env w with
    | (Return _, w') =>
        (Some {| code := 0; reported := None |},
         snd (console_log "finished with code 0" w'))
    | (Throw e, w') =>
        (Some {| code := 1; reported := Some e |}, w')
    end
  else (None, w).

(** The error of the last request of the log that the server rejected. *)
Fixpoint last_rejection (log : list Entry) : option Error :=
  match log with
  | [] => None
  | (_, verdict) :: rest =>
      match last_rejection rest with
      | Some e => Some e
      | None => verdict
      end
  end.

(** The requests a variant may send for the deployment [schemaName]:
    transaction control, the two statements on the price table, and the
    statements whose table parameter is one of its own tables, named
    exactly.  The tables a statement names beside its parameter are given
    by [reads] and [writes] below. *)
Definition allowed (v : Variant) (schemaName : string) (r : Request) : bool :=
  match r with
  | Query (CreateTableIfNotExists table) =>
      match v with
      | SchemaQualified => String.eqb table (tableName schemaName)
      | SidecarTable => false
      end
  | Query (SelectBounties table) | Query (UpdateAmountSort table _ _) =>
      match v with
      | SchemaQualified => String.eqb table (Schema.bountiesTable schemaName)
      | SidecarTable => false
      end
  | Query (SelectBountiesExtra table)
  | Query (UpdateAmountSortExtra table _ _ _) =>
      match v with
      | SchemaQualified => false
      | SidecarTable => String.eqb table Sidecar.bountiesTable
      end
  | _ => true
  end.

(** The two tables the statements name literally: the price table of the
    price SELECT and INSERT, and the bounty table that the SELECT of the
    sidecar variant joins to its own table. *)
Definition priceTable : string := "public." ++ quoted "Price".

Definition joinedTable : string := "public." ++ quoted "Bounties".

(** The tables a statement reads rows of, by its text: the FROM and JOIN
    tables of a SELECT, the table whose rows the WHERE clause of an UPDATE
    selects. *)
Definition reads (s : Stmt) : list string :=
  match s with
  | BEGIN | COMMIT | ROLLBACK | InsertPrice _ _ | CreateTableIfNotExists _ =>
      []
  | SelectLatestPrice => [priceTable]
  | SelectBounties table | UpdateAmountSort table _ _
  | UpdateAmountSortExtra table _ _ _ => [table]
  | SelectBountiesExtra table => [table; joinedTable]
  end.

(** The tables a statement creates or changes, by its text. *)
Definition writes (s : Stmt) : list string :=
  match s with
  | BEGIN | COMMIT | ROLLBACK | SelectLatestPrice | SelectBounties _
  | SelectBountiesExtra _ => []
  | InsertPrice _ _ => [priceTable]
  | CreateTableIfNotExists table | UpdateAmountSort table _ _
  | UpdateAmountSortExtra table _ _ _ => [table]
  end.

(** The tables a variant reads for the deployment [schemaName], and those
    it creates or changes. *)
Definition tables_read (v : Variant) (schemaName : string) : list string :=
  match v with
  | SchemaQualified => [priceTable; Schema.bountiesTable schemaName]
  | SidecarTable => [priceTable; Sidecar.bountiesTable; joinedTable]
  end.

Definition tables_written (v : Variant) (schemaName : string)
    : list string :=
  match v with
  | SchemaQualified =>
      [priceTable; tableName schemaName; Schema.bountiesTable schemaName]
  | SidecarTable => [priceTable; Sidecar.bountiesTable]
  end.

(** A computation that sends only requests of the kind [P]. *)
Definition sends_only {db : Database} {A} (P : Request -> bool) (m : M A)
    : Prop :=
  forall w, all_of P (sent w) = true -> all_of P (sent (snd (m w))) = true.

(** ** The trigger script

    The second script of [jobs/updatePrices.ts]: it signs a POST to the
    [/updatePrice] endpoint of the server and sends it. *)

Module Trigger.

(** [process.env] as the script reads it. *)
Record Config := {
  SERVER_API_KEY : option string;
  SERVER_SECRET : option string;
  SERVER_URL : option string;
}.

(** [crypto.createHmac("sha256", key).update(data).digest("hex")], a
    function of node's library. *)
Class Crypto := {
  hmac_sha256_hex : string -> string -> string;
}.

(** [Math.floor] *)
Definition floor (x : number) : number :=
  match x with
  | S754_finite s m e =>
      if 0 <=? e then x
      else
        let d := 2 ^ (- e) in
        let q := Zpos m / d in
        if s then
          binary_normalize prec emax
            (- (if Zpos m mod d =? 0 then q else q + 1)) 0 true
        else binary_normalize prec emax q 0 false
  | _ => x
  end.

Record Headers := {
  X_API_Key : string;
  X_Signature : string;
  X_Timestamp : number;
}.

(** What the script hands to [axios.post]. *)
Record Post := {
  url : string;
  data : string;
  headers : Headers;
}.

(** A value of [process.env] inside a template literal. *)
Definition template (value : option string) : string :=
  match value with
  | Some s => s
  | None => "undefined"
  end.

Definition endpoint : string := "/updatePrice".

(** [JSON.stringify(body)] for the empty object [body]. *)
Definition body : string := "{}".

Section Trigger.
Context {rt : Runtime} {cr : Crypto}.

(** [Math.floor(Date.now() / 1000)] *)
Definition timestamp (now : number) : number := floor (now / of_Z 1000)%js.

Definition canonical (timestamp : number) : string :=
  "POST|" ++ endpoint ++ "|" ++ toString timestamp ++ "|" ++ body.

(** [main]: [now] is the value of [Date.now()], [server] the outcome of
    the POST.  The result comes with the requests posted. *)
Definition main (config : Config) (now : number)
    (server : Post -> Completion string) : Completion string * list Post :=
  let timestamp := timestamp now in
  let canonical := canonical timestamp in
  match SERVER_API_KEY config, SERVER_SECRET config with
  | Some (String _ _ as API_KEY), Some (String _ _ as API_SECRET) =>
      let signature := hmac_sha256_hex API_SECRET canonical in
      let post :=
        {| url := template (SERVER_URL config) ++ endpoint;
           data := body;
           headers := {| X_API_Key := API_KEY;
                         X_Signature := signature;
                         X_Timestamp := timestamp |} |} in
      (server post, [post])
  | _, _ => (Throw "API key or API secret is missing", [])
  end.

(** How a run of the script ends. *)
Record Outcome := {
  exit : option Exit;
  stdout : list string;
  posted : list Post;
}.

(** The last statement of the script. *)
Definition entry_point (is_entry_point : bool) (config : Config)
    (now : number) (server : Post -> Completion string) : Outcome :=
  if is_entry_point then
    match main config now server with
    | (Return response_data, posts) =>
        {| exit := Some {| code := 0; reported := None |};
           stdout := ["finished with code 0"; response_data];
           posted := posts |}
    | (Throw e, posts) =>
        {| exit := Some {| code := 1; reported := Some e |};
           stdout := [];
           posted := posts |}
    end
  else {| exit := None; stdout := []; posted := [] |}.

End Trigger.

(** Whether a variable of [process.env] is set to a non-empty string. *)
Definition is_set (value : option string) : bool :=
  match value with
  | Some (String _ _) => true
  | _ => false
  end.

End Trigger.

(** The requests that come after the price update in the [try] block:
    those on the bookkeeping table and on the bounty tables. *)
Definition follows_the_snapshot (r : Request) : bool :=
  is_create r || is_bounty_access r.

(** ** The amounts a run stores *)





(** * Properties *)

(** ** Identifier escaping *)

Lemma escaped_concat (s : string) :
  safeSchema s = String.concat EmptyString (map escaped (list_ascii_of_string s)).
Proof.
  unfold safeSchema. induction s as [|c s IH]; simpl; [reflexivity|].
  rewrite IH. unfold escaped.
  destruct (Ascii.eqb c dquote); destruct (map _ _); simpl; try reflexivity.
Qed.

Lemma read_quoted_body_escaped (name text : string) :
  starts_with_quote text = false ->
  read_quoted_body (safeSchema name ++ String dquote text) = Some (name, text).
Proof.
  intros Htext. unfold safeSchema.
  induction name as [|c name IH]; simpl.
  - destruct text as [|c' text']; [reflexivity|].
    simpl in Htext. now rewrite Htext.
  - destruct (Ascii.eqb c dquote) eqn:Hc; simpl.
    + apply Ascii.eqb_eq in Hc. subst c. now rewrite IH.
    + rewrite Hc. now rewrite IH.
Qed.

Lemma read_quoted_safe (name text : string) :
  starts_with_quote text = false ->
  read_quoted (quoted (safeSchema name) ++ text) = Some (name, text).
Proof.
  intros Htext. unfold read_quoted, quoted. simpl.
  replace ((safeSchema name ++ String dquote EmptyString) ++ text)
    with (safeSchema name ++ String dquote text).
  - now apply read_quoted_body_escaped.
  - induction (safeSchema name) as [|a s IH]; simpl; [reflexivity|now rewrite IH].
Qed.

(** C9: for every schema name, the escaping step replaces each double
    quote by two double quotes and leaves every other character as it is;
    the quoted table identifiers built from the escaped name, read as
    PostgreSQL quoted identifiers, end exactly where the job closes them and
    denote the schema name that was given, whatever quotes it contains. *)
Theorem schema_quote_is_neutralized (schemaName : string) :
  safeSchema EmptyString = EmptyString /\
  (forall c s, safeSchema (String c s) = escaped c ++ safeSchema s) /\
  read_quoted (tableName schemaName)
    = Some (schemaName, "." ++ quoted "live_query_tables") /\
  read_quoted (Schema.bountiesTable schemaName)
    = Some (schemaName, "." ++ quoted "Bounties").
Proof.
  split; [reflexivity|]. split.
  - intros c s. unfold safeSchema, escaped. simpl.
    destruct (Ascii.eqb c dquote); reflexivity.
  - split; apply read_quoted_safe; reflexivity.
Qed.

(** ** fetchPrice *)

Section FetchProperties.
Context {rt : Runtime}.

Lemma attempt_price (r : Response) (retries : Z) :
  match price_of r with
  | Some price => attempt r retries = Return (Number price)
  | None => is_throw (attempt r retries) = true
  end.
Proof.
  destruct r as [e|[[|c rest]|]]; reflexivity.
Qed.

Lemma attempt_accepts (r : Response) (retries : Z) (price : string) :
  price_of r = Some price -> attempt r retries = Return (Number price).
Proof.
  intros H. pose proof (attempt_price r retries) as A. now rewrite H in A.
Qed.

Lemma attempt_refuses (r : Response) (retries : Z) :
  price_of r = None -> exists e, attempt r retries = Throw e.
Proof.
  intros H. pose proof (attempt_price r retries) as A. rewrite H in A.
  destruct (attempt r retries); [discriminate|eauto].
Qed.

Ltac fetch_step responses k :=
  let H := fresh "H" in let p := fresh "price" in
  match goal with
  | |- context [attempt (responses k) ?n] =>
      destruct (price_of (responses k)) as [p|] eqn:H;
      [ rewrite (attempt_accepts _ n _ H)
      | let e := fresh "e" in let He := fresh "He" in
        destruct (attempt_refuses (responses k) n H) as [e He]; rewrite He ]
  end.

Ltac fetch_done :=
  simpl; repeat split; try assumption; try reflexivity; try lia;
  let j := fresh "j" in let Hj := fresh "Hj" in
  intros j Hj; repeat (destruct j as [|j]; [assumption|]); lia.

Lemma fetchPrice_unfold (fuel : nat) (responses : nat -> Response) :
  fetchPrice_fuel (5 + fuel) responses = Some (fetchPrice responses).
Proof.
  unfold fetchPrice, fetchPrice_fuel. simpl.
  destruct (attempt (responses 0%nat) 5); [reflexivity|]. simpl.
  destruct (attempt (responses 1%nat) 4); [reflexivity|]. simpl.
  destruct (attempt (responses 2%nat) 3); [reflexivity|]. simpl.
  destruct (attempt (responses 3%nat) 2); [reflexivity|]. simpl.
  destruct (attempt (responses 4%nat) 1); reflexivity.
Qed.

Lemma fetchPrice_cases (responses : nat -> Response) :
  let f := fetchPrice responses in
  (exists k price, (k < 5)%nat /\
     (forall j, (j < k)%nat -> price_of (responses j) = None) /\
     price_of (responses k) = Some price /\
     outcome f = Return (Number price) /\ requests f = S k /\
     List.length (logged f) = k) \/
  ((forall j, (j < 5)%nat -> price_of (responses j) = None) /\
   outcome f = Throw "Can not fetch price" /\ requests f = 5%nat /\
   List.length (logged f) = 4%nat).
Proof.
  unfold fetchPrice, fetchPrice_fuel. simpl.
  fetch_step responses 0%nat; [left; exists 0%nat, price; fetch_done|simpl].
  fetch_step responses 1%nat; [left; exists 1%nat, price; fetch_done|simpl].
  fetch_step responses 2%nat; [left; exists 2%nat, price; fetch_done|simpl].
  fetch_step responses 3%nat; [left; exists 3%nat, price; fetch_done|simpl].
  fetch_step responses 4%nat; [left; exists 4%nat, price; fetch_done|simpl].
  right. fetch_done.
Qed.

(** C6: the price fetch makes at most five attempts.  Five iterations of
    its loop always suffice; if the first attempt that yields a price is
    among the first five, the fetch returns the number of that price after
    exactly that many requests; if the first five attempts all fail, the
    fetch throws [Can not fetch price] after exactly five requests; and it
    throws only in that case. *)
Theorem fetchPrice_five_attempts (responses : nat -> Response) :
  (forall fuel, (5 <= fuel)%nat ->
     fetchPrice_fuel fuel responses = Some (fetchPrice responses)) /\
  (requests (fetchPrice responses) <= 5)%nat /\
  (forall k price, (k < 5)%nat ->
     (forall j, (j < k)%nat -> price_of (responses j) = None) ->
     price_of (responses k) = Some price ->
     outcome (fetchPrice responses) = Return (Number price) /\
     requests (fetchPrice responses) = S k) /\
  ((forall j, (j < 5)%nat -> price_of (responses j) = None) ->
     outcome (fetchPrice responses) = Throw "Can not fetch price" /\
     requests (fetchPrice responses) = 5%nat) /\
  (is_throw (outcome (fetchPrice responses)) = true ->
     requests (fetchPrice responses) = 5%nat /\
     forall j, (j < 5)%nat -> price_of (responses j) = None).
Proof.
  split.
  { intros fuel Hfuel. replace fuel with (5 + (fuel - 5))%nat by lia.
    apply fetchPrice_unfold. }
  destruct (fetchPrice_cases responses)
    as [(k & price & Hk & Hbefore & Hat & Hout & Hreq & _)
       |(Hall & Hout & Hreq & _)].
  - split; [lia|]. split; [|split].
    + intros k' price' Hk' Hbefore' Hat'.
      assert (k' = k) as ->.
      { destruct (Nat.lt_trichotomy k' k) as [Hlt|[Heq|Hgt]]; [|exact Heq|].
        - rewrite (Hbefore _ Hlt) in Hat'. discriminate.
        - rewrite (Hbefore' _ Hgt) in Hat. discriminate. }
      rewrite Hat in Hat'. injection Hat' as <-. now split.
    + intros Hall. rewrite (Hall _ Hk) in Hat. discriminate.
    + rewrite Hout. discriminate.
  - split; [lia|]. split; [|split].
    + intros k price Hk _ Hat. rewrite (Hall _ Hk) in Hat. discriminate.
    + intros _. now split.
    + intros _. now split.
Qed.

End FetchProperties.

(** ** Numbers *)

Lemma abs_binary_round_aux (s : bool) (m e : Z) (l : location) :
  SFabs (binary_round_aux prec emax s m e l) = binary_round_aux prec emax false m e l.
Proof.
  unfold binary_round_aux.
  destruct (shr_fexp prec emax m e l) as [mrs' e'].
  destruct (shr_fexp prec emax _ e' loc_Exact) as [mrs'' e''].
  destruct (shr_m mrs''); try reflexivity.
  destruct (e'' <=? emax - prec); reflexivity.
Qed.

(** [Math.abs(q * 100)] is [Math.abs(q) * 100]. *)
Lemma abs_mul_hundred (q : number) :
  abs (q * of_Z 100)%js = (abs q * of_Z 100)%js.
Proof.
  change (of_Z 100) with (S754_finite false 7036874417766400 (-46)).
  unfold abs, mul.
  destruct q as [s|s| |s m e]; simpl; try reflexivity.
  apply abs_binary_round_aux.
Qed.



Lemma positive_finite_nonzero (x : number) :
  positive_finite x = true -> (x === of_Z 0)%js = false.
Proof.
  destruct x as [s|s| |[|] m e]; simpl; try discriminate. reflexivity.
Qed.

(** ** The update decision *)

Section DecisionProperties.
Context {rt : Runtime}.

Lemma percentChange_value (current previous : number) :
  percentChange current previous =
    if (previous === of_Z 0)%js then Throw "Previous price === 0"
    else Return (abs ((current - previous) / previous) * of_Z 100)%js.
Proof.
  unfold percentChange. now rewrite abs_mul_hundred.
Qed.


(** C7, as the code has it: [percentChange current previous] is
    [abs ((current - previous) / previous) * 100], and throws
    [Previous price === 0] when the previous price is zero.  The decision
    evaluates the eth change first and the degen change only when the eth
    change does not exceed the threshold: it throws when the previous eth
    price is zero, or when the eth change does not exceed the threshold and
    the previous degen price is zero. *)
Theorem zero_previous_price_guard (threshold : Z) (row : PriceRow)
    (currentPriceEth currentPriceDegen : number) :
  (forall current previous,
     percentChange current previous =
       if (previous === of_Z 0)%js then Throw "Previous price === 0"
       else Return (abs ((current - previous) / previous) * of_Z 100)%js) /\
  shouldUpdatePrice threshold (Some row) currentPriceEth currentPriceDegen =
    let previousEth := Number (eth_usd row) in
    let previousDegen := Number (degen_usd row) in
    if (previousEth === of_Z 0)%js then Throw "Previous price === 0"
    else if (abs ((currentPriceEth - previousEth) / previousEth) * of_Z 100
             > of_Z threshold)%js
    then Return true
    else if (previousDegen === of_Z 0)%js then Throw "Previous price === 0"
    else Return (abs ((currentPriceDegen - previousDegen) / previousDegen)
                 * of_Z 100 > of_Z threshold)%js.
Proof.
  split; [exact percentChange_value|].
  unfold shouldUpdatePrice. rewrite !percentChange_value. cbv zeta.
  destruct (Number (eth_usd row) === of_Z 0)%js; [reflexivity|].
  destruct (_ > of_Z threshold)%js; [reflexivity|].
  destruct (Number (degen_usd row) === of_Z 0)%js; reflexivity.
Qed.

End DecisionProperties.

(** C7, where the claim fails: with a previous degen price of zero and an
    eth change of 15 percent, the decision is true and nothing is thrown. *)
Lemma zero_degen_price_not_detected :
  (Sample.Number "0" === of_Z 0)%js = true /\
  shouldUpdatePrice (rt := Sample.runtime) 10
    (Some {| eth_usd := "2000"; degen_usd := "0" |})
    (Sample.Number "2300") (Sample.Number "0.01") = Return true.
Proof. split; vm_compute; reflexivity. Qed.


(** ** Runs of the job *)

Section FootprintLemmas.
Context {db : Database}.
Variable P : Request -> bool.
Hypothesis P_data : forall r, P r = true -> is_data r = true.

Lemma tryCatch_rethrow {A B} (m : M A) (k : option A -> M B) (w : World) :
  bind (tryCatch m)
       (fun p => match p with (error, result) =>
                   bind (throw_if error) (fun _ => k result) end) w
  = bind m (fun a => k (Some a)) w.
Proof.
  unfold bind, tryCatch. destruct (m w) as [[a|e] w']; reflexivity.
Qed.

Lemma tryCatch_rethrow_last {A} (m : M A) (w : World) :
  bind (tryCatch m)
       (fun p => match p with (error, _) => throw_if error end) w
  = bind m (fun _ => ret tt) w.
Proof.
  unfold bind, tryCatch. destruct (m w) as [[a|e] w']; reflexivity.
Qed.

Lemma clean_app (xs ys : list Entry) :
  clean xs -> clean ys -> clean (xs ++ ys).
Proof. intros Hx Hy. apply Forall_app. now split. Qed.

Lemma fail_fast_nil {A} (r : Completion A) : fail_fast r [].
Proof. destruct r; simpl; [constructor|left; constructor]. Qed.

Lemma fail_fast_app {A B} (a : A) (r : Completion B) (xs ys : list Entry) :
  fail_fast (Return a) xs -> fail_fast r ys -> fail_fast r (xs ++ ys).
Proof.
  simpl. intros Hx Hy. destruct r as [b|e]; simpl in *.
  - now apply clean_app.
  - destruct Hy as [Hy|(pre & q & -> & Hpre)].
    + left. now apply clean_app.
    + right. exists (xs ++ pre)%list, q. split.
      * now rewrite app_assoc.
      * now apply clean_app.
Qed.

Lemma fail_fast_throw {A B} (e : Error) (xs : list Entry) :
  fail_fast (@Throw A e) xs -> fail_fast (@Throw B e) xs.
Proof. exact (fun H => H). Qed.

Lemma data_op_ext {A} (m m' : M A) :
  (forall w, m w = m' w) -> data_op P m' -> data_op P m.
Proof.
  intros E H w. rewrite E. apply H.
Qed.

Lemma footprint_nil {A} (r : Completion A) (w : World) :
  footprint P w (r, w) [].
Proof.
  split; simpl; try reflexivity.
  - symmetry. apply app_nil_r.
  - intros s Hs. split; [reflexivity|congruence].
  - apply fail_fast_nil.
Qed.

Lemma data_op_ret {A} (a : A) : data_op P (ret a).
Proof. intros w. exists []. apply footprint_nil. Qed.

Lemma data_op_throw {A} (e : Error) : data_op P (@throw _ A e).
Proof. intros w. exists []. apply footprint_nil. Qed.

Lemma data_op_lift {A} (r : Completion A) : data_op P (lift r).
Proof. intros w. exists []. apply footprint_nil. Qed.

Lemma data_op_throw_if (e : option Error) : data_op P (throw_if e).
Proof. destruct e; [apply data_op_throw|apply data_op_ret]. Qed.

Lemma accept_data (s : Stmt) (w : World) :
  is_data (Query s) = true ->
  let w' := snd (accept s w) in
  sent w' = sent w /\ rejects w' = rejects w /\
  transactionStarted w' = transactionStarted w /\ console w' = console w /\
  (forall s0, tx w = Some s0 -> committed w' = committed w /\ tx w' <> None).
Proof.
  intros Hdata.
  destruct s; simpl in Hdata; try discriminate; unfold accept;
    destruct (exec _ _) as [store res]; simpl;
    destruct (tx w); simpl; repeat split; auto; try discriminate;
    intros s0 Hs0; discriminate.
Qed.

Lemma data_op_query (s : Stmt) :
  P (Query s) = true -> data_op P (query s).
Proof.
  intros HP w. exists [(Query s, verdict w)].
  pose proof (P_data _ HP) as Hdata.
  unfold query. destruct (verdict w) as [e|] eqn:Hrej.
  - split; simpl.
    + now rewrite Hrej.
    + unfold all_of. simpl. now rewrite HP.
    + reflexivity.
    + reflexivity.
    + reflexivity.
    + intros s0 Hs0. split; [reflexivity|congruence].
    + right. exists [], (Query s). split; [reflexivity|constructor].
  - pose proof (accept_data s (with_sent (Query s) w) Hdata) as H.
    destruct (accept s (with_sent (Query s) w)) as [result w''].
    simpl in H. destruct H as (H1 & H2 & H3 & H4 & H5).
    split; simpl; auto.
    + rewrite H1. now rewrite Hrej.
    + unfold all_of. simpl. now rewrite HP.
    + repeat constructor.
Qed.

Lemma data_op_bind {A B} (m : M A) (k : A -> M B) :
  data_op P m -> (forall a, data_op P (k a)) -> data_op P (bind m k).
Proof.
  intros Hm Hk w. destruct (Hm w) as [new1 F1]. unfold bind.
  destruct (m w) as [[a|e] w1] eqn:Hmw.
  - destruct (Hk a w1) as [new2 F2]. exists (new1 ++ new2)%list.
    destruct F1, F2. simpl in *.
    split; simpl.
    + rewrite fp_sent1, fp_sent0. now rewrite app_assoc.
    + unfold all_of in *. rewrite forallb_app.
      apply andb_true_intro. now split.
    + congruence.
    + congruence.
    + congruence.
    + intros s Hs. destruct (fp_tx0 s Hs) as [Hc Ht].
      destruct (tx w1) as [s1|] eqn:Hs1; [|congruence].
      destruct (fp_tx1 s1 eq_refl) as [Hc' Ht']. split; congruence.
    + exact (fail_fast_app a _ new1 new2 fp_fail_fast0 fp_fail_fast1).
  - exists new1. destruct F1. simpl in *. split; simpl; auto.
Qed.

Lemma data_op_try {A B} (m : M A) (k : option A -> M B) :
  data_op P m -> (forall r, data_op P (k r)) ->
  data_op P (bind (tryCatch m)
               (fun p => match p with (error, result) =>
                  bind (throw_if error) (fun _ => k result) end)).
Proof.
  intros Hm Hk. eapply data_op_ext; [apply tryCatch_rethrow|].
  apply data_op_bind; auto.
Qed.

Lemma data_op_try_last {A} (m : M A) :
  data_op P m ->
  data_op P (bind (tryCatch m)
               (fun p => match p with (error, _) => throw_if error end)).
Proof.
  intros Hm. eapply data_op_ext; [apply tryCatch_rethrow_last|].
  apply data_op_bind; auto. intros _. apply data_op_ret.
Qed.

Lemma data_op_for_of {A} (xs : list A) (body : A -> M unit) :
  (forall x, data_op P (body x)) -> data_op P (for_of xs body).
Proof.
  intros Hbody. induction xs as [|x xs IH]; simpl.
  - apply data_op_ret.
  - apply data_op_bind; auto.
Qed.

End FootprintLemmas.

Section JobFootprints.
Context {rt : Runtime} {db : Database}.

Lemma price_access_data (r : Request) : is_price_access r = true -> is_data r = true.
Proof. destruct r as [|[]|]; simpl; congruence. Qed.

Lemma create_data (r : Request) : is_create r = true -> is_data r = true.
Proof. destruct r as [|[]|]; simpl; congruence. Qed.

Lemma bounty_access_data (r : Request) : is_bounty_access r = true -> is_data r = true.
Proof. destruct r as [|[]|]; simpl; congruence. Qed.

Lemma updateLatestPrice_footprint (threshold : Z) (env : Env) :
  data_op is_price_access (updateLatestPrice threshold env).
Proof.
  pose proof price_access_data as D.
  unfold updateLatestPrice.
  apply data_op_try; auto. { now apply data_op_query. }
  intros latestResult.
  apply data_op_bind; auto. { apply data_op_lift. }
  intros [currentPriceEth currentPriceDegen].
  apply data_op_bind; auto. { apply data_op_lift. }
  intros shouldUpdate. destruct (negb shouldUpdate).
  - destruct (match latestResult with Some _ => _ | None => _ end);
      [apply data_op_ret|apply data_op_throw].
  - apply data_op_try; auto. { now apply data_op_query. }
    intros _. apply data_op_ret.
Qed.

Lemma ensureLiveQueryTables_footprint (schemaName : string) :
  data_op is_create (ensureLiveQueryTables schemaName).
Proof.
  unfold ensureLiveQueryTables.
  apply data_op_try_last. apply data_op_query; auto using create_data.
Qed.

Lemma revalue_footprint (update : string -> BountyRow -> Stmt)
    (prices : LatestPrice) (bounties : list BountyRow) :
  (forall v b, is_update (Query (update v b)) = true) ->
  data_op is_bounty_access (revalue update prices bounties).
Proof.
  intros Hupdate. pose proof bounty_access_data as D.
  unfold revalue. apply data_op_for_of. intros bounty.
  apply data_op_bind; auto. { apply data_op_lift. }
  intros amount_sort. apply data_op_try_last. apply data_op_query; auto.
  specialize (Hupdate amount_sort bounty).
  destruct (update amount_sort bounty); simpl in *; congruence.
Qed.

Lemma Schema_updateBountyAmounts_footprint (prices : LatestPrice)
    (schemaName : string) :
  data_op is_bounty_access (Schema.updateBountyAmounts prices schemaName).
Proof.
  pose proof bounty_access_data as D.
  unfold Schema.updateBountyAmounts.
  apply data_op_try; auto. { now apply data_op_query. }
  intros [bountyResult|]; [|apply data_op_throw].
  apply data_op_bind; auto.
  - apply revalue_footprint. reflexivity.
  - intros _. apply data_op_ret.
Qed.

Lemma Sidecar_updateBountyAmounts_footprint (prices : LatestPrice) :
  data_op is_bounty_access (Sidecar.updateBountyAmounts prices).
Proof.
  pose proof bounty_access_data as D.
  unfold Sidecar.updateBountyAmounts.
  apply data_op_try; auto. { now apply data_op_query. }
  intros [bountyResult|]; [|apply data_op_throw].
  apply data_op_bind; auto.
  - apply revalue_footprint. reflexivity.
  - intros _. apply data_op_ret.
Qed.

Lemma Schema_main_try_transaction (env : Env) (schemaName : string) :
  Schema.main_try env schemaName =
  transaction Schema.threshold (ensureLiveQueryTables schemaName)
    (fun prices => Schema.updateBountyAmounts prices schemaName) env.
Proof. reflexivity. Qed.

Lemma Sidecar_main_try_transaction (env : Env) :
  Sidecar.main_try env =
  transaction Sidecar.threshold (ret tt) Sidecar.updateBountyAmounts env.
Proof. reflexivity. Qed.

End JobFootprints.

Section Steps.
Context {db : Database}.

Lemma bind_run {A B} (m : M A) (k : A -> M B) (w : World) :
  bind m k w =
    match m w with
    | (Return a, w') => k a w'
    | (Throw e, w') => (Throw e, w')
    end.
Proof. reflexivity. Qed.

Lemma query_control_rejected (s : Stmt) (w : World) (e : Error) :
  verdict w = Some e ->
  query s w = (Throw e, with_sent (Query s) w).
Proof. intros H. unfold query. now rewrite H. Qed.

Lemma query_accepted (s : Stmt) (w : World) :
  verdict w = None ->
  query s w = (Return (fst (accept s (with_sent (Query s) w))),
               snd (accept s (with_sent (Query s) w))).
Proof.
  intros H. unfold query. rewrite H.
  now destruct (accept s (with_sent (Query s) w)).
Qed.

End Steps.

Section PriceUpdate.
Context {rt : Runtime} {db : Database}.
Local Arguments verdict : simpl never.

(** [updateLatestPrice], step by step. *)
Lemma updateLatestPrice_run (threshold : Z) (env : Env) (w : World) :
  updateLatestPrice threshold env w =
    match verdict w with
    | Some e => (Throw e, with_sent (Query SelectLatestPrice) w)
    | None =>
        let selected := accept SelectLatestPrice
                          (with_sent (Query SelectLatestPrice) w) in
        let w1 := snd selected in
        let latestPrice := hd_error (rows (fst selected)) in
        match fetched env with
        | Throw e => (Throw e, w1)
        | Return (currentPriceEth, currentPriceDegen) =>
            match shouldUpdatePrice threshold latestPrice
                    currentPriceEth currentPriceDegen with
            | Throw e => (Throw e, w1)
            | Return false =>
                match latestPrice with
                | Some row =>
                    (Return {| prices := {| ethUsd := Number (eth_usd row);
                                            degenUsd := Number (degen_usd row) |};
                               didUpdate := false |}, w1)
                | None =>
                    (Throw "TypeError: Cannot read properties of undefined", w1)
                end
            | Return true =>
                let insert := InsertPrice (toString currentPriceEth)
                                          (toString currentPriceDegen) in
                match verdict w1 with
                | Some e => (Throw e, with_sent (Query insert) w1)
                | None =>
                    (Return {| prices := {| ethUsd := currentPriceEth;
                                            degenUsd := currentPriceDegen |};
                               didUpdate := true |},
                     snd (accept insert (with_sent (Query insert) w1)))
                end
            end
        end
    end.
Proof.
  unfold updateLatestPrice. rewrite tryCatch_rethrow, bind_run.
  destruct (verdict w) as [e|] eqn:Hselect.
  { now rewrite (query_control_rejected _ _ _ Hselect). }
  rewrite (query_accepted _ _ Hselect). cbv beta iota zeta.
  set (selected := accept SelectLatestPrice (with_sent (Query SelectLatestPrice) w)).
  rewrite bind_run. unfold lift, fetched.
  destruct (Promise_all2 _ _) as [[currentPriceEth currentPriceDegen]|e];
    [|reflexivity].
  rewrite bind_run.
  destruct (shouldUpdatePrice _ _ _ _) as [[|]|e]; [| |reflexivity].
  - cbn [negb]. rewrite tryCatch_rethrow, bind_run.
    destruct (verdict (snd selected)) as [e|] eqn:Hinsert.
    + now rewrite (query_control_rejected _ _ _ Hinsert).
    + now rewrite (query_accepted _ _ Hinsert).
  - cbn [negb]. destruct (hd_error _); reflexivity.
Qed.

Lemma updateLatestPrice_inserts (threshold : Z) (env : Env) (w w' : World)
    (updated : UpdatedPrice) :
  updateLatestPrice threshold env w = (Return updated, w') ->
  didUpdate updated = true ->
  exists p1 p2,
    sent w' = (sent w ++ [(Query SelectLatestPrice, None);
                          (Query (InsertPrice p1 p2), None)])%list.
Proof.
  rewrite updateLatestPrice_run. intros Hrun Hupdated.
  destruct (verdict w) as [e|] eqn:Hselect; [discriminate|].
  cbv zeta in Hrun.
  set (selected := accept SelectLatestPrice
                     (with_sent (Query SelectLatestPrice) w)) in *.
  assert (Hsent : sent (snd selected)
                  = (sent w ++ [(Query SelectLatestPrice, None)])%list).
  { unfold selected, accept. destruct (exec _ _) as [store result].
    simpl. destruct (tx w); simpl; now rewrite Hselect. }
  set (w1 := snd selected) in *. clearbody w1. clearbody selected.
  destruct (fetched env) as [[currentPriceEth currentPriceDegen]|e];
    [|discriminate].
  destruct (shouldUpdatePrice _ _ _ _) as [[|]|e]; [| |discriminate].
  - destruct (verdict w1) as [e|] eqn:Hinsert; [discriminate|].
    injection Hrun as _ <-.
    exists (toString currentPriceEth), (toString currentPriceDegen).
    unfold accept. destruct (exec _ _) as [store result].
    simpl. destruct (tx _); simpl; rewrite Hinsert, Hsent;
      now rewrite <- app_assoc.
  - destruct (hd_error _); [|discriminate].
    injection Hrun as <- _. discriminate.
Qed.

Lemma fetched_origin (env : Env) (currentPriceEth currentPriceDegen : number) :
  fetched env = Return (currentPriceEth, currentPriceDegen) ->
  exists k1 s1 k2 s2,
    (k1 < 5)%nat /\ price_of (exchange_rates env eth k1) = Some s1 /\
    currentPriceEth = Number s1 /\
    (k2 < 5)%nat /\ price_of (exchange_rates env degen k2) = Some s2 /\
    currentPriceDegen = Number s2.
Proof.
  unfold fetched. intros H.
  destruct (fetchPrice_cases (exchange_rates env eth))
    as [(k1 & s1 & Hk1 & _ & Hs1 & Ho1 & _)|(_ & Ho1 & _)];
    rewrite Ho1 in H; [|discriminate].
  destruct (fetchPrice_cases (exchange_rates env degen))
    as [(k2 & s2 & Hk2 & _ & Hs2 & Ho2 & _)|(_ & Ho2 & _)];
    rewrite Ho2 in H; [|discriminate].
  injection H as <- <-. exists k1, s1, k2, s2. auto 10.
Qed.

(** Where an inserted snapshot comes from: every INSERT of
    [updateLatestPrice] carries the renderings of the two numbers that the
    price fetch returned. *)
Lemma inserted_snapshot_origin (threshold : Z) (env : Env)
    (w : World) :
  exists new,
    sent (snd (updateLatestPrice threshold env w)) = (sent w ++ new)%list /\
    forall p1 p2 o,
      In (Query (InsertPrice p1 p2), o) new ->
      exists k1 s1 k2 s2,
        (k1 < 5)%nat /\ price_of (exchange_rates env eth k1) = Some s1 /\
        (k2 < 5)%nat /\ price_of (exchange_rates env degen k2) = Some s2 /\
        fetched env = Return (Number s1, Number s2) /\
        p1 = toString (Number s1) /\ p2 = toString (Number s2).
Proof.
  rewrite updateLatestPrice_run.
  destruct (verdict w) as [e|] eqn:Hselect.
  { exists [(Query SelectLatestPrice, Some e)]. simpl. rewrite Hselect.
    split; [reflexivity|]. intros p1 p2 o [H|[]]. discriminate. }
  cbv zeta.
  set (selected := accept SelectLatestPrice
                     (with_sent (Query SelectLatestPrice) w)).
  assert (Hsent : sent (snd selected)
                  = (sent w ++ [(Query SelectLatestPrice, None)])%list).
  { unfold selected, accept. destruct (exec _ _) as [store result].
    simpl. destruct (tx w); simpl; now rewrite Hselect. }
  clearbody selected.
  assert (only_select :
    forall r : Completion UpdatedPrice,
    exists new,
      sent (snd (r, snd selected)) = (sent w ++ new)%list /\
      forall p1 p2 o,
        In (Query (InsertPrice p1 p2), o) new ->
        exists k1 s1 k2 s2,
          (k1 < 5)%nat /\ price_of (exchange_rates env eth k1) = Some s1 /\
          (k2 < 5)%nat /\ price_of (exchange_rates env degen k2) = Some s2 /\
          fetched env = Return (Number s1, Number s2) /\
          p1 = toString (Number s1) /\ p2 = toString (Number s2)).
  { intros r. exists [(Query SelectLatestPrice, None)]. split; [exact Hsent|].
    intros p1 p2 o [H|[]]. discriminate. }
  destruct (fetched env) as [[currentPriceEth currentPriceDegen]|e] eqn:Hfetched;
    [|apply only_select].
  destruct (shouldUpdatePrice _ _ _ _) as [[|]|e]; [| |apply only_select].
  2:{ destruct (hd_error _); apply only_select. }
  destruct (fetched_origin env _ _ Hfetched)
    as (k1 & s1 & k2 & s2 & Hk1 & Hs1 & -> & Hk2 & Hs2 & ->).
  exists [(Query SelectLatestPrice, None);
          (Query (InsertPrice (toString (Number s1)) (toString (Number s2))),
           verdict (snd selected))].
  split.
  - set (w1 := snd selected) in *. clearbody w1.
    destruct (verdict w1) as [e|] eqn:Hinsert; simpl.
    + rewrite Hinsert, Hsent. now rewrite <- app_assoc.
    + unfold accept. destruct (exec _ _) as [store result].
      simpl. destruct (tx _); simpl; rewrite Hinsert, Hsent;
        now rewrite <- app_assoc.
  - intros p1 p2 o [H|[H|[]]]; [discriminate|].
    injection H as <- <- _. exists k1, s1, k2, s2. auto 10.
Qed.

(** Whatever pair the fetch returned is inserted when the decision is to
    update: the INSERT follows the SELECT and carries the renderings of the
    two numbers. *)
Lemma updateLatestPrice_inserts_fetched (threshold : Z) (env : Env)
    (w : World) (currentPriceEth currentPriceDegen : number) :
  verdict w = None ->
  fetched env = Return (currentPriceEth, currentPriceDegen) ->
  decision threshold env (current w) = Return true ->
  sent (snd (updateLatestPrice threshold env w)) =
    (sent w ++ [(Query SelectLatestPrice, None);
                (Query (InsertPrice (toString currentPriceEth)
                                    (toString currentPriceDegen)),
                 rejects w (S (List.length (sent w))))])%list.
Proof.
  intros Hselect Hfetched Hdecision.
  rewrite updateLatestPrice_run, Hselect. cbv zeta.
  unfold decision, latest in Hdecision. rewrite Hfetched in *.
  set (selected := accept SelectLatestPrice
                     (with_sent (Query SelectLatestPrice) w)).
  assert (Hsel : fst selected = snd (exec SelectLatestPrice (current w)) /\
                 sent (snd selected)
                   = (sent w ++ [(Query SelectLatestPrice, None)])%list /\
                 rejects (snd selected) = rejects w).
  { unfold selected, accept.
    change (current (with_sent (Query SelectLatestPrice) w)) with (current w).
    destruct (exec _ _) as [store result].
    simpl. destruct (tx w); simpl; now rewrite Hselect. }
  destruct Hsel as (Hrows & Hsent & Hrejects). rewrite Hrows, Hdecision.
  assert (Hverdict : verdict (snd selected)
                     = rejects w (S (List.length (sent w)))).
  { unfold verdict. rewrite Hsent, Hrejects, length_app. simpl.
    f_equal. lia. }
  set (w1 := snd selected) in *. clearbody w1. rewrite <- Hverdict.
  destruct (verdict w1) as [e|] eqn:Hinsert; simpl.
  - rewrite Hinsert, Hsent, <- app_assoc. reflexivity.
  - unfold accept. destruct (exec (InsertPrice _ _) _) as [store1 result1].
    simpl. destruct (tx _); simpl; rewrite Hinsert, Hsent, <- app_assoc;
      reflexivity.
Qed.

Lemma fetched_first_answers (env : Env) (s1 s2 : string) :
  price_of (exchange_rates env eth 0%nat) = Some s1 ->
  price_of (exchange_rates env degen 0%nat) = Some s2 ->
  fetched env = Return (Number s1, Number s2).
Proof.
  intros H1 H2. unfold fetched, fetchPrice, fetchPrice_fuel. simpl.
  now rewrite (attempt_accepts _ _ _ H1), (attempt_accepts _ _ _ H2).
Qed.

Lemma decision_without_snapshot (threshold : Z) (env : Env) (store : Store)
    (currentPriceEth currentPriceDegen : number) :
  fetched env = Return (currentPriceEth, currentPriceDegen) ->
  latest store = None ->
  decision threshold env store = Return true.
Proof.
  intros Hfetched Hlatest. unfold decision. now rewrite Hfetched, Hlatest.
Qed.

(** C8, as the code has it: every snapshot row that [updateLatestPrice]
    inserts holds the renderings of the two numbers that the price fetch
    returned in that run, each the [Number] of a non-empty string answered
    by the quote endpoint within its first five attempts.  Nothing is
    checked on the way to the insert: two non-empty strings answered at the
    first attempt are fetched as their numbers, whatever these are; with no
    snapshot in the store the decision is to update for every fetched
    pair; and whenever the decision is to update, the INSERT follows the
    SELECT and carries the renderings of the fetched pair. *)
Theorem inserted_snapshot_is_the_fetched_pair (threshold : Z) (env : Env)
    (w : World) :
  (exists new,
     sent (snd (updateLatestPrice threshold env w)) = (sent w ++ new)%list /\
     forall p1 p2 o,
       In (Query (InsertPrice p1 p2), o) new ->
       exists k1 s1 k2 s2,
         (k1 < 5)%nat /\ price_of (exchange_rates env eth k1) = Some s1 /\
         (k2 < 5)%nat /\ price_of (exchange_rates env degen k2) = Some s2 /\
         fetched env = Return (Number s1, Number s2) /\
         p1 = toString (Number s1) /\ p2 = toString (Number s2)) /\
  (forall s1 s2,
     price_of (exchange_rates env eth 0%nat) = Some s1 ->
     price_of (exchange_rates env degen 0%nat) = Some s2 ->
     fetched env = Return (Number s1, Number s2)) /\
  (forall currentPriceEth currentPriceDegen,
     fetched env = Return (currentPriceEth, currentPriceDegen) ->
     (latest (current w) = None ->
      decision threshold env (current w) = Return true) /\
     (verdict w = None ->
      decision threshold env (current w) = Return true ->
      sent (snd (updateLatestPrice threshold env w)) =
        (sent w ++ [(Query SelectLatestPrice, None);
                    (Query (InsertPrice (toString currentPriceEth)
                                        (toString currentPriceDegen)),
                     rejects w (S (List.length (sent w))))])%list)).
Proof.
  split; [apply inserted_snapshot_origin|].
  split; [apply fetched_first_answers|].
  intros currentPriceEth currentPriceDegen Hfetched. split.
  - now apply decision_without_snapshot with currentPriceEth currentPriceDegen.
  - intros Hselect Hdecision.
    now apply updateLatestPrice_inserts_fetched.
Qed.

End PriceUpdate.

Section TransactionLemmas.
Context {rt : Runtime} {db : Database}.

Lemma transaction_spec (threshold : Z) (prepare : M unit)
    (revalue : LatestPrice -> M Z) (env : Env) (Q : Request -> bool) :
  (forall r, Q r = true -> is_data r = true) ->
  data_op Q prepare ->
  (forall prices, data_op is_bounty_access (revalue prices)) ->
  forall w, exists new,
    tx_body Q w (transaction threshold prepare revalue env w) new.
Proof.
  intros HQ Hprepare Hrevalue w.
  unfold transaction. rewrite tryCatch_rethrow, bind_run.
  destruct (verdict w) as [e|] eqn:Hbegin.
  { rewrite (query_control_rejected _ _ _ Hbegin).
    exists [(Query BEGIN, Some e)]. split; simpl.
    - now rewrite Hbegin.
    - reflexivity.
    - right. exists [], (Query BEGIN). split; [reflexivity|constructor].
    - exists (Some e), [], [], [], []. repeat split.
      intros [H|(o & [])]. now contradiction H.
    - split; [reflexivity|]. right. repeat split. }
  rewrite (query_accepted _ _ Hbegin). simpl.
  rewrite bind_run. simpl.
  set (w2 := {| committed := committed w |}).
  assert (Hw2 : sent w2 = (sent w ++ [(Query BEGIN, None)])%list)
    by (simpl; now rewrite Hbegin).
  assert (Htx2 : tx w2 = Some (current (with_sent (Query BEGIN) w)))
    by reflexivity.
  assert (Hr2 : rejects w2 = rejects w) by reflexivity.
  assert (Hc2 : committed w2 = committed w) by reflexivity.
  assert (Hs2 : transactionStarted w2 = true) by reflexivity.
  clearbody w2.
  rewrite bind_run.
  destruct (updateLatestPrice_footprint threshold env w2) as [new1 F1].
  destruct (updateLatestPrice threshold env w2) as [[updated|e] w3] eqn:Hulp;
    destruct F1 as [S1 K1 R1 T1 C1 X1 FF1]; simpl in *;
    destruct (X1 _ Htx2) as [Xc1 Xt1].
  2:{ exists ((Query BEGIN, None) :: new1)%list. split; simpl.
      - rewrite S1, Hw2. now rewrite <- app_assoc.
      - congruence.
      - apply (fail_fast_app tt (@Throw Z e) [(Query BEGIN, None)] new1);
          [repeat constructor|assumption].
      - exists None, new1, [], [], []. rewrite !app_nil_r. repeat split; auto.
        intros [H|(o & [])]. now contradiction H.
      - split; [congruence|]. left. congruence. }
  destruct (didUpdate updated) eqn:HdidUpdate; cbn [negb].
  2:
  { rewrite tryCatch_rethrow, bind_run.
    destruct (verdict w3) as [e|] eqn:Hrollback.
    - rewrite (query_control_rejected _ _ _ Hrollback).
      exists ((Query BEGIN, None) :: new1 ++ [(Query ROLLBACK, Some e)])%list.
      split; simpl.
      + rewrite Hrollback, S1, Hw2. now rewrite <- !app_assoc.
      + congruence.
      + right. exists ((Query BEGIN, None) :: new1)%list, (Query ROLLBACK).
        split; [reflexivity|]. constructor; [reflexivity|assumption].
      + exists None, new1, [], [], [(Query ROLLBACK, Some e)].
        repeat split; auto.
        intros [H|(o & [H|[]])]; [now contradiction H|discriminate].
      + split; [congruence|]. left. congruence.
    - rewrite (query_accepted _ _ Hrollback). simpl.
      exists ((Query BEGIN, None) :: new1 ++ [(Query ROLLBACK, None)])%list.
      split; simpl.
      + rewrite Hrollback, S1, Hw2. now rewrite <- !app_assoc.
      + congruence.
      + constructor; [reflexivity|]. apply clean_app; [assumption|].
        repeat constructor.
      + exists None, new1, [], [], [(Query ROLLBACK, None)].
        repeat split; auto.
        intros [H|(o & [H|[]])]; [now contradiction H|discriminate].
      + repeat split. }
  assert (Hinserted : forall b c d, after_insert new1 b c d).
  { intros b c d _.
    destruct (updateLatestPrice_inserts _ _ _ _ _ Hulp HdidUpdate)
      as (p1 & p2 & Hins).
    rewrite S1 in Hins. apply app_inv_head in Hins. subst new1.
    exists p1, p2. right. now left. }
  rewrite bind_run.
  destruct (Hprepare w3) as [new2 F2].
  destruct (prepare w3) as [[[]|e] w4];
    destruct F2 as [S2 K2 R2 T2 C2 X2 FF2]; simpl in *;
    destruct (tx w3) as [s3|] eqn:Htx3; try congruence;
    destruct (X2 _ eq_refl) as [Xc2 Xt2].
  2:{ exists ((Query BEGIN, None) :: new1 ++ new2)%list. split; simpl.
      - rewrite S2, S1, Hw2. now rewrite <- !app_assoc.
      - congruence.
      - apply (fail_fast_app tt (@Throw Z e) ((Query BEGIN, None) :: new1) new2);
          [constructor; [reflexivity|assumption]|assumption].
      - exists None, new1, new2, [], []. rewrite !app_nil_r. repeat split; auto.
      - split; [congruence|]. left. congruence. }
  rewrite bind_run.
  destruct (Hrevalue (prices updated) w4) as [new3 F3].
  destruct (revalue (prices updated) w4) as [[updatedCount|e] w5];
    destruct F3 as [S3 K3 R3 T3 C3 X3 FF3]; simpl in *;
    destruct (tx w4) as [s4|] eqn:Htx4; try congruence;
    destruct (X3 _ eq_refl) as [Xc3 Xt3].
  2:{ exists ((Query BEGIN, None) :: new1 ++ new2 ++ new3)%list. split; simpl.
      - rewrite S3, S2, S1, Hw2. now rewrite <- !app_assoc.
      - congruence.
      - replace ((Query BEGIN, None) :: new1 ++ new2 ++ new3)%list
          with (((Query BEGIN, None) :: new1 ++ new2) ++ new3)%list
          by (simpl; now rewrite <- app_assoc).
        apply (fail_fast_app tt (@Throw Z e)
                 ((Query BEGIN, None) :: new1 ++ new2) new3).
        + constructor; [reflexivity|]. now apply clean_app.
        + assumption.
      - exists None, new1, new2, new3, []. rewrite !app_nil_r.
        repeat split; auto.
      - split; [congruence|]. left. congruence. }
  rewrite tryCatch_rethrow, bind_run.
  destruct (verdict w5) as [e|] eqn:Hcommit.
  - rewrite (query_control_rejected _ _ _ Hcommit).
    exists ((Query BEGIN, None) :: new1 ++ new2 ++ new3
            ++ [(Query COMMIT, Some e)])%list.
    split; simpl.
    + rewrite Hcommit, S3, S2, S1, Hw2. now rewrite <- !app_assoc.
    + congruence.
    + right. exists ((Query BEGIN, None) :: new1 ++ new2 ++ new3)%list,
        (Query COMMIT).
      split; [simpl; now rewrite <- !app_assoc|].
      constructor; [reflexivity|]. repeat apply clean_app; assumption.
    + exists None, new1, new2, new3, [(Query COMMIT, Some e)].
      repeat split; auto.
    + split; [congruence|]. left. congruence.
  - rewrite (query_accepted _ _ Hcommit). simpl.
    exists ((Query BEGIN, None) :: new1 ++ new2 ++ new3
            ++ [(Query COMMIT, None)])%list.
    split; simpl.
    + rewrite Hcommit, S3, S2, S1, Hw2. now rewrite <- !app_assoc.
    + congruence.
    + constructor; [reflexivity|].
      repeat apply clean_app; try assumption. repeat constructor.
    + exists None, new1, new2, new3, [(Query COMMIT, None)].
      repeat split; auto.
    + repeat split.
Qed.

End TransactionLemmas.

Section MainLemmas.
Context {rt : Runtime} {db : Database}.
Local Arguments verdict : simpl never.

Lemma guarded_spec (body : M Z) (Q : Request -> bool) (w : World)
    (new : list Entry) :
  tx_body Q w (body w) new ->
  transactionStarted w = false ->
  let res := try_catch_finally body Schema.main_catch end_ w in
  exists suffix,
    sent (snd res) = (sent w ++ new ++ suffix)%list /\
    rejects (snd res) = rejects w /\
    ending w (snd res) (fst res) new suffix.
Proof.
  intros [Hsent Hrej Hff Hshape Hend] Hstarted.
  unfold try_catch_finally.
  destruct (body w) as [[z|e] w1]; simpl in *.
  - destruct Hend as (-> & Htx & Hst).
    unfold end_. exists [(End_, verdict w1)].
    destruct (verdict w1) as [e|] eqn:Hv; simpl.
    + split; [now rewrite Hv, Hsent, <- app_assoc|]. split; [assumption|].
      constructor; [assumption|reflexivity|discriminate].
    + split; [now rewrite Hv, Hsent, <- app_assoc|]. split; [assumption|].
      constructor; [assumption|reflexivity|reflexivity].
  - destruct Hend as (Hcommitted & Hst).
    unfold Schema.main_catch. rewrite bind_run. simpl.
    destruct (transactionStarted w1) eqn:Hstarted1.
    + (* the transaction was started: ROLLBACK, then end *)
      rewrite !bind_run.
      destruct (verdict w1) as [e1|] eqn:Hv1.
      * rewrite (query_control_rejected _ _ _ Hv1).
        set (w2 := with_sent (Query ROLLBACK) w1).
        unfold end_. exists [(Query ROLLBACK, Some e1); (End_, verdict w2)].
        assert (Hs2 : sent w2 = (sent w ++ new ++ [(Query ROLLBACK, Some e1)])%list)
          by (simpl; now rewrite Hv1, Hsent, <- app_assoc).
        destruct (verdict w2) as [e2|] eqn:Hv2; simpl;
          rewrite Hv1, Hv2, Hsent;
          (split; [now rewrite <- !app_assoc|]); (split; [assumption|]);
          apply ended_with_rollback with (e := e); auto; try reflexivity.
        intros [H|H]; discriminate.
      * rewrite (query_accepted _ _ Hv1).
        set (w2 := snd (accept ROLLBACK (with_sent (Query ROLLBACK) w1))).
        assert (Hs2 : sent w2 = (sent w1 ++ [(Query ROLLBACK, None)])%list)
          by (simpl; now rewrite Hv1).
        assert (Hc2 : committed w2 = committed w1) by reflexivity.
        assert (Ht2 : tx w2 = None) by reflexivity.
        assert (Hr2 : rejects w2 = rejects w1) by reflexivity.
        clearbody w2. cbn [fst snd ret throw].
        unfold end_. exists [(Query ROLLBACK, None); (End_, verdict w2)].
        destruct (verdict w2) as [e2|] eqn:Hv2; simpl;
          rewrite ?Hv2, Hs2, Hsent;
          (split; [now rewrite <- !app_assoc|]); (split; [congruence|]);
          apply ended_with_rollback with (e := e); auto; try reflexivity;
          simpl; congruence.
    + (* BEGIN was rejected: no rollback *)
      destruct Hst as [?|(Hnew & _ & Htx)]; [discriminate|].
      cbn [bind fst snd ret throw].
      unfold end_. exists [(End_, verdict w1)].
      destruct (verdict w1) as [e2|] eqn:Hv1; simpl; rewrite Hv1, Hsent;
        (split; [now rewrite <- !app_assoc|]); (split; [assumption|]);
        apply ended_without_transaction with (e := e); auto.
Qed.

End MainLemmas.

Section MainRun.
Context {rt : Runtime} {db : Database}.
Local Arguments verdict : simpl never.

Lemma connected_run (v : Variant) (store : Store) (script : nat -> option Error)
    (body : M Z) :
  (forall w, exists new, tx_body (prepares v) w (body w) new) ->
  let res :=
    bind (tryCatch connect) (fun p => match p with (connectError, _) =>
      bind (throw_if connectError) (fun _ =>
      bind (set_transactionStarted false) (fun _ =>
      try_catch_finally body Schema.main_catch end_)) end)
    (fresh store script) in
  main_run v store res.
Proof.
  intros Hbody res. subst res.
  rewrite tryCatch_rethrow, bind_run. unfold connect.
  destruct (verdict (fresh store script)) as [e|] eqn:Hconnect.
  - apply run_connection_refused with (e := e); simpl; try reflexivity.
    now rewrite Hconnect.
  - rewrite bind_run.
    set (w1 := snd (set_transactionStarted false
                      (with_sent Connect (fresh store script)))).
    assert (Hs1 : sent w1 = [(Connect, None)]) by (simpl; now rewrite Hconnect).
    assert (Hc1 : committed w1 = store) by reflexivity.
    assert (Ht1 : transactionStarted w1 = false) by reflexivity.
    change (main_run v store (try_catch_finally body Schema.main_catch end_ w1)).
    clearbody w1.
    destruct (Hbody w1) as [new Hnew].
    destruct (guarded_spec body _ w1 new Hnew Ht1) as (suffix & Hsent & _ & Hend).
    destruct (tb_shape _ _ _ _ Hnew)
      as (o & a & b & c & d & -> & Ha & Hb & Hc & Hd & Hins).
    apply run_transaction with (w := w1) (o := o) (a := a) (b := b) (c := c)
                               (d := d) (suffix := suffix); auto.
    rewrite Hsent, Hs1. reflexivity.
Qed.

Lemma prepares_data (v : Variant) (r : Request) :
  prepares v r = true -> is_data r = true.
Proof. destruct v; simpl; [apply create_data|discriminate]. Qed.

Lemma main_runs (v : Variant) (env : Env) (store : Store)
    (script : nat -> option Error) :
  main_run v store (main_of v env (fresh store script)).
Proof.
  destruct v; simpl.
  - unfold Schema.main.
    destruct (DATABASE_URL env) as [[|c url]|];
      try (apply run_not_connected; reflexivity).
    rewrite bind_run. unfold lift.
    destruct (fetchDeploymentId env) as [schemaName|e];
      [|apply run_not_connected; reflexivity].
    apply (connected_run SchemaQualified).
    intros w. rewrite Schema_main_try_transaction.
    apply transaction_spec.
    + apply create_data.
    + apply ensureLiveQueryTables_footprint.
    + intros prices. apply Schema_updateBountyAmounts_footprint.
  - unfold Sidecar.main.
    destruct (DATABASE_URL env) as [[|c url]|];
      try (apply run_not_connected; reflexivity).
    change Sidecar.main_catch with Schema.main_catch.
    apply (connected_run SidecarTable).
    intros w. rewrite Sidecar_main_try_transaction.
    apply transaction_spec.
    + discriminate.
    + apply data_op_ret.
    + intros prices. apply Sidecar_updateBountyAmounts_footprint.
Qed.

End MainRun.

Section Atomicity.
Context {rt : Runtime} {db : Database}.

Lemma clean_no_rejection (new : list Entry) (u : Request) (e : Error) :
  clean new -> ~ In (u, Some e) new.
Proof.
  intros Hclean Hin. unfold clean in Hclean. rewrite Forall_forall in Hclean.
  specialize (Hclean _ Hin). discriminate.
Qed.

Lemma all_of_In (P : Request -> bool) (new : list Entry) (x : Entry) :
  all_of P new = true -> In x new -> P (fst x) = true.
Proof.
  unfold all_of. rewrite forallb_forall. intros H Hin. now apply H.
Qed.

Lemma ends_with_other_kind (P : Request -> bool) (xs ys pre : list Entry)
    (x : Entry) :
  (xs ++ ys = pre ++ [x])%list -> all_of P ys = true -> P (fst x) = false ->
  ys = [].
Proof.
  intros Heq HP Hx.
  destruct ys as [|y0 ys0] using rev_ind; [reflexivity|].
  rewrite app_assoc in Heq. apply app_inj_tail in Heq as [_ ->].
  assert (P (fst x) = true) by (apply (all_of_In P _ x HP), in_app_iff; right; now left).
  congruence.
Qed.

(** A rejected data statement ends the run: nothing is sent after it but
    the rollback and the closing of the connection, [main] throws, and the
    committed store is as before the run. *)
Lemma rejected_data_request_aborts (v : Variant) (env : Env) (store : Store)
    (script : nat -> option Error) (u : Request) (e : Error) :
  let res := main_of v env (fresh store script) in
  In (u, Some e) (sent (snd res)) ->
  is_data u = true ->
  exists o a b c d rollback closing,
    sent (snd res) =
      ((Connect, None) :: ((Query BEGIN, o) :: a ++ b ++ c ++ d)
       ++ [(Query ROLLBACK, rollback); (End_, closing)])%list /\
    (exists before, ((Query BEGIN, o) :: a ++ b ++ c ++ d
                     = before ++ [(u, Some e)])%list /\ clean before) /\
    all_of is_price_access a = true /\
    all_of (prepares v) b = true /\
    all_of is_bounty_access c = true /\
    all_of is_closing d = true /\
    after_insert a b c d /\
    fst res = Throw (first_error e [rollback; closing]) /\
    (rollback = None \/ closing = None -> tx (snd res) = None) /\
    committed (snd res) = store.
Proof.
  intros res Hin Hdata. subst res.
  destruct (main_runs v env store script)
    as [Hsent _ _|e0 Hsent _ _
       |w o a b c d suffix new Hw Hsent Ha Hb Hc Hd Hins Hend].
  - rewrite Hsent in Hin. contradiction.
  - rewrite Hsent in Hin. destruct Hin as [Hin|[]].
    injection Hin as <- _. discriminate.
  - rewrite Hsent in Hin.
    destruct Hin as [Hin|Hin]; [injection Hin as <- _; discriminate|].
    apply in_app_iff in Hin.
    destruct Hend as [en Hclean Hr Htx|e0 en Hnew Hcommitted Hr
                     |e0 rb en Hff Hcommitted Hr Htx].
    + destruct Hin as [Hin|[Hin|[]]].
      * now apply clean_no_rejection in Hin.
      * injection Hin as <- _. discriminate.
    + destruct Hin as [Hin|[Hin|[]]].
      * rewrite Hnew in Hin. destruct Hin as [Hin|[]].
        injection Hin as <- _. discriminate.
      * injection Hin as <- _. discriminate.
    + destruct Hin as [Hin|[Hin|[Hin|[]]]];
        try (injection Hin as <- _; discriminate).
      simpl in Hff. destruct Hff as [Hclean|(before & q & Hnew & Hclean)].
      { now apply clean_no_rejection in Hin. }
      fold new in Hin. rewrite Hnew in Hin. apply in_app_iff in Hin.
      destruct Hin as [Hin|[Hin|[]]].
      { now apply clean_no_rejection in Hin. }
      injection Hin as -> ->.
      exists o, a, b, c, d, rb, en. repeat split; auto.
      * exists before. split; [exact Hnew|exact Hclean].
      * congruence.
Qed.

Lemma first_error_accepted (e : Error) : first_error e [None; None] = e.
Proof. reflexivity. Qed.

(** C1: revaluation is atomic.  In both variants and under every fault
    script, if an update of a bounty row is rejected, then every request
    before it was accepted and the only requests after it are the rollback
    and the closing of the connection (no later row is attempted); [main]
    throws, and throws the error of the update when rollback and closing
    are accepted; the transaction is closed as soon as one of the two is
    accepted; and the committed store is the store before the run, so that
    neither an amount nor the inserted snapshot is committed. *)
Theorem revaluation_is_atomic (v : Variant) (env : Env) (store : Store)
    (script : nat -> option Error) (u : Request) (e : Error) :
  let res := main_of v env (fresh store script) in
  In (u, Some e) (sent (snd res)) ->
  is_update u = true ->
  exists before rollback closing,
    sent (snd res) =
      (before ++ [(u, Some e); (Query ROLLBACK, rollback); (End_, closing)])%list /\
    clean before /\
    fst res = Throw (first_error e [rollback; closing]) /\
    (rollback = None -> closing = None -> fst res = Throw e) /\
    (rollback = None \/ closing = None -> tx (snd res) = None) /\
    committed (snd res) = store.
Proof.
  intros res Hin Hupdate.
  assert (Hdata : is_data u = true)
    by (destruct u as [|[]|]; simpl in *; congruence).
  destruct (rejected_data_request_aborts v env store script u e Hin Hdata)
    as (o & a & b & c & d & rb & en & Hsent & (before & Hnew & Hclean)
        & _ & _ & _ & _ & _ & Hr & Htx & Hcommitted).
  exists ((Connect, None) :: before)%list, rb, en. fold res in Hsent, Hr, Htx, Hcommitted.
  repeat split; auto.
  - rewrite Hsent, Hnew. simpl. now rewrite <- app_assoc.
  - constructor; [reflexivity|assumption].
  - intros -> ->. exact Hr.
Qed.

(** C10: in the schema-qualified variant, if the creation of the
    bookkeeping table is rejected, then the snapshot of the run had been
    inserted before it, the only requests after it are the rollback and the
    closing of the connection, no bounty table is read or written in the
    whole run, [main] throws (the error of the creation when rollback and
    closing are accepted), and the committed store is the store before the
    run: the inserted snapshot is not committed. *)
Theorem ensure_failure_is_fatal (env : Env) (store : Store)
    (script : nat -> option Error) (table : string) (e : Error) :
  let res := Schema.main env (fresh store script) in
  In (Query (CreateTableIfNotExists table), Some e) (sent (snd res)) ->
  exists before rollback closing,
    sent (snd res) =
      (before ++ [(Query (CreateTableIfNotExists table), Some e);
                  (Query ROLLBACK, rollback); (End_, closing)])%list /\
    clean before /\
    (exists p1 p2, In (Query (InsertPrice p1 p2), None) before) /\
    all_of (fun r => negb (is_bounty_access r)) (sent (snd res)) = true /\
    fst res = Throw (first_error e [rollback; closing]) /\
    (rollback = None -> closing = None -> fst res = Throw e) /\
    (rollback = None \/ closing = None -> tx (snd res) = None) /\
    committed (snd res) = store.
Proof.
  intros res Hin.
  destruct (rejected_data_request_aborts SchemaQualified env store script
              _ e Hin eq_refl)
    as (o & a & b & c & d & rb & en & Hsent & (before & Hnew & Hclean)
        & Ha & Hb & Hc & Hd & Hins & Hr & Htx & Hcommitted).
  change (main_of SchemaQualified env (fresh store script)) with res
    in Hsent, Hr, Htx, Hcommitted.
  assert (d = []) as ->.
  { apply (ends_with_other_kind is_closing
             ((Query BEGIN, o) :: a ++ b ++ c) d before
             (Query (CreateTableIfNotExists table), Some e)); auto.
    simpl. rewrite <- !app_assoc. exact Hnew. }
  rewrite app_nil_r in *.
  assert (c = []) as ->.
  { apply (ends_with_other_kind is_bounty_access
             ((Query BEGIN, o) :: a ++ b) c before
             (Query (CreateTableIfNotExists table), Some e)); auto.
    simpl. rewrite <- !app_assoc. exact Hnew. }
  rewrite app_nil_r in *.
  assert (Hinserted : exists p1 p2, In (Query (InsertPrice p1 p2), None) before).
  { destruct Hins as (p1 & p2 & Hp).
    - left. rewrite app_nil_r. intros ->. rewrite app_nil_r in Hnew.
      assert (a = []) as ->.
      { apply (ends_with_other_kind is_price_access
                 [(Query BEGIN, o)] a before
                 (Query (CreateTableIfNotExists table), Some e)); auto. }
      change ([] ++ [(Query BEGIN, o)]
              = before ++ [(Query (CreateTableIfNotExists table), Some e)])%list
        in Hnew.
      apply app_inj_tail in Hnew as [_ Hnew]. discriminate.
    - exists p1, p2.
      assert (Hp' : In (Query (InsertPrice p1 p2), None)
                      (before ++ [(Query (CreateTableIfNotExists table),
                                   Some e)])%list).
      { rewrite <- Hnew. right. apply in_app_iff. now left. }
      apply in_app_iff in Hp' as [Hp'|[Hp'|[]]]; [exact Hp'|discriminate]. }
  exists ((Connect, None) :: before)%list, rb, en.
  split; [rewrite Hsent, Hnew; simpl; now rewrite <- app_assoc|].
  split; [constructor; [reflexivity|assumption]|].
  split; [destruct Hinserted as (p1 & p2 & Hp); exists p1, p2; now right|].
  repeat split; auto.
  - rewrite Hsent. unfold all_of in *. simpl.
    rewrite !forallb_app. simpl. rewrite andb_true_r.
    apply andb_true_intro. split.
    + rewrite forallb_forall in *. intros x Hx. specialize (Ha x Hx).
      destruct (fst x) as [|[]|]; simpl in *; congruence.
    + rewrite forallb_forall in *. intros x Hx. specialize (Hb x Hx).
      destruct (fst x) as [|[]|]; simpl in *; congruence.
  - intros -> ->. exact Hr.
Qed.

(** Once BEGIN is accepted, a failure of [main] is either a failure of the
    [try] block, which is followed by a rollback attempt and leaves the
    committed store as it was, or a failure to close the connection after
    the [try] block completed.  The error thrown is the last one met: the
    error of the [try] block only if the rollback and the closing are
    accepted. *)
Lemma failure_in_transaction_attempts_rollback (v : Variant) (env : Env)
    (store : Store) (script : nat -> option Error) (e : Error) :
  let res := main_of v env (fresh store script) in
  In (Query BEGIN, None) (sent (snd res)) ->
  fst res = Throw e ->
  (exists e0 before rollback closing,
     sent (snd res) =
       (before ++ [(Query ROLLBACK, rollback); (End_, closing)])%list /\
     e = first_error e0 [rollback; closing] /\
     committed (snd res) = store) \/
  (exists before,
     sent (snd res) = (before ++ [(End_, Some e)])%list /\ clean before).
Proof.
  intros res Hbegin Hthrow. subst res.
  destruct (main_runs v env store script)
    as [Hsent _ _|e0 Hsent _ _
       |w o a b c d suffix new Hw Hsent Ha Hb Hc Hd Hins Hend].
  - rewrite Hsent in Hbegin. contradiction.
  - rewrite Hsent in Hbegin. destruct Hbegin as [H|[]]. discriminate.
  - destruct Hend as [en Hclean Hr Htx|e0 en Hnew Hcommitted Hr
                     |e0 rb en Hff Hcommitted Hr Htx].
    + right. rewrite Hr in Hthrow. destruct en as [e1|]; [|discriminate].
      injection Hthrow as ->.
      exists ((Connect, None) :: new)%list. split; [exact Hsent|].
      constructor; [reflexivity|exact Hclean].
    + rewrite Hsent in Hbegin. fold new in Hbegin. rewrite Hnew in Hbegin.
      destruct Hbegin as [H|[H|[H|[]]]]; discriminate.
    + left. rewrite Hr in Hthrow. injection Hthrow as <-.
      exists e0, ((Connect, None) :: new)%list, rb, en.
      split; [exact Hsent|]. split; [reflexivity|congruence].
Qed.

End Atomicity.


(** C8, where the claim fails: the endpoint answers 0 for eth and -5 for
    degen, no snapshot exists yet; the run succeeds and commits a snapshot
    row with these two fields, neither of which is positive. *)
Lemma unchecked_prices_are_inserted :
  let env := {| DATABASE_URL := Some "postgres://db";
                exchange_rates := fun c _ =>
                  match c with
                  | eth => Body (Some "0")
                  | degen => Body (Some "-5")
                  end;
                deployment_id :=
                  Return {| ok := true; status := 200;
                            json := Return (Some "tenant") |} |} in
  let store := {| Sample.Price := []; Sample.Bounties := [];
                  Sample.live_query_tables := false |} in
  let res := Schema.main (rt := Sample.runtime) env
               (fresh (db := Sample.database) store no_fault) in
  fst res = Return 0 /\
  Sample.Price (committed (snd res))
    = [{| eth_usd := "0"; degen_usd := "-5" |}] /\
  positive_finite (Sample.Number "0") = false /\
  positive_finite (Sample.Number "-5") = false.
Proof. vm_compute. repeat split. Qed.

Section NoUpdate.
Context {rt : Runtime} {db : Database}.
Local Arguments verdict : simpl never.



End NoUpdate.

(** ** Strings *)









(** ** The revaluation *)

Section RevaluationLemmas.
Context {rt : Runtime} {db : Database}.
Local Arguments verdict : simpl never.

Lemma revalue_step (update : string -> BountyRow -> Stmt)
    (prices : LatestPrice) (bounty : BountyRow) (rest : list BountyRow)
    (w : World) :
  revalue update prices (bounty :: rest) w =
    match amountSort prices bounty with
    | Throw e => (Throw e, w)
    | Return value =>
        match verdict w with
        | Some e => (Throw e, with_sent (Query (update value bounty)) w)
        | None =>
            revalue update prices rest
              (snd (accept (update value bounty)
                      (with_sent (Query (update value bounty)) w)))
        end
    end.
Proof.
  unfold revalue. simpl for_of. rewrite bind_run, bind_run. unfold lift.
  destruct (amountSort prices bounty) as [value|e]; [|reflexivity].
  rewrite tryCatch_rethrow_last, bind_run.
  destruct (verdict w) as [e|] eqn:Hv.
  - now rewrite (query_control_rejected _ _ _ Hv).
  - now rewrite (query_accepted _ _ Hv).
Qed.



End RevaluationLemmas.

(** ** formatEther is exact *)












Lemma all_digits_value (s : string) (acc : Z) :
  all_digits s = true -> exists v, Sample.digits_value s acc = Some v.
Proof.
  revert acc. induction s as [|c s IH]; intros acc H; simpl in *; [eauto|].
  destruct (Sample.digit c); [now apply IH|discriminate].
Qed.










(** ** The log and the fault script *)

Section ScriptLemmas.
Context {rt : Runtime} {db : Database}.

Lemma follows_script_sent (w w' : World) :
  sent w' = sent w -> rejects w' = rejects w ->
  follows_script w -> follows_script w'.
Proof.
  intros Hs Hr H i x. rewrite Hs, Hr. apply H.
Qed.

Lemma follows_script_with_sent (r : Request) (w : World) :
  follows_script w -> follows_script (with_sent r w).
Proof.
  intros H i x. simpl. intros Hx.
  destruct (Nat.lt_ge_cases i (List.length (sent w))) as [Hlt|Hge].
  - rewrite nth_error_app1 in Hx by exact Hlt. now apply H.
  - rewrite nth_error_app2 in Hx by exact Hge.
    destruct (i - List.length (sent w))%nat as [|k] eqn:Hk; simpl in Hx.
    + injection Hx as <-. simpl. unfold verdict. f_equal. lia.
    + destruct k; discriminate.
Qed.

Lemma accept_keeps (s : Stmt) (w : World) :
  sent (snd (accept s w)) = sent w /\ rejects (snd (accept s w)) = rejects w.
Proof.
  destruct s; unfold accept; try (split; reflexivity);
    destruct (exec _ _) as [store result]; simpl;
    destruct (tx w); split; reflexivity.
Qed.

Lemma keeps_ret {A} (a : A) : keeps_script (ret a).
Proof. intros w H. now split. Qed.

Lemma keeps_throw {A} (e : Error) : keeps_script (@throw _ A e).
Proof. intros w H. now split. Qed.

Lemma keeps_lift {A} (r : Completion A) : keeps_script (lift r).
Proof. intros w H. now split. Qed.

Lemma keeps_throw_if (e : option Error) : keeps_script (throw_if e).
Proof. destruct e; [apply keeps_throw|apply keeps_ret]. Qed.

Lemma keeps_bind {A B} (m : M A) (k : A -> M B) :
  keeps_script m -> (forall a, keeps_script (k a)) -> keeps_script (bind m k).
Proof.
  intros Hm Hk w H. unfold bind. specialize (Hm w H).
  destruct (m w) as [[a|e] w1]; simpl in *; [|exact Hm].
  destruct Hm as [H1 R1]. destruct (Hk a w1 H1) as [H2 R2].
  split; [exact H2|congruence].
Qed.

Lemma keeps_tryCatch {A} (m : M A) : keeps_script m -> keeps_script (tryCatch m).
Proof.
  intros Hm w H. unfold tryCatch. specialize (Hm w H).
  destruct (m w) as [[a|e] w1]; exact Hm.
Qed.

Lemma keeps_query (s : Stmt) : keeps_script (query s).
Proof.
  intros w H. unfold query.
  pose proof (follows_script_with_sent (Query s) w H) as H1.
  destruct (verdict w); [now split|].
  pose proof (accept_keeps s (with_sent (Query s) w)) as [Hs Hr].
  destruct (accept s (with_sent (Query s) w)) as [result w2]. simpl in *.
  split; [|exact Hr]. now apply (follows_script_sent (with_sent (Query s) w)).
Qed.

Lemma keeps_connect : keeps_script connect.
Proof.
  intros w H. unfold connect.
  pose proof (follows_script_with_sent Connect w H) as H1.
  destruct (verdict w); now split.
Qed.

Lemma keeps_end : keeps_script end_.
Proof.
  intros w H. unfold end_.
  pose proof (follows_script_with_sent End_ w H) as H1.
  destruct (verdict w); now split.
Qed.

Lemma keeps_console_log (line : string) : keeps_script (console_log line).
Proof. intros w H. now split. Qed.

Lemma keeps_set_transactionStarted (b : bool) :
  keeps_script (set_transactionStarted b).
Proof. intros w H. now split. Qed.

Lemma keeps_get_transactionStarted : keeps_script get_transactionStarted.
Proof. intros w H. now split. Qed.

Lemma keeps_for_of {A} (xs : list A) (body : A -> M unit) :
  (forall x, keeps_script (body x)) -> keeps_script (for_of xs body).
Proof.
  intros Hbody. induction xs as [|x xs IH]; simpl.
  - apply keeps_ret.
  - apply keeps_bind; auto.
Qed.

Lemma keeps_try_catch_finally {A} (body : M A) (handler : Error -> M A)
    (finalizer : M unit) :
  keeps_script body -> (forall e, keeps_script (handler e)) ->
  keeps_script finalizer ->
  keeps_script (try_catch_finally body handler finalizer).
Proof.
  intros Hb Hh Hf w H. unfold try_catch_finally.
  specialize (Hb w H). destruct (body w) as [[a|e] w1]; simpl in Hb.
  - destruct Hb as [H1 R1]. specialize (Hf w1 H1).
    destruct (finalizer w1) as [[u|e] w2]; simpl in *;
      (split; [apply Hf|]); destruct Hf; congruence.
  - destruct Hb as [H1 R1]. specialize (Hh e w1 H1).
    destruct (handler e w1) as [r w2]; simpl in Hh. destruct Hh as [H2 R2].
    specialize (Hf w2 H2).
    destruct (finalizer w2) as [[u|e'] w3]; simpl in *;
      (split; [apply Hf|]); destruct Hf; congruence.
Qed.

Create HintDb script discriminated.
Hint Resolve keeps_ret keeps_throw keeps_lift keeps_throw_if keeps_query
  keeps_connect keeps_end keeps_console_log keeps_set_transactionStarted
  keeps_get_transactionStarted keeps_tryCatch : script.

Ltac keeps :=
  repeat first
    [ progress auto with script
    | apply keeps_bind; [|intros ?]
    | apply keeps_for_of; intros ?
    | match goal with
      | |- keeps_script (match ?x with _ => _ end) => destruct x
      | |- keeps_script (if ?b then _ else _) => destruct b
      end ].

Lemma keeps_updateLatestPrice (threshold : Z) (env : Env) :
  keeps_script (updateLatestPrice threshold env).
Proof. unfold updateLatestPrice. keeps. Qed.

Lemma keeps_ensureLiveQueryTables (schemaName : string) :
  keeps_script (ensureLiveQueryTables schemaName).
Proof. unfold ensureLiveQueryTables. keeps. Qed.

Lemma keeps_revalue (update : string -> BountyRow -> Stmt)
    (prices : LatestPrice) (bounties : list BountyRow) :
  keeps_script (revalue update prices bounties).
Proof. unfold revalue. keeps. Qed.

Hint Resolve keeps_updateLatestPrice keeps_ensureLiveQueryTables
  keeps_revalue : script.

Lemma keeps_transaction (threshold : Z) (prepare : M unit)
    (revalue : LatestPrice -> M Z) (env : Env) :
  keeps_script prepare -> (forall prices, keeps_script (revalue prices)) ->
  keeps_script (transaction threshold prepare revalue env).
Proof.
  intros Hp Hr. unfold transaction. keeps.
Qed.

Lemma keeps_main (v : Variant) (env : Env) : keeps_script (main_of v env).
Proof.
  destruct v; simpl.
  - unfold Schema.main. keeps.
    apply keeps_try_catch_finally; auto with script.
    + rewrite Schema_main_try_transaction. apply keeps_transaction.
      * apply keeps_ensureLiveQueryTables.
      * intros prices. unfold Schema.updateBountyAmounts. keeps.
    + intros e. unfold Schema.main_catch. keeps.
  - unfold Sidecar.main. keeps.
    apply keeps_try_catch_finally; auto with script.
    + rewrite Sidecar_main_try_transaction. apply keeps_transaction.
      * apply keeps_ret.
      * intros prices. unfold Sidecar.updateBountyAmounts. keeps.
    + intros e. unfold Sidecar.main_catch. keeps.
Qed.

(** Every verdict in the log of a run is the one the fault script gives to
    the request of that number. *)
Lemma log_follows_script (v : Variant) (env : Env) (store : Store)
    (script : nat -> option Error) (i : nat) (x : Entry) :
  nth_error (sent (snd (main_of v env (fresh store script)))) i = Some x ->
  snd x = script i.
Proof.
  intros Hx.
  destruct (keeps_main v env (fresh store script)) as [H R].
  - intros j y Hy. destruct j; discriminate.
  - rewrite (H i x Hx). now rewrite R.
Qed.

End ScriptLemmas.

(** * Further properties *)

(** ** Table names and tenants *)

(** X12: the two table names of a deployment determine its schema name:
    different schema names never give the same bookkeeping table or the
    same bounty table, and a bookkeeping table is never a bounty table. *)
Theorem table_names_determine_the_schema (schema1 schema2 : string) :
  (tableName schema1 = tableName schema2 <-> schema1 = schema2) /\
  (Schema.bountiesTable schema1 = Schema.bountiesTable schema2
     <-> schema1 = schema2) /\
  tableName schema1 <> Schema.bountiesTable schema2.
Proof.
  assert (Hlive : forall s, read_quoted (tableName s)
                    = Some (s, "." ++ quoted "live_query_tables"))
    by (intros s; apply read_quoted_safe; reflexivity).
  assert (Hbounties : forall s, read_quoted (Schema.bountiesTable s)
                        = Some (s, "." ++ quoted "Bounties"))
    by (intros s; apply read_quoted_safe; reflexivity).
  split; [|split].
  - split; [|now intros ->].
    intros H. pose proof (Hlive schema1) as H1. rewrite H, Hlive in H1.
    now injection H1.
  - split; [|now intros ->].
    intros H. pose proof (Hbounties schema1) as H1.
    rewrite H, Hbounties in H1. now injection H1.
  - intros H. pose proof (Hlive schema1) as H1. rewrite H, Hbounties in H1.
    discriminate.
Qed.

(** ** The thresholds of the two variants *)

Lemma above_ten_above_five (x : number) :
  (x > of_Z 10)%js = true -> (x > of_Z 5)%js = true.
Proof.
  change (of_Z 10) with (S754_finite false 5629499534213120 (-49)).
  change (of_Z 5) with (S754_finite false 5629499534213120 (-50)).
  unfold gt, SFltb.
  destruct x as [s|s| |s m e]; cbn -[Z.compare Pos.compare_cont];
    try discriminate.
  - now destruct s.
  - destruct s; [discriminate|].
    destruct (Z.compare_spec (-49) e) as [<-|Hlt|Hgt].
    + intros _. reflexivity.
    + intros _. destruct (Z.compare_spec (-50) e); [lia|reflexivity|lia].
    + discriminate.
Qed.

Section Thresholds.
Context {rt : Runtime}.

(** X16: on the same snapshot and the same fetched prices, the sidecar
    variant (threshold 5) decides to update whenever the schema-qualified
    variant (threshold 10) does. *)
Theorem sidecar_updates_whenever_schema_variant_does
    (latestPrice : option PriceRow) (currentPriceEth currentPriceDegen : number) :
  shouldUpdatePrice (threshold_of SchemaQualified) latestPrice
    currentPriceEth currentPriceDegen = Return true ->
  shouldUpdatePrice (threshold_of SidecarTable) latestPrice
    currentPriceEth currentPriceDegen = Return true.
Proof.
  unfold shouldUpdatePrice, threshold_of, Schema.threshold, Sidecar.threshold.
  destruct latestPrice as [row|]; [|auto].
  destruct (percentChange currentPriceEth _) as [changeEth|e]; [|auto].
  destruct (changeEth > of_Z 10)%js eqn:Heth.
  - intros _. now rewrite (above_ten_above_five _ Heth).
  - destruct (percentChange currentPriceDegen _) as [changeDegen|e];
      [|discriminate].
    intros H. injection H as H.
    destruct (changeEth > of_Z 5)%js; [reflexivity|].
    now rewrite (above_ten_above_five _ H).
Qed.

Lemma sub_self (s : bool) (m : positive) (e : Z) :
  (S754_finite s m e - S754_finite s m e)%js = S754_zero false.
Proof.
  unfold sub, SFsub. rewrite Z.sub_diag. reflexivity.
Qed.

(** The percent change of a price that did not move is zero. *)
Lemma percentChange_unchanged (x : number) :
  positive_finite x = true ->
  percentChange x x = Return (S754_zero false).
Proof.
  intros H. unfold percentChange. rewrite (positive_finite_nonzero x H).
  destruct x as [s|s| |[|] m e]; try discriminate.
  rewrite sub_self. reflexivity.
Qed.

(** X15: prices that did not move never trigger an update: when the two
    current prices are the numbers of the latest snapshot, positive and
    finite, the decision of either variant is false. *)
Theorem unchanged_prices_do_not_update (v : Variant) (row : PriceRow) :
  positive_finite (Number (eth_usd row)) = true ->
  positive_finite (Number (degen_usd row)) = true ->
  shouldUpdatePrice (threshold_of v) (Some row)
    (Number (eth_usd row)) (Number (degen_usd row)) = Return false.
Proof.
  intros Heth Hdegen. unfold shouldUpdatePrice.
  rewrite (percentChange_unchanged _ Heth), (percentChange_unchanged _ Hdegen).
  destruct v; reflexivity.
Qed.

End Thresholds.

Lemma sidecar_updates_witness :
  shouldUpdatePrice (rt := Sample.runtime) (threshold_of SidecarTable)
    (Some {| eth_usd := "2000"; degen_usd := "0.01" |})
    (Sample.Number "2300") (Sample.Number "0.01") = Return true.
Proof.
  apply (sidecar_updates_whenever_schema_variant_does (rt := Sample.runtime)).
  vm_compute. reflexivity.
Defined.

Lemma unchanged_prices_witness :
  shouldUpdatePrice (rt := Sample.runtime) (threshold_of SidecarTable)
    (Some {| eth_usd := "2000"; degen_usd := "0.01" |})
    (Sample.Number "2000") (Sample.Number "0.01") = Return false.
Proof.
  apply (unchanged_prices_do_not_update (rt := Sample.runtime) SidecarTable
           {| eth_usd := "2000"; degen_usd := "0.01" |}); reflexivity.
Defined.

(** ** What fetchPrice logs *)

Section FetchLog.
Context {rt : Runtime}.

Ltac fetch_attempt responses k :=
  match goal with
  | |- context [attempt (responses k) ?n] =>
      let e := fresh "e" in let He := fresh "He" in
      destruct (attempt (responses k) n) as [?|e] eqn:He; simpl
  end.

(** X14: [fetchPrice] passes to [console.error] the error of every failed
    attempt but the last one it makes, in order: a missing price is logged
    with the number of attempts left at that point.  The error of the
    fifth failed attempt is not logged, and what is thrown then is
    [Can not fetch price], whatever the causes were. *)
Theorem fetchPrice_logs_every_failure_but_the_last
    (responses : nat -> Response) :
  let f := fetchPrice responses in
  Forall2 (fun j e => attempt (responses j) (5 - Z.of_nat j) = Throw e)
    (seq 0 (requests f - 1)) (logged f) /\
  List.length (logged f) = (requests f - 1)%nat /\
  (forall j, (j < requests f - 1)%nat -> responses j = Body None ->
     nth_error (logged f) j =
       Some ("USD price not found… attempts left: "
             ++ string_of_Z (5 - Z.of_nat j))) /\
  (forall e, outcome f = Throw e ->
     e = "Can not fetch price" /\ List.length (logged f) = 4%nat).
Proof.
  assert (Hnth : forall n a l,
    Forall2 (fun j e => attempt (responses j) (5 - Z.of_nat j) = Throw e)
      (seq a n) l ->
    forall j, (j < n)%nat -> responses (a + j)%nat = Body None ->
      nth_error l j = Some ("USD price not found… attempts left: "
                            ++ string_of_Z (5 - Z.of_nat (a + j)))).
  { induction n as [|n IH]; intros a l H j Hj Hbody; [lia|].
    simpl in H. inversion H as [|x y xs ys Hxy Hrest]; subst.
    destruct j as [|j]; simpl.
    - rewrite Nat.add_0_r in *. rewrite Hbody in Hxy. simpl in Hxy.
      now injection Hxy as <-.
    - replace (a + S j)%nat with (S a + j)%nat in * by lia.
      apply (IH (S a)); auto. lia. }
  cbv zeta.
  assert (H : Forall2
    (fun j e => attempt (responses j) (5 - Z.of_nat j) = Throw e)
    (seq 0 (requests (fetchPrice responses) - 1))
    (logged (fetchPrice responses)) /\
    forall e, outcome (fetchPrice responses) = Throw e ->
      e = "Can not fetch price" /\
      List.length (logged (fetchPrice responses)) = 4%nat).
  { unfold fetchPrice, fetchPrice_fuel. simpl.
    fetch_attempt responses 0%nat;
      [split; [constructor|discriminate]|].
    fetch_attempt responses 1%nat;
      [split; [repeat constructor; assumption|discriminate]|].
    fetch_attempt responses 2%nat;
      [split; [repeat constructor; assumption|discriminate]|].
    fetch_attempt responses 3%nat;
      [split; [repeat constructor; assumption|discriminate]|].
    fetch_attempt responses 4%nat;
      [split; [repeat constructor; assumption|discriminate]|].
    split; [repeat constructor; assumption|].
    intros e' H. injection H as <-. now split. }
  destruct H as [Hlog Hthrow].
  split; [exact Hlog|]. split; [|split].
  - apply Forall2_length in Hlog. now rewrite length_seq in Hlog.
  - intros j Hj Hbody. apply (Hnth _ 0%nat _ Hlog j Hj Hbody).
  - exact Hthrow.
Qed.

End FetchLog.

(** ** Before the transaction *)

Lemma fetchDeploymentId_not_empty (env : Env) :
  fetchDeploymentId env <> Return EmptyString.
Proof.
  unfold fetchDeploymentId.
  destruct (deployment_id env) as [response|e]; [|discriminate].
  destruct (ok response); simpl; [|discriminate].
  destruct (json response) as [[[|c s]|]|e]; discriminate.
Qed.

(** [fetchDeploymentId] returns only a non-empty [deploymentId] of a
    response whose status is ok.  A response that is not ok is refused
    with its status in the message, whatever its body holds, and an empty
    [deploymentId] counts as a missing one. *)
Theorem fetchDeploymentId_result (env : Env) :
  (forall schemaName,
     fetchDeploymentId env = Return schemaName <->
     schemaName <> EmptyString /\
     exists response,
       deployment_id env = Return response /\ ok response = true /\
       json response = Return (Some schemaName)) /\
  (forall response,
     deployment_id env = Return response -> ok response = false ->
     fetchDeploymentId env =
       Throw ("Deployment ID fetch failed: " ++ string_of_Z (status response))) /\
  (forall response,
     deployment_id env = Return response -> ok response = true ->
     json response = Return None \/ json response = Return (Some EmptyString) ->
     fetchDeploymentId env = Throw "Deployment ID missing from response").
Proof.
  unfold fetchDeploymentId. split; [|split].
  - intros schemaName. split.
    + destruct (deployment_id env) as [response|e]; [|discriminate].
      destruct (ok response) eqn:Hok; simpl; [|discriminate].
      destruct (json response) as [[[|c s]|]|e] eqn:Hjson; try discriminate.
      intros H. injection H as <-. split; [discriminate|].
      exists response. auto.
    + intros (Hne & response & -> & -> & ->). simpl.
      destruct schemaName; [congruence|reflexivity].
  - intros response -> ->. reflexivity.
  - intros response -> -> [->| ->]; reflexivity.
Qed.

Section BeforeTheTransaction.
Context {rt : Runtime} {db : Database}.

(** X10: without its configuration the job does not reach the database.
    With DATABASE_URL missing or empty, [main] throws
    [DATABASE_URL is required]; in the schema-qualified variant, when the
    deployment id cannot be fetched, [main] throws the error of that
    fetch; in both cases no request is sent and nothing is logged.  The
    sidecar variant never consults the deployment id.  Whenever a run sends
    a request, the configuration was complete and the deployment id in use
    is not empty. *)
Theorem job_without_configuration_sends_nothing (v : Variant) (env : Env)
    (store : Store) (script : nat -> option Error) :
  let res := main_of v env (fresh store script) in
  (DATABASE_URL env = None \/ DATABASE_URL env = Some EmptyString ->
   res = (Throw "DATABASE_URL is required", fresh store script)) /\
  (forall c url e,
     v = SchemaQualified ->
     DATABASE_URL env = Some (String c url) ->
     fetchDeploymentId env = Throw e ->
     res = (Throw e, fresh store script)) /\
  (forall deployment,
     Sidecar.main env (fresh store script) =
     Sidecar.main {| DATABASE_URL := DATABASE_URL env;
                     exchange_rates := exchange_rates env;
                     deployment_id := deployment |} (fresh store script)) /\
  (sent (snd res) <> [] ->
   configured v env /\
   (v = SchemaQualified ->
    exists c s, fetchDeploymentId env = Return (String c s))).
Proof.
  cbv zeta. split; [|split; [|split]].
  - intros [H|H]; destruct v; simpl; unfold Schema.main, Sidecar.main;
      rewrite H; reflexivity.
  - intros c url e -> Hurl Hid. simpl. unfold Schema.main.
    rewrite Hurl, Hid. reflexivity.
  - intros deployment. reflexivity.
  - intros Hsent.
    assert (Hurl : exists c url, DATABASE_URL env = Some (String c url)).
    { destruct (DATABASE_URL env) as [[|c url]|] eqn:Hurl; eauto;
        exfalso; apply Hsent; destruct v; simpl;
        unfold Schema.main, Sidecar.main; rewrite Hurl; reflexivity. }
    assert (Hid : v = SchemaQualified ->
                  exists c s, fetchDeploymentId env = Return (String c s)).
    { intros ->. destruct Hurl as (c & url & Hurl).
      destruct (fetchDeploymentId env) as [schemaName|e] eqn:Hid.
      - destruct schemaName as [|c' s]; [|eauto].
        exfalso. exact (fetchDeploymentId_not_empty env Hid).
      - exfalso. apply Hsent. simpl. unfold Schema.main.
        rewrite Hurl, Hid. reflexivity. }
    split; [split; [exact Hurl|]|exact Hid].
    intros Hv. destruct (Hid Hv) as (c & s & H). eauto.
Qed.

End BeforeTheTransaction.

(** ** The run of a configured job *)

Section Configured.
Context {rt : Runtime} {db : Database}.

(** A configured [main] is the connection followed by the [try] block of
    its variant. *)
Lemma main_connected (v : Variant) (env : Env) (w : World) :
  configured v env ->
  main_of v env w =
  connected (transaction (threshold_of v) (prepare_of v (schema_of v env))
               (revalue_of v (schema_of v env)) env) w.
Proof.
  intros [(c & url & Hurl) Hid]. destruct v; simpl.
  - destruct (Hid eq_refl) as [schemaName Hschema].
    unfold Schema.main, schema_of. rewrite Hurl, bind_run. unfold lift.
    rewrite Hschema. reflexivity.
  - unfold Sidecar.main. rewrite Hurl. reflexivity.
Qed.

(** X8: a refused connection ends the run at once: [main] throws the error
    of the connection; no other request is sent, neither a BEGIN nor the
    closing of the connection, which is outside the [try] block. *)
Theorem refused_connection_is_not_closed (v : Variant) (env : Env)
    (store : Store) (script : nat -> option Error) (e : Error) :
  configured v env ->
  script 0%nat = Some e ->
  let res := main_of v env (fresh store script) in
  fst res = Throw e /\
  sent (snd res) = [(Connect, Some e)] /\
  committed (snd res) = store /\
  tx (snd res) = None /\
  console (snd res) = [].
Proof.
  intros Hconf Hconnect res. subst res. rewrite (main_connected _ _ _ Hconf).
  unfold connected, bind, tryCatch, connect, verdict. cbn.
  rewrite Hconnect. cbn. rewrite Hconnect. repeat split; reflexivity.
Qed.

(** X7: when BEGIN is rejected, no transaction was started: the [catch]
    block sends no ROLLBACK, the connection is closed, and [main] throws
    the error of BEGIN, or the error of the closing if that is rejected
    too.  Nothing else is sent. *)
Theorem rejected_begin_sends_no_rollback (v : Variant) (env : Env)
    (store : Store) (script : nat -> option Error) (e : Error) :
  configured v env ->
  script 0%nat = None ->
  script 1%nat = Some e ->
  let res := main_of v env (fresh store script) in
  sent (snd res) =
    [(Connect, None); (Query BEGIN, Some e); (End_, script 2%nat)] /\
  fst res = Throw (match script 2%nat with Some e' => e' | None => e end) /\
  committed (snd res) = store /\
  console (snd res) = [].
Proof.
  intros Hconf Hconnect Hbegin res. subst res.
  rewrite (main_connected _ _ _ Hconf).
  unfold connected, try_catch_finally, transaction.
  unfold bind, tryCatch, connect, query, verdict. cbn.
  rewrite Hconnect. cbn. rewrite Hbegin. cbn.
  unfold end_, verdict. cbn.
  destruct (script 2%nat) as [e2|] eqn:Hend; cbn;
    rewrite ?Hconnect, ?Hbegin, ?Hend; repeat split; reflexivity.
Qed.

Lemma all_of_weaken (P Q : Request -> bool) (new : list Entry) :
  (forall r, P r = true -> Q r = true) ->
  all_of P new = true -> all_of Q new = true.
Proof.
  unfold all_of. rewrite !forallb_forall. intros H HP x Hx. auto.
Qed.

Lemma all_of_app (P : Request -> bool) (xs ys : list Entry) :
  all_of P (xs ++ ys) = all_of P xs && all_of P ys.
Proof. apply forallb_app. Qed.

(** X9: a connection that was accepted is closed exactly once, by the last
    request of the run, on every path: whether the [try] block returns or
    throws, and whether the rollback of the [catch] block is accepted or
    not. *)
Theorem accepted_connection_is_closed_last (v : Variant) (env : Env)
    (store : Store) (script : nat -> option Error) :
  let res := main_of v env (fresh store script) in
  In (Connect, None) (sent (snd res)) ->
  exists before closing,
    sent (snd res) = (before ++ [(End_, closing)])%list /\
    all_of (fun r => negb (is_end r)) before = true /\
    hd_error before = Some (Connect, None).
Proof.
  intros res Hconnect. subst res.
  destruct (main_runs v env store script)
    as [Hsent _ _|e0 Hsent _ _
       |w o a b c d suffix new Hw Hsent Ha Hb Hc Hd Hins Hend].
  - rewrite Hsent in Hconnect. contradiction.
  - rewrite Hsent in Hconnect. destruct Hconnect as [H|[]]. discriminate.
  - assert (Hnew : all_of (fun r => negb (is_end r)) new = true).
    { assert (Ha' := all_of_weaken is_price_access (fun r => negb (is_end r)) a
                       (fun r => ltac:(destruct r as [|[]|]; simpl; congruence)) Ha).
      assert (Hb' := all_of_weaken (prepares v) (fun r => negb (is_end r)) b
                       (fun r => ltac:(destruct r as [|[]|]; destruct v; simpl; congruence)) Hb).
      assert (Hc' := all_of_weaken is_bounty_access (fun r => negb (is_end r)) c
                       (fun r => ltac:(destruct r as [|[]|]; simpl; congruence)) Hc).
      assert (Hd' := all_of_weaken is_closing (fun r => negb (is_end r)) d
                       (fun r => ltac:(destruct r as [|[]|]; simpl; congruence)) Hd).
      subst new.
      change (all_of (fun r => negb (is_end r)) (a ++ b ++ c ++ d) = true).
      now rewrite !all_of_app, Ha', Hb', Hc', Hd'. }
    destruct Hend as [en Hclean Hr Htx|e0 en Hnew0 Hcommitted Hr
                     |e0 rb en Hff Hcommitted Hr Htx].
    + exists ((Connect, None) :: new)%list, en. split; [exact Hsent|].
      split; [exact Hnew|reflexivity].
    + exists ((Connect, None) :: new)%list, en. split; [exact Hsent|].
      split; [exact Hnew|reflexivity].
    + clearbody new.
      exists ((Connect, None) :: new ++ [(Query ROLLBACK, rb)])%list, en.
      split; [rewrite Hsent; simpl; now rewrite <- app_assoc|].
      split; [|reflexivity].
      change (all_of (fun r => negb (is_end r))
                (new ++ [(Query ROLLBACK, rb)]) = true).
      rewrite all_of_app, Hnew. reflexivity.
Qed.

(** X6: a rejected COMMIT commits nothing.  Every request before it was
    accepted, among them the INSERT of the snapshot; the only requests
    after it are the rollback of the [catch] block and the closing of the
    connection; [main] throws, and the committed store is the store before
    the run. *)
Theorem rejected_commit_is_rolled_back (v : Variant) (env : Env)
    (store : Store) (script : nat -> option Error) (e : Error) :
  let res := main_of v env (fresh store script) in
  In (Query COMMIT, Some e) (sent (snd res)) ->
  exists before rollback closing,
    sent (snd res) =
      (before ++ [(Query COMMIT, Some e); (Query ROLLBACK, rollback);
                  (End_, closing)])%list /\
    clean before /\
    (exists p1 p2, In (Query (InsertPrice p1 p2), None) before) /\
    fst res = Throw (first_error e [rollback; closing]) /\
    (rollback = None \/ closing = None -> tx (snd res) = None) /\
    committed (snd res) = store.
Proof.
  intros res Hin. subst res.
  destruct (main_runs v env store script)
    as [Hsent _ _|e0 Hsent _ _
       |w o a b c d suffix new Hw Hsent Ha Hb Hc Hd Hins Hend].
  - rewrite Hsent in Hin. contradiction.
  - rewrite Hsent in Hin. destruct Hin as [Hin|[]]. discriminate.
  - rewrite Hsent in Hin.
    destruct Hin as [Hin|Hin]; [discriminate|].
    apply in_app_iff in Hin.
    destruct Hend as [en Hclean Hr Htx|e0 en Hnew Hcommitted Hr
                     |e0 rb en Hff Hcommitted Hr Htx].
    + destruct Hin as [Hin|[Hin|[]]]; [|discriminate].
      now apply clean_no_rejection in Hin.
    + destruct Hin as [Hin|[Hin|[]]]; [|discriminate].
      rewrite Hnew in Hin. destruct Hin as [Hin|[]]. discriminate.
    + destruct Hin as [Hin|[Hin|[Hin|[]]]]; try discriminate.
      simpl in Hff. destruct Hff as [Hclean|(before & q & Hnew & Hclean)].
      { now apply clean_no_rejection in Hin. }
      pose proof Hin as Hin0.
      fold new in Hin. rewrite Hnew in Hin. apply in_app_iff in Hin.
      destruct Hin as [Hin|[Hin|[]]].
      { now apply clean_no_rejection in Hin. }
      injection Hin as -> ->.
      assert (Hd_in : In (Query COMMIT, Some e) d).
      { destruct Hin0 as [H|H]; [discriminate|].
        apply in_app_iff in H as [H|H];
          [apply (all_of_In _ _ _ Ha) in H; discriminate|].
        apply in_app_iff in H as [H|H];
          [apply (all_of_In _ _ _ Hb) in H; destruct v; discriminate|].
        apply in_app_iff in H as [H|H];
          [apply (all_of_In _ _ _ Hc) in H; discriminate|exact H]. }
      destruct Hins as (p1 & p2 & Hp); [right; eauto|].
      exists ((Connect, None) :: before)%list, rb, en.
      split; [rewrite Hsent; fold new; rewrite Hnew; simpl;
              now rewrite <- app_assoc|].
      split; [constructor; [reflexivity|exact Hclean]|].
      split.
      { exists p1, p2. right.
        assert (Hp' : In (Query (InsertPrice p1 p2), None)
                        (before ++ [(Query COMMIT, Some e)])%list).
        { rewrite <- Hnew. right. apply in_app_iff. now left. }
        apply in_app_iff in Hp' as [Hp'|[Hp'|[]]]; [exact Hp'|discriminate]. }
      repeat split; auto. congruence.
Qed.

End Configured.

(** ** What a run commits *)

Section Commit.
Context {rt : Runtime} {db : Database}.

(** After an accepted connection [main] runs its [try] block. *)
Lemma connected_accepted (body : M Z) (store : Store)
    (script : nat -> option Error) :
  script 0%nat = None ->
  connected body (fresh store script) =
  try_catch_finally body Schema.main_catch end_
    {| committed := store; tx := None; sent := [(Connect, None)];
       rejects := script; console := [];
       transactionStarted := false |}.
Proof.
  intros Hconnect.
  unfold connected, bind, tryCatch, connect, throw_if, set_transactionStarted,
    verdict.
  cbn -[try_catch_finally]. rewrite Hconnect. cbn -[try_catch_finally].
  rewrite Hconnect. reflexivity.
Qed.

Local Arguments verdict : simpl never.

(** When the [try] block returns, it returns 0 after an accepted ROLLBACK,
    which leaves the committed store as it was, or after an accepted
    COMMIT, which follows an accepted INSERT of the snapshot; every
    request it sent was accepted. *)
Lemma transaction_returns (threshold : Z) (prepare : M unit)
    (revalue : LatestPrice -> M Z) (env : Env) (Q : Request -> bool) :
  data_op Q prepare ->
  (forall prices, data_op is_bounty_access (revalue prices)) ->
  forall (w w' : World) (z : Z),
    transaction threshold prepare revalue env w = (Return z, w') ->
    z = 0 /\ tx w' = None /\
    exists before closing,
      sent w' = (sent w ++ (Query BEGIN, None) :: before
                 ++ [(Query closing, None)])%list /\
      clean before /\
      (closing = ROLLBACK /\ committed w' = committed w \/
       closing = COMMIT /\
       exists p1 p2, In (Query (InsertPrice p1 p2), None) before).
Proof.
  intros Hprepare Hrevalue w w' z.
  unfold transaction. rewrite tryCatch_rethrow, bind_run.
  destruct (verdict w) as [e|] eqn:Hbegin.
  { rewrite (query_control_rejected _ _ _ Hbegin). discriminate. }
  rewrite (query_accepted _ _ Hbegin). simpl.
  rewrite bind_run. simpl.
  set (w2 := {| committed := committed w |}).
  assert (Hw2 : sent w2 = (sent w ++ [(Query BEGIN, None)])%list)
    by (simpl; now rewrite Hbegin).
  assert (Htx2 : tx w2 = Some (current (with_sent (Query BEGIN) w)))
    by reflexivity.
  assert (Hc2 : committed w2 = committed w) by reflexivity.
  clearbody w2.
  rewrite bind_run.
  destruct (updateLatestPrice_footprint threshold env w2) as [new1 F1].
  destruct (updateLatestPrice threshold env w2) as [[updated|e] w3] eqn:Hulp;
    destruct F1 as [S1 K1 R1 T1 C1 X1 FF1]; simpl in *;
    destruct (X1 _ Htx2) as [Xc1 Xt1]; [|discriminate].
  destruct (didUpdate updated) eqn:HdidUpdate; cbn [negb].
  2:
  { rewrite tryCatch_rethrow, bind_run.
    destruct (verdict w3) as [e|] eqn:Hrollback.
    - rewrite (query_control_rejected _ _ _ Hrollback). discriminate.
    - rewrite (query_accepted _ _ Hrollback). simpl.
      intros H. injection H as <- <-. simpl.
      split; [reflexivity|]. split; [reflexivity|].
      exists new1, ROLLBACK. rewrite Hrollback, S1, Hw2.
      split; [now rewrite <- !app_assoc|]. split; [assumption|].
      left. split; [reflexivity|congruence]. }
  destruct (updateLatestPrice_inserts _ _ _ _ _ Hulp HdidUpdate)
    as (p1 & p2 & Hins).
  rewrite S1 in Hins. apply app_inv_head in Hins.
  rewrite bind_run.
  destruct (Hprepare w3) as [new2 F2].
  destruct (prepare w3) as [[[]|e] w4];
    destruct F2 as [S2 K2 R2 T2 C2 X2 FF2]; simpl in *; [|discriminate].
  rewrite bind_run.
  destruct (Hrevalue (prices updated) w4) as [new3 F3].
  destruct (revalue (prices updated) w4) as [[updatedCount|e] w5];
    destruct F3 as [S3 K3 R3 T3 C3 X3 FF3]; simpl in *; [|discriminate].
  rewrite tryCatch_rethrow, bind_run.
  destruct (verdict w5) as [e|] eqn:Hcommit.
  - rewrite (query_control_rejected _ _ _ Hcommit). discriminate.
  - rewrite (query_accepted _ _ Hcommit). simpl.
    intros H. injection H as <- <-. simpl.
    split; [reflexivity|]. split; [reflexivity|].
    exists (new1 ++ new2 ++ new3)%list, COMMIT.
    rewrite Hcommit, S3, S2, S1, Hw2.
    split; [now rewrite <- !app_assoc|].
    split; [repeat apply clean_app; assumption|].
    right. split; [reflexivity|]. exists p1, p2.
    apply in_app_iff. left. rewrite Hins. right. now left.
Qed.

(** The [catch] and [finally] blocks leave the committed store alone. *)
Lemma try_catch_finally_committed (body : M Z) (w : World) :
  committed (snd (try_catch_finally body Schema.main_catch end_ w))
  = committed (snd (body w)).
Proof.
  unfold try_catch_finally.
  destruct (body w) as [[z|e] w1]; simpl.
  - unfold end_. destruct (verdict w1); reflexivity.
  - unfold Schema.main_catch. rewrite bind_run. simpl.
    destruct (transactionStarted w1).
    + rewrite !bind_run. unfold query.
      destruct (verdict w1) as [e1|]; simpl.
      * unfold end_. destruct (verdict _); reflexivity.
      * unfold end_. destruct (verdict _); reflexivity.
    + cbn [bind fst snd ret throw]. unfold end_.
      destruct (verdict w1); reflexivity.
Qed.

(** How a connected run whose [try] block returns ends. *)
Lemma connected_returns (body : M Z) (store : Store)
    (script : nat -> option Error) :
  let w1 := {| committed := store; tx := None; sent := [(Connect, None)];
               rejects := script; console := [];
               transactionStarted := false |} in
  script 0%nat = None ->
  forall (z : Z) (w' : World),
    body w1 = (Return z, w') ->
    let res := connected body (fresh store script) in
    sent (snd res) = (sent w' ++ [(End_, verdict w')])%list /\
    fst res = match verdict w' with
              | None => Return z
              | Some e => Throw e
              end /\
    (verdict w' = None -> tx (snd res) = None) /\
    console (snd res) = console w'.
Proof.
  intros w1 Hconnect z w' Hbody res. subst res.
  rewrite (connected_accepted _ _ _ Hconnect).
  unfold try_catch_finally. fold w1. rewrite Hbody. unfold end_.
  destruct (verdict w') as [e|] eqn:Hv; cbn; rewrite ?Hv;
    repeat split; auto; try discriminate.
Qed.

(** How a run ends when [main] returns, and what a run commits. *)
Lemma main_outcome (v : Variant) (env : Env) (store : Store)
    (script : nat -> option Error) :
  let res := main_of v env (fresh store script) in
  (forall z, fst res = Return z ->
     z = 0 /\ tx (snd res) = None /\
     exists before closing,
       sent (snd res) =
         ((Connect, None) :: (Query BEGIN, None) :: before
          ++ [(Query closing, None); (End_, None)])%list /\
       clean before /\
       (closing = ROLLBACK /\ committed (snd res) = store \/
        closing = COMMIT /\
        exists p1 p2, In (Query (InsertPrice p1 p2), None) before)) /\
  (committed (snd res) = store \/
   exists before closing,
     sent (snd res) =
       ((Connect, None) :: (Query BEGIN, None) :: before
        ++ [(Query COMMIT, None); (End_, closing)])%list /\
     clean before /\
     (exists p1 p2, In (Query (InsertPrice p1 p2), None) before) /\
     fst res = match closing with
               | None => Return 0
               | Some e => Throw e
               end).
Proof.
  intros res.
  assert (Hfail : forall e, res = (Throw e, fresh store script) ->
    (forall z, fst res = Return z ->
       z = 0 /\ tx (snd res) = None /\
       exists before closing,
         sent (snd res) =
           ((Connect, None) :: (Query BEGIN, None) :: before
            ++ [(Query closing, None); (End_, None)])%list /\
         clean before /\
         (closing = ROLLBACK /\ committed (snd res) = store \/
          closing = COMMIT /\
          exists p1 p2, In (Query (InsertPrice p1 p2), None) before)) /\
    (committed (snd res) = store \/
     exists before closing,
       sent (snd res) =
         ((Connect, None) :: (Query BEGIN, None) :: before
          ++ [(Query COMMIT, None); (End_, closing)])%list /\
       clean before /\
       (exists p1 p2, In (Query (InsertPrice p1 p2), None) before) /\
       fst res = match closing with
                 | None => Return 0
                 | Some e => Throw e
                 end)).
  { intros e ->. split; [discriminate|]. left. reflexivity. }
  assert (Hconf : configured v env \/ exists e, res = (Throw e, fresh store script)).
  { subst res. unfold configured.
    destruct v; cbn [main_of]; unfold Schema.main, Sidecar.main.
    - destruct (DATABASE_URL env) as [[|c url]|];
        [right; eexists; reflexivity| |right; eexists; reflexivity].
      rewrite bind_run. unfold lift.
      destruct (fetchDeploymentId env) as [schemaName|e];
        [|right; eexists; reflexivity].
      left. split; eauto.
    - destruct (DATABASE_URL env) as [[|c url]|];
        [right; eexists; reflexivity| |right; eexists; reflexivity].
      left. split; [eauto|discriminate]. }
  destruct Hconf as [Hconf|[e He]]; [|exact (Hfail e He)].
  clear Hfail.
  set (body := transaction (threshold_of v) (prepare_of v (schema_of v env))
                 (revalue_of v (schema_of v env)) env).
  assert (Hres : res = connected body (fresh store script))
    by (subst res; now apply main_connected).
  assert (Hprepare : data_op (prepares v) (prepare_of v (schema_of v env))).
  { destruct v; simpl.
    - apply ensureLiveQueryTables_footprint.
    - apply data_op_ret. }
  assert (Hrevalue : forall prices,
            data_op is_bounty_access (revalue_of v (schema_of v env) prices)).
  { intros prices. destruct v; simpl.
    - apply Schema_updateBountyAmounts_footprint.
    - apply Sidecar_updateBountyAmounts_footprint. }
  destruct (script 0%nat) as [e0|] eqn:Hconnect.
  { assert (H : res = (Throw e0, with_sent Connect (fresh store script))).
    { rewrite Hres. unfold connected, bind, tryCatch, connect, verdict.
      cbn. rewrite Hconnect. reflexivity. }
    rewrite H. split; [discriminate|]. left. reflexivity. }
  set (w1 := {| committed := store; tx := None; sent := [(Connect, None)];
                rejects := script; console := [];
                transactionStarted := false |}).
  assert (Hcommitted : committed (snd res) = committed (snd (body w1))).
  { rewrite Hres, (connected_accepted _ _ _ Hconnect).
    apply try_catch_finally_committed. }
  destruct (body w1) as [[z|e] w'] eqn:Hbody.
  - destruct (transaction_returns _ _ _ _ _ Hprepare Hrevalue _ _ _ Hbody)
      as (-> & Htx & before & closing & Hsent & Hclean & Hcases).
    destruct (connected_returns body store script Hconnect 0 w' Hbody)
      as (Hs & Hr & Ht & _).
    rewrite <- Hres in Hs, Hr, Ht. simpl in Hcommitted, Hsent.
    split.
    + intros z Hz. rewrite Hr in Hz.
      destruct (verdict w') as [e|]; [discriminate|]. injection Hz as <-.
      split; [reflexivity|]. split; [now apply Ht|].
      exists before, closing. rewrite Hs, Hsent.
      split; [simpl; now rewrite <- app_assoc|]. split; [exact Hclean|].
      destruct Hcases as [[-> Hc]|[-> Hp]]; [left|right]; split; auto.
      rewrite Hcommitted, Hc. reflexivity.
    + destruct Hcases as [[-> Hc]|[-> Hp]];
        [left; rewrite Hcommitted, Hc; reflexivity|].
      right. exists before, (verdict w'). rewrite Hs, Hsent.
      split; [simpl; now rewrite <- app_assoc|]. split; [exact Hclean|].
      split; [exact Hp|]. rewrite Hr. now destruct (verdict w').
  - assert (Hthrow : (forall z, fst res <> Return z) /\ committed w' = store).
    { destruct (transaction_spec (threshold_of v) _ _ env (prepares v)
                  (prepares_data v) Hprepare Hrevalue w1) as [new Hnew].
      fold body in Hnew. destruct Hnew as [_ _ _ _ Hend].
      rewrite Hbody in Hend. simpl in Hend. destruct Hend as [Hc _].
      split; [|exact Hc]. intros z.
      rewrite Hres, (connected_accepted _ _ _ Hconnect).
      unfold try_catch_finally. fold w1. rewrite Hbody.
      destruct (Schema.main_catch e w') as [[z1|e1] w2] eqn:Hcatch.
      - exfalso. revert Hcatch. unfold Schema.main_catch.
        rewrite bind_run. simpl.
        destruct (transactionStarted w').
        + rewrite !bind_run. unfold query.
          destruct (verdict w'); simpl; discriminate.
        + cbn [bind fst snd ret throw]. discriminate.
      - destruct (end_ w2) as [[[]|e2] w3]; simpl; discriminate. }
    destruct Hthrow as [Hne Hc]. simpl in Hcommitted.
    split.
    + intros z Hz. now apply Hne in Hz.
    + left. rewrite Hcommitted. exact Hc.
Qed.

End Commit.

(** ** A run in which everything is accepted *)

Section Accepted.
Context {rt : Runtime} {db : Database}.
Local Arguments verdict : simpl never.

Lemma verdict_no_fault (w : World) : rejects w = no_fault -> verdict w = None.
Proof. unfold verdict. now intros ->. Qed.

Lemma after_accepted_trans (ss1 ss2 : list Stmt) (w w1 w2 : World) :
  after_accepted ss1 w w1 -> after_accepted ss2 w1 w2 ->
  after_accepted (ss1 ++ ss2) w w2.
Proof.
  intros (Hc1 & (s & Hs & Ht1) & Hsent1 & Hr1 & Hl1 & Hst1)
         (Hc2 & (s1 & Hs1 & Ht2) & Hsent2 & Hr2 & Hl2 & Hst2).
  repeat split; try congruence.
  - exists s. split; [exact Hs|]. rewrite Ht2. f_equal.
    unfold exec_all. rewrite fold_left_app.
    rewrite Ht1 in Hs1. now injection Hs1 as <-.
  - rewrite Hsent2, Hsent1, !map_app. now rewrite <- app_assoc.
Qed.

Lemma query_in_transaction (q : Stmt) (w : World) (s : Store) :
  is_data (Query q) = true ->
  tx w = Some s ->
  rejects w = no_fault ->
  exists w',
    query q w = (Return (snd (exec q s)), w') /\ after_accepted [q] w w'.
Proof.
  intros Hdata Htx Hrejects.
  pose proof (verdict_no_fault w Hrejects) as Hv.
  rewrite (query_accepted _ _ Hv).
  destruct q; try discriminate; unfold accept; cbn; unfold current; cbn;
    rewrite Htx; destruct (exec _ s) as [store result] eqn:Hexec; cbn;
    (eexists; split; [reflexivity|]); unfold after_accepted, exec_all; cbn;
    rewrite ?Hv, ?Htx, ?Hexec; repeat split;
    exists s; cbn; rewrite ?Hexec; split; reflexivity.
Qed.

Lemma revalue_accepted (update : string -> BountyRow -> Stmt)
    (prices : LatestPrice) (bounties : list BountyRow) (values : list string) :
  (forall value bounty, is_update (Query (update value bounty)) = true) ->
  Forall2 (fun bounty value => amountSort prices bounty = Return value)
    bounties values ->
  forall (w : World) (s : Store),
    tx w = Some s -> rejects w = no_fault ->
    exists w',
      revalue update prices bounties w = (Return tt, w') /\
      after_accepted (updates update values bounties) w w'.
Proof.
  intros Hupdate Hvalues.
  induction Hvalues as [|bounty value bounties values Hvalue Hrest IH];
    intros w s Htx Hrejects.
  - exists w. split; [reflexivity|]. unfold after_accepted, updates. simpl.
    rewrite app_nil_r. repeat split. eauto.
  - assert (Hdata : is_data (Query (update value bounty)) = true).
    { specialize (Hupdate value bounty).
      destruct (update value bounty); simpl in *; congruence. }
    destruct (query_in_transaction _ w s Hdata Htx Hrejects)
      as (w1 & Hquery & Hafter).
    pose proof (verdict_no_fault w Hrejects) as Hv.
    rewrite revalue_step, Hvalue, Hv.
    rewrite (query_accepted _ _ Hv) in Hquery. injection Hquery as _ Hw1.
    rewrite Hw1.
    destruct Hafter as (Hc1 & (s0 & Hs0 & Ht1) & Hsent1 & Hr1 & Hl1 & Hst1).
    destruct (IH w1 _ Ht1) as (w2 & Hrun & Hafter2); [congruence|].
    exists w2. split; [exact Hrun|].
    apply (after_accepted_trans [update value bounty]
             (updates update values bounties) w w1 w2); [|exact Hafter2].
    repeat split; eauto.
Qed.

Lemma revalue_of_accepted (v : Variant) (schemaName : string)
    (prices : LatestPrice) (values : list string) (w : World) (s : Store) :
  tx w = Some s -> rejects w = no_fault ->
  let selected := bounties_of v schemaName s in
  Forall2 (fun bounty value => amountSort prices bounty = Return value)
    (rows selected) values ->
  exists w',
    revalue_of v schemaName prices w =
      (Return (match rowCount selected with Some n => n | None => 0 end), w') /\
    after_accepted
      (select_of v schemaName
       :: updates (update_of v schemaName) values (rows selected)) w w'.
Proof.
  intros Htx Hrejects selected Hvalues.
  assert (Hloop : forall update w1,
    (forall value bounty, is_update (Query (update value bounty)) = true) ->
    after_accepted [select_of v schemaName] w w1 ->
    exists w',
      bind (revalue update prices (rows selected))
        (fun _ => ret (match rowCount selected with
                       | Some n => n
                       | None => 0
                       end)) w1 =
        (Return (match rowCount selected with Some n => n | None => 0 end), w') /\
      after_accepted
        (select_of v schemaName :: updates update values (rows selected)) w w').
  { intros update w1 Hupdate Hafter1.
    pose proof Hafter1 as (Hc1 & (s0 & Hs0 & Ht1) & Hsent1 & Hr1 & Hl1 & Hst1).
    destruct (revalue_accepted update prices _ values Hupdate Hvalues w1 _ Ht1)
      as (w2 & Hrun & Hafter2); [congruence|].
    exists w2. rewrite bind_run, Hrun. split; [reflexivity|].
    exact (after_accepted_trans [select_of v schemaName] _ w w1 w2
             Hafter1 Hafter2). }
  destruct v; cbn [revalue_of select_of update_of bounties_of] in *.
  - unfold Schema.updateBountyAmounts. rewrite tryCatch_rethrow, bind_run.
    destruct (query_in_transaction
                (SelectBounties (Schema.bountiesTable schemaName))
                w s eq_refl Htx Hrejects) as (w1 & Hquery & Hafter1).
    rewrite Hquery.
    apply (Hloop (Schema.update schemaName) w1); [reflexivity|exact Hafter1].
  - unfold Sidecar.updateBountyAmounts. rewrite tryCatch_rethrow, bind_run.
    destruct (query_in_transaction
                (SelectBountiesExtra Sidecar.bountiesTable)
                w s eq_refl Htx Hrejects) as (w1 & Hquery & Hafter1).
    rewrite Hquery.
    apply (Hloop Sidecar.update w1); [reflexivity|exact Hafter1].
Qed.

Lemma prepare_of_accepted (v : Variant) (schemaName : string) (w : World)
    (s : Store) :
  tx w = Some s -> rejects w = no_fault ->
  exists w',
    prepare_of v schemaName w = (Return tt, w') /\
    after_accepted (prepare_stmts v schemaName) w w'.
Proof.
  intros Htx Hrejects. destruct v; cbn [prepare_of prepare_stmts].
  - unfold ensureLiveQueryTables. rewrite tryCatch_rethrow_last, bind_run.
    destruct (query_in_transaction (CreateTableIfNotExists (tableName schemaName))
                w s eq_refl Htx Hrejects) as (w1 & -> & Hafter).
    exists w1. split; [reflexivity|exact Hafter].
  - exists w. split; [reflexivity|]. unfold after_accepted. simpl.
    rewrite app_nil_r. repeat split. eauto.
Qed.

Lemma updateLatestPrice_accepted (threshold : Z) (env : Env) (w : World)
    (s : Store) (currentPriceEth currentPriceDegen : number) :
  tx w = Some s -> rejects w = no_fault ->
  fetched env = Return (currentPriceEth, currentPriceDegen) ->
  shouldUpdatePrice threshold (latest s) currentPriceEth currentPriceDegen
    = Return true ->
  exists w',
    updateLatestPrice threshold env w =
      (Return {| prices := {| ethUsd := currentPriceEth;
                              degenUsd := currentPriceDegen |};
                 didUpdate := true |}, w') /\
    after_accepted
      [SelectLatestPrice;
       InsertPrice (toString currentPriceEth) (toString currentPriceDegen)]
      w w'.
Proof.
  intros Htx Hrejects Hfetched Hdecision.
  pose proof (verdict_no_fault w Hrejects) as Hv.
  destruct (query_in_transaction SelectLatestPrice w s eq_refl Htx Hrejects)
    as (w1 & Hselect & Hafter1).
  rewrite (query_accepted _ _ Hv) in Hselect.
  set (a1 := accept SelectLatestPrice (with_sent (Query SelectLatestPrice) w))
    in Hselect.
  assert (Hrows : fst a1 = snd (exec SelectLatestPrice s)) by congruence.
  assert (Hw1 : snd a1 = w1) by congruence.
  clear Hselect.
  pose proof Hafter1 as (Hc1 & (s0 & Hs0 & Ht1) & Hsent1 & Hr1 & Hl1 & Hst1).
  assert (Hrejects1 : rejects w1 = no_fault) by congruence.
  pose proof (verdict_no_fault w1 Hrejects1) as Hv1.
  destruct (query_in_transaction
              (InsertPrice (toString currentPriceEth)
                           (toString currentPriceDegen))
              w1 _ eq_refl Ht1 Hrejects1) as (w2 & Hinsert & Hafter2).
  rewrite (query_accepted _ _ Hv1) in Hinsert.
  set (a2 := accept (InsertPrice _ _) (with_sent _ w1)) in Hinsert.
  assert (Hw2 : snd a2 = w2) by congruence.
  clear Hinsert.
  rewrite updateLatestPrice_run, Hv. cbv zeta. fold a1.
  rewrite Hw1, Hrows, Hfetched. unfold latest in Hdecision.
  rewrite Hdecision, Hv1. fold a2. rewrite Hw2.
  exists w2. split; [reflexivity|].
  exact (after_accepted_trans [SelectLatestPrice] [InsertPrice _ _]
           w w1 w2 Hafter1 Hafter2).
Qed.

End Accepted.

Section AcceptedRun.
Context {rt : Runtime} {db : Database}.
Local Arguments verdict : simpl never.

(** The [try] block when the decision is true and the server accepts every
    request, on rows whose amounts all convert. *)
Lemma transaction_accepted (v : Variant) (env : Env) (w : World)
    (currentPriceEth currentPriceDegen : number) (values : list string) :
  tx w = None -> rejects w = no_fault ->
  fetched env = Return (currentPriceEth, currentPriceDegen) ->
  shouldUpdatePrice (threshold_of v) (latest (committed w))
    currentPriceEth currentPriceDegen = Return true ->
  let schemaName := schema_of v env in
  let prices := {| ethUsd := currentPriceEth;
                   degenUsd := currentPriceDegen |} in
  let before :=
    ([SelectLatestPrice;
      InsertPrice (toString currentPriceEth) (toString currentPriceDegen)]
     ++ prepare_stmts v schemaName)%list in
  let selected := bounties_of v schemaName (exec_all before (committed w)) in
  Forall2 (fun bounty value => amountSort prices bounty = Return value)
    (rows selected) values ->
  let statements :=
    (before ++ select_of v schemaName
            :: updates (update_of v schemaName) values (rows selected))%list in
  exists w',
    transaction (threshold_of v) (prepare_of v schemaName)
      (revalue_of v schemaName) env w = (Return 0, w') /\
    committed w' = exec_all statements (committed w) /\
    tx w' = None /\
    sent w' = (sent w ++ map accepted
                 (Query BEGIN :: map Query statements ++ [Query COMMIT]))%list /\
    rejects w' = no_fault /\
    console w' =
      (console w ++
       [("updated amount_sort for "
         ++ string_of_Z (match rowCount selected with
                         | Some n => n
                         | None => 0
                         end)
         ++ " bounties")%string])%list.
Proof.
  intros Htx Hrejects Hfetched Hdecision schemaName fetchedPrices before
         selected Hvalues statements.
  pose proof (verdict_no_fault w Hrejects) as Hbegin.
  unfold transaction. rewrite tryCatch_rethrow, bind_run.
  rewrite (query_accepted _ _ Hbegin). simpl.
  rewrite bind_run. simpl.
  set (w2 := {| committed := committed w |}).
  assert (Hw2 : sent w2 = (sent w ++ [(Query BEGIN, None)])%list)
    by (simpl; now rewrite Hbegin).
  assert (Htx2 : tx w2 = Some (committed w))
    by (simpl; unfold current; simpl; now rewrite Htx).
  assert (Hc2 : committed w2 = committed w) by reflexivity.
  assert (Hr2 : rejects w2 = no_fault) by exact Hrejects.
  assert (Hl2 : console w2 = console w) by reflexivity.
  clearbody w2.
  destruct (updateLatestPrice_accepted (threshold_of v) env w2 _ _ _
              Htx2 Hr2 Hfetched Hdecision) as (w3 & Hupdate & Hafter3).
  rewrite bind_run, Hupdate. cbn [didUpdate negb prices].
  pose proof Hafter3 as (_ & (s2 & Hs2 & Ht3) & _ & Hr3 & _).
  destruct (prepare_of_accepted v schemaName w3 _ Ht3) as (w4 & Hprepare & Hafter4);
    [congruence|].
  rewrite bind_run, Hprepare.
  pose proof (after_accepted_trans _ _ _ _ _ Hafter3 Hafter4) as Hafter34.
  fold before in Hafter34.
  pose proof Hafter34 as (_ & (s2' & Hs2' & Ht4) & _ & Hr4 & _).
  rewrite Htx2 in Hs2'. injection Hs2' as <-.
  destruct (revalue_of_accepted v schemaName fetchedPrices values w4 _ Ht4)
    as (w5 & Hrevalue & Hafter5); [congruence|exact Hvalues|].
  subst fetchedPrices. rewrite bind_run, Hrevalue.
  pose proof (after_accepted_trans _ _ _ _ _ Hafter34 Hafter5) as Hafter.
  fold selected in Hafter. fold statements in Hafter.
  destruct Hafter as (Hc5 & (s2' & Hs2' & Ht5) & Hsent5 & Hr5 & Hl5 & _).
  rewrite Htx2 in Hs2'. injection Hs2' as <-.
  assert (Hcommit : verdict w5 = None)
    by (apply verdict_no_fault; congruence).
  rewrite tryCatch_rethrow, bind_run.
  rewrite (query_accepted _ _ Hcommit). simpl.
  eexists. split; [reflexivity|]. simpl.
  unfold current. simpl. rewrite Ht5, Hcommit, Hsent5, Hw2, Hl5, Hl2.
  repeat split; try congruence.
  rewrite map_app. simpl. now rewrite <- !app_assoc.
Qed.

End AcceptedRun.

Section WholeRuns.
Context {rt : Runtime} {db : Database}.
Local Arguments verdict : simpl never.

(** The run in which everything goes well: what it returns, sends, commits
    and logs. *)
Lemma accepted_run (v : Variant) (env : Env)
    (store : Store) (currentPriceEth currentPriceDegen : number)
    (values : list string) :
  configured v env ->
  fetched env = Return (currentPriceEth, currentPriceDegen) ->
  shouldUpdatePrice (threshold_of v) (latest store)
    currentPriceEth currentPriceDegen = Return true ->
  let schemaName := schema_of v env in
  let prices := {| ethUsd := currentPriceEth;
                   degenUsd := currentPriceDegen |} in
  let before :=
    ([SelectLatestPrice;
      InsertPrice (toString currentPriceEth) (toString currentPriceDegen)]
     ++ prepare_stmts v schemaName)%list in
  let selected := bounties_of v schemaName (exec_all before store) in
  Forall2 (fun bounty value => amountSort prices bounty = Return value)
    (rows selected) values ->
  let statements :=
    (before ++ select_of v schemaName
            :: updates (update_of v schemaName) values (rows selected))%list in
  let res := main_of v env (fresh store no_fault) in
  fst res = Return 0 /\
  sent (snd res) =
    map accepted (Connect :: Query BEGIN :: map Query statements
                  ++ [Query COMMIT; End_])%list /\
  committed (snd res) = exec_all statements store /\
  tx (snd res) = None /\
  console (snd res) =
    [("updated amount_sort for "
      ++ string_of_Z (match rowCount selected with Some n => n | None => 0 end)
      ++ " bounties")%string].
Proof.
  intros Hconf Hfetched Hdecision schemaName prices before selected Hvalues
         statements res.
  subst res statements selected before prices schemaName.
  rewrite (main_connected _ _ _ Hconf).
  rewrite connected_accepted by reflexivity.
  match goal with
  | |- context [try_catch_finally _ _ _ ?w] => set (w1 := w)
  end.
  destruct (transaction_accepted v env w1 _ _ values eq_refl eq_refl
              Hfetched Hdecision Hvalues)
    as (w' & Hrun & Hcommitted & Htx & Hsent & Hrejects & Hconsole).
  unfold try_catch_finally. rewrite Hrun. unfold end_.
  rewrite (verdict_no_fault w' Hrejects). simpl.
  rewrite (verdict_no_fault w' Hrejects).
  rewrite Hsent, Hcommitted, Hconsole. repeat split.
  simpl. f_equal. f_equal. rewrite !map_app. simpl.
  now rewrite <- app_assoc.
Qed.

(** X1: the run in which everything goes well.  With a complete
    configuration, a decision to update, amounts that all convert and a
    server that accepts every request, [main] returns 0.  Its requests are
    the connection, BEGIN, the SELECT of the latest snapshot, the INSERT of
    the fetched prices, the creation of the bookkeeping table (in the
    schema-qualified variant), the SELECT of the bounties, one UPDATE per
    row returned, in order, each with the amount of its row at the fetched
    prices, COMMIT and the closing of the connection.  The committed store
    is the store these statements give, executed in order; the count
    logged is the row count of the SELECT. *)
Theorem accepted_update_revalues_every_bounty (v : Variant) (env : Env)
    (store : Store) (currentPriceEth currentPriceDegen : number)
    (values : list string) :
  configured v env ->
  fetched env = Return (currentPriceEth, currentPriceDegen) ->
  shouldUpdatePrice (threshold_of v) (latest store)
    currentPriceEth currentPriceDegen = Return true ->
  let schemaName := schema_of v env in
  let prices := {| ethUsd := currentPriceEth;
                   degenUsd := currentPriceDegen |} in
  let before :=
    ([SelectLatestPrice;
      InsertPrice (toString currentPriceEth) (toString currentPriceDegen)]
     ++ prepare_stmts v schemaName)%list in
  let selected := bounties_of v schemaName (exec_all before store) in
  Forall2 (fun bounty value => amountSort prices bounty = Return value)
    (rows selected) values ->
  let statements :=
    (before ++ select_of v schemaName
            :: updates (update_of v schemaName) values (rows selected))%list in
  let res := main_of v env (fresh store no_fault) in
  fst res = Return 0 /\
  sent (snd res) =
    map accepted (Connect :: Query BEGIN :: map Query statements
                  ++ [Query COMMIT; End_])%list /\
  committed (snd res) = exec_all statements store /\
  tx (snd res) = None /\
  console (snd res) =
    [("updated amount_sort for "
      ++ string_of_Z (match rowCount selected with Some n => n | None => 0 end)
      ++ " bounties")%string].
Proof.
  exact (accepted_run v env store currentPriceEth currentPriceDegen values).
Qed.

(** X2: a run changes the committed store only by an accepted COMMIT.  In
    every run of either variant, under every fault script, the committed
    store after the run is the store before it, unless the run sent a
    COMMIT that was accepted; then every request before the COMMIT was
    accepted, the snapshot was inserted among them, the COMMIT is followed
    only by the closing of the connection, and [main] returns 0 or throws
    the error of the closing. *)
Theorem database_changes_only_by_an_accepted_commit (v : Variant) (env : Env)
    (store : Store) (script : nat -> option Error) :
  let res := main_of v env (fresh store script) in
  committed (snd res) = store \/
  exists before closing,
    sent (snd res) =
      ((Connect, None) :: (Query BEGIN, None) :: before
       ++ [(Query COMMIT, None); (End_, closing)])%list /\
    clean before /\
    (exists p1 p2, In (Query (InsertPrice p1 p2), None) before) /\
    fst res = match closing with
              | None => Return 0
              | Some e => Throw e
              end.
Proof.
  intros res. exact (proj2 (main_outcome v env store script)).
Qed.

(** X13: what the exit code says.  The script exits with 0 exactly when
    [main] returns, and with 1, after reporting the error, when [main]
    throws; run from another module it does nothing.  An exit code of 0
    means that the server accepted every request of the run, that the run
    ended with an accepted ROLLBACK (and then the committed store is
    unchanged) or an accepted COMMIT, followed by the accepted closing of
    the connection, and that the last line logged is
    [finished with code 0]. *)
Theorem exit_code_zero_means_a_clean_run (v : Variant) (env : Env)
    (store : Store) (faults : nat -> option Error) :
  let res := main_of v env (fresh store faults) in
  let out := entry_point v true env (fresh store faults) in
  entry_point v false env (fresh store faults) = (None, fresh store faults) /\
  (fst res = Return 0 <->
     fst out = Some {| code := 0; reported := None |}) /\
  (forall e, fst res = Throw e <->
     fst out = Some {| code := 1; reported := Some e |}) /\
  (fst out = Some {| code := 0; reported := None |} ->
   clean (sent (snd out)) /\
   tx (snd out) = None /\
   (exists before closing,
      sent (snd out) =
        ((Connect, None) :: (Query BEGIN, None) :: before
         ++ [(Query closing, None); (End_, None)])%list /\
      (closing = ROLLBACK /\ committed (snd out) = store \/
       closing = COMMIT /\
       exists p1 p2, In (Query (InsertPrice p1 p2), None) before)) /\
   exists lines, console (snd out) = (lines ++ ["finished with code 0"])%list).
Proof.
  intros res out. split; [reflexivity|].
  assert (Hout : out = match res with
                       | (Return _, w') =>
                           (Some {| code := 0; reported := None |},
                            snd (console_log "finished with code 0" w'))
                       | (Throw e, w') =>
                           (Some {| code := 1; reported := Some e |}, w')
                       end) by reflexivity.
  destruct (main_outcome v env store faults) as [Hreturns _].
  fold res in Hreturns. clearbody out res.
  destruct res as [[z|e] w']; subst out; simpl in *.
  - split; [|split].
    + split; [reflexivity|]. intros _.
      now destruct (Hreturns z eq_refl) as [-> _].
    + intros e. split; discriminate.
    + intros _. destruct (Hreturns z eq_refl)
        as (-> & Htx & before & closing & Hsent & Hclean & Hcases).
      split; [|split; [exact Htx|split]].
      * rewrite Hsent. repeat constructor; simpl; auto.
        apply clean_app; [exact Hclean|repeat constructor].
      * exists before, closing. split; [exact Hsent|exact Hcases].
      * exists (console w'). reflexivity.
  - split; [|split].
    + split; discriminate.
    + intros e0. split; intros H; injection H as <-; reflexivity.
    + discriminate.
Qed.

End WholeRuns.

(** ** The amounts a run leaves in the store *)

Section Stored.
Context {rt : Runtime}.






End Stored.

Section AmountSort.
Context {rt : Runtime}.


End AmountSort.

Section AmountSortClaim.
Context {rt : Runtime}.


End AmountSortClaim.

(** ** Edge cases of the percent change *)


Section NotANumber.
Context {rt : Runtime}.

(** X17: a current price that is not a number never triggers an update.
    Its percent change is not a number and exceeds no threshold: with
    such an eth price the decision is the comparison of the degen change
    alone, and with two such prices the decision is false, provided the
    previous prices are not zero. *)
Theorem price_that_is_not_a_number_never_triggers (threshold : Z)
    (row : PriceRow) (currentPriceDegen : number) :
  (Number (eth_usd row) === of_Z 0)%js = false ->
  percentChange NaN (Number (eth_usd row)) = Return NaN /\
  (forall limit, (NaN > limit)%js = false) /\
  shouldUpdatePrice threshold (Some row) NaN currentPriceDegen =
    match percentChange currentPriceDegen (Number (degen_usd row)) with
    | Throw e => Throw e
    | Return changeDegen => Return (changeDegen > of_Z threshold)%js
    end /\
  ((Number (degen_usd row) === of_Z 0)%js = false ->
   shouldUpdatePrice threshold (Some row) NaN NaN = Return false).
Proof.
  intros Heth.
  assert (Hnan : forall previous,
            (previous === of_Z 0)%js = false ->
            percentChange NaN previous = Return NaN).
  { intros previous H. unfold percentChange. rewrite H. reflexivity. }
  assert (Hgt : forall limit, (NaN > limit)%js = false)
    by (intros [s|s| |s m e]; reflexivity).
  split; [now apply Hnan|]. split; [exact Hgt|].
  unfold shouldUpdatePrice. rewrite (Hnan _ Heth), Hgt.
  split; [reflexivity|].
  intros Hdegen. now rewrite (Hnan _ Hdegen), Hgt.
Qed.

End NotANumber.


Lemma not_a_number_witness :
  percentChange (Sample.Number "abc") (Sample.Number "2000") = Return NaN /\
  (forall limit, (NaN > limit)%js = false) /\
  shouldUpdatePrice (rt := Sample.runtime) 10
    (Some {| eth_usd := "2000"; degen_usd := "0.01" |})
    (Sample.Number "abc") (Sample.Number "0.02") =
    match percentChange (Sample.Number "0.02") (Sample.Number "0.01") with
    | Throw e => Throw e
    | Return changeDegen => Return (changeDegen > of_Z 10)%js
    end /\
  ((Sample.Number "0.01" === of_Z 0)%js = false ->
   shouldUpdatePrice (rt := Sample.runtime) 10
     (Some {| eth_usd := "2000"; degen_usd := "0.01" |})
     (Sample.Number "abc") (Sample.Number "abc") = Return false).
Proof.
  apply (price_that_is_not_a_number_never_triggers (rt := Sample.runtime) 10
           {| eth_usd := "2000"; degen_usd := "0.01" |} (Sample.Number "0.02")).
  vm_compute. reflexivity.
Defined.

(** ** The error a run reports *)

Section Reported.
Context {rt : Runtime} {db : Database}.

Lemma last_rejection_app (xs ys : list Entry) :
  last_rejection (xs ++ ys) =
    match last_rejection ys with
    | Some e => Some e
    | None => last_rejection xs
    end.
Proof.
  induction xs as [|[r o] xs IH]; simpl.
  - now destruct (last_rejection ys).
  - rewrite IH. now destruct (last_rejection ys).
Qed.

Lemma last_rejection_clean (xs : list Entry) :
  clean xs -> last_rejection xs = None.
Proof.
  induction 1 as [|[r o] xs Hx _ IH]; simpl; [reflexivity|].
  simpl in Hx. now rewrite IH, Hx.
Qed.

Lemma last_rejection_fail_fast (e : Error) (new : list Entry) :
  fail_fast (@Throw Z e) new ->
  last_rejection new = None \/ last_rejection new = Some e.
Proof.
  intros [Hclean|(pre & q & -> & Hclean)].
  - left. now apply last_rejection_clean.
  - right. rewrite last_rejection_app. reflexivity.
Qed.

(** X3: [main] reports the last rejection.  In every run in which the
    server rejected a request, [main] throws the error of the last request
    it rejected: a rejected rollback or a rejected closing of the
    connection replaces the error that caused it. *)
Theorem main_throws_the_last_rejection (v : Variant) (env : Env)
    (store : Store) (script : nat -> option Error) (e : Error) :
  let res := main_of v env (fresh store script) in
  last_rejection (sent (snd res)) = Some e ->
  fst res = Throw e.
Proof.
  intros res Hlast. subst res.
  destruct (main_runs v env store script)
    as [Hsent _ _|e0 Hsent Hthrow _
       |w o a b c d suffix new Hw Hsent Ha Hb Hc Hd Hins Hend].
  - rewrite Hsent in Hlast. discriminate.
  - rewrite Hsent in Hlast. simpl in Hlast. congruence.
  - clearbody new. rewrite Hsent in Hlast.
    change ((Connect, @None Error) :: new ++ suffix)%list
      with ([(Connect, @None Error)] ++ new ++ suffix)%list in Hlast.
    rewrite !last_rejection_app in Hlast. simpl in Hlast.
    destruct Hend as [en Hclean Hr Htx|e0 en Hnew Hcommitted Hr
                     |e0 rb en Hff Hcommitted Hr Htx]; simpl in Hlast.
    + rewrite (last_rejection_clean _ Hclean) in Hlast.
      destruct en; [|discriminate]. congruence.
    + rewrite Hnew in Hlast. simpl in Hlast. rewrite Hr.
      destruct en; simpl; congruence.
    + rewrite Hr.
      destruct en as [e2|]; [simpl; congruence|].
      destruct rb as [e1|]; [simpl; congruence|].
      destruct (last_rejection_fail_fast _ _ Hff) as [H|H];
        rewrite H in Hlast; simpl; congruence.
Qed.

End Reported.

Section Undecided.
Context {rt : Runtime} {db : Database}.

(** The run whose decision fails: what it sends, throws and leaves. *)
Lemma undecided_run (v : Variant) (env : Env)
    (store : Store) (script : nat -> option Error) (e : Error) :
  reaches_decision v env script ->
  decision (threshold_of v) env store = Throw e ->
  let res := main_of v env (fresh store script) in
  sent (snd res) =
    [(Connect, None); (Query BEGIN, None); (Query SelectLatestPrice, None);
     (Query ROLLBACK, script 3%nat); (End_, script 4%nat)] /\
  fst res = Throw (first_error e [script 3%nat; script 4%nat]) /\
  committed (snd res) = store /\
  console (snd res) = [].
Proof.
  intros (Hurl & Hid & Hconnect & Hbegin & Hselect) Hdecision res. subst res.
  rewrite (main_connected v env _ (conj Hurl Hid)).
  rewrite (connected_accepted _ _ _ Hconnect).
  unfold decision, fetched, latest in Hdecision.
  unfold try_catch_finally, transaction, updateLatestPrice.
  unfold bind, tryCatch, query, verdict, lift. cbn.
  rewrite Hbegin. cbn. rewrite Hselect. cbn.
  destruct (exec SelectLatestPrice store) as [store1 [rows0 count]]. cbn in *.
  destruct (Promise_all2 _ _) as [[currentPriceEth currentPriceDegen]|e1];
    cbn; [rewrite Hdecision|injection Hdecision as ->]; cbn;
    unfold Schema.main_catch, bind, get_transactionStarted, query, throw, end_;
    cbn;
    destruct (script 3%nat) as [e3|] eqn:H3;
    destruct (script 4%nat) as [e4|] eqn:H4;
    do 6 (unfold verdict; cbn; rewrite ?Hbegin, ?Hselect, ?H3, ?H4; cbn);
    repeat split; auto.
Qed.

(** X5: a run that cannot decide is rolled back.  When the decision
    fails, because a price cannot be fetched or a previous price is zero,
    the run sends nothing after the SELECT of the latest snapshot but the
    rollback and the closing of the connection; [main] throws the error of
    the decision (or of a rejected rollback or closing), nothing is
    inserted, [console.log] writes no line and the committed store is
    unchanged.  The run is not silent on [console.error]: a price fetch
    that fails throws [Can not fetch price] after passing the errors of its
    first four attempts to [console.error]. *)
Theorem undecided_run_is_rolled_back (v : Variant) (env : Env)
    (store : Store) (script : nat -> option Error) (e : Error) :
  reaches_decision v env script ->
  decision (threshold_of v) env store = Throw e ->
  let res := main_of v env (fresh store script) in
  sent (snd res) =
    [(Connect, None); (Query BEGIN, None); (Query SelectLatestPrice, None);
     (Query ROLLBACK, script 3%nat); (End_, script 4%nat)] /\
  fst res = Throw (first_error e [script 3%nat; script 4%nat]) /\
  committed (snd res) = store /\
  console (snd res) = [] /\
  (forall c,
     is_throw (outcome (fetchPrice (exchange_rates env c))) = true ->
     outcome (fetchPrice (exchange_rates env c)) = Throw "Can not fetch price" /\
     List.length (logged (fetchPrice (exchange_rates env c))) = 4%nat).
Proof.
  intros Hreaches Hdecision res.
  destruct (undecided_run v env store script e Hreaches Hdecision)
    as (Hsent & Hres & Hcommitted & Hconsole).
  fold res in Hsent, Hres, Hcommitted, Hconsole.
  split; [exact Hsent|]. split; [exact Hres|]. split; [exact Hcommitted|].
  split; [exact Hconsole|].
  intros c Hthrow.
  destruct (fetchPrice_cases (exchange_rates env c))
    as [(k & price & _ & _ & _ & Hout & _)|(_ & Hout & _ & Hlen)].
  - rewrite Hout in Hthrow. discriminate.
  - split; assumption.
Qed.

End Undecided.

(** ** An amount that does not convert *)

Section Unconvertible.
Context {rt : Runtime} {db : Database}.
Local Arguments verdict : simpl never.

Lemma revalue_unconvertible (update : string -> BountyRow -> Stmt)
    (prices : LatestPrice) (good : list BountyRow) (values : list string)
    (bad : BountyRow) (rest : list BountyRow) (err : Error) :
  (forall value bounty, is_update (Query (update value bounty)) = true) ->
  Forall2 (fun bounty value => amountSort prices bounty = Return value)
    good values ->
  amountSort prices bad = Throw err ->
  forall (w : World) (s : Store),
    tx w = Some s -> rejects w = no_fault ->
    exists w',
      revalue update prices (good ++ bad :: rest) w = (@Throw unit err, w') /\
      after_accepted (updates update values good) w w'.
Proof.
  intros Hupdate Hvalues Hbad.
  induction Hvalues as [|bounty value good values Hvalue Hrest IH];
    intros w s Htx Hrejects.
  - exists w. simpl app. rewrite revalue_step, Hbad. split; [reflexivity|].
    unfold after_accepted, updates. simpl.
    rewrite app_nil_r. repeat split. eauto.
  - assert (Hdata : is_data (Query (update value bounty)) = true).
    { specialize (Hupdate value bounty).
      destruct (update value bounty); simpl in *; congruence. }
    destruct (query_in_transaction _ w s Hdata Htx Hrejects)
      as (w1 & Hquery & Hafter).
    pose proof (verdict_no_fault w Hrejects) as Hv.
    simpl app. rewrite revalue_step, Hvalue, Hv.
    rewrite (query_accepted _ _ Hv) in Hquery.
    set (a1 := accept _ _) in *.
    assert (Hw1 : snd a1 = w1) by congruence.
    rewrite Hw1.
    destruct Hafter as (Hc1 & (s0 & Hs0 & Ht1) & Hsent1 & Hr1 & Hl1 & Hst1).
    destruct (IH w1 _ Ht1) as (w2 & Hrun & Hafter2); [congruence|].
    exists w2. split; [exact Hrun|].
    apply (after_accepted_trans [update value bounty]
             (updates update values good) w w1 w2); [|exact Hafter2].
    repeat split; eauto.
Qed.

Lemma revalue_of_unconvertible (v : Variant) (schemaName : string)
    (prices : LatestPrice) (good : list BountyRow) (values : list string)
    (bad : BountyRow) (rest : list BountyRow) (err : Error)
    (w : World) (s : Store) :
  tx w = Some s -> rejects w = no_fault ->
  rows (bounties_of v schemaName s) = (good ++ bad :: rest)%list ->
  Forall2 (fun bounty value => amountSort prices bounty = Return value)
    good values ->
  amountSort prices bad = Throw err ->
  exists w',
    revalue_of v schemaName prices w = (Throw err, w') /\
    after_accepted
      (select_of v schemaName :: updates (update_of v schemaName) values good)
      w w'.
Proof.
  intros Htx Hrejects Hrows Hvalues Hbad.
  assert (Hloop : forall update w1 count bounties,
    bounties = (good ++ bad :: rest)%list ->
    (forall value bounty, is_update (Query (update value bounty)) = true) ->
    after_accepted [select_of v schemaName] w w1 ->
    exists w',
      bind (revalue update prices bounties)
        (fun _ => ret count) w1 = (@Throw Z err, w') /\
      after_accepted
        (select_of v schemaName :: updates update values good) w w').
  { intros update w1 count bounties -> Hupdate Hafter1.
    pose proof Hafter1 as (Hc1 & (s0 & Hs0 & Ht1) & Hsent1 & Hr1 & Hl1 & Hst1).
    destruct (revalue_unconvertible update prices good values bad rest err
                Hupdate Hvalues Hbad w1 _ Ht1)
      as (w2 & Hrun & Hafter2); [congruence|].
    exists w2. rewrite bind_run, Hrun. split; [reflexivity|].
    exact (after_accepted_trans [select_of v schemaName] _ w w1 w2
             Hafter1 Hafter2). }
  destruct v; cbn [revalue_of select_of update_of bounties_of] in *.
  - unfold Schema.updateBountyAmounts. rewrite tryCatch_rethrow, bind_run.
    destruct (query_in_transaction
                (SelectBounties (Schema.bountiesTable schemaName))
                w s eq_refl Htx Hrejects) as (w1 & Hquery & Hafter1).
    rewrite Hquery.
    apply (Hloop (Schema.update schemaName) w1 _ _ Hrows);
      [reflexivity|exact Hafter1].
  - unfold Sidecar.updateBountyAmounts. rewrite tryCatch_rethrow, bind_run.
    destruct (query_in_transaction
                (SelectBountiesExtra Sidecar.bountiesTable)
                w s eq_refl Htx Hrejects) as (w1 & Hquery & Hafter1).
    rewrite Hquery.
    apply (Hloop Sidecar.update w1 _ _ Hrows); [reflexivity|exact Hafter1].
Qed.

(** X4: one amount that does not convert stops the whole revaluation.
    With a complete configuration, a decision to update and a server that
    accepts every request, if the amount of a row is not an integer
    literal, the rows before it are updated, no UPDATE is sent for that row
    or for any later one, [main] throws the error of the conversion, the
    transaction is rolled back and the committed store is unchanged:
    neither the snapshot nor any amount is committed. *)
Theorem unconvertible_amount_aborts_the_run (v : Variant) (env : Env)
    (store : Store) (currentPriceEth currentPriceDegen : number)
    (good : list BountyRow) (values : list string) (bad : BountyRow)
    (rest : list BountyRow) (err : Error) :
  configured v env ->
  fetched env = Return (currentPriceEth, currentPriceDegen) ->
  shouldUpdatePrice (threshold_of v) (latest store)
    currentPriceEth currentPriceDegen = Return true ->
  let schemaName := schema_of v env in
  let prices := {| ethUsd := currentPriceEth;
                   degenUsd := currentPriceDegen |} in
  let before :=
    ([SelectLatestPrice;
      InsertPrice (toString currentPriceEth) (toString currentPriceDegen)]
     ++ prepare_stmts v schemaName)%list in
  rows (bounties_of v schemaName (exec_all before store))
    = (good ++ bad :: rest)%list ->
  Forall2 (fun bounty value => amountSort prices bounty = Return value)
    good values ->
  amountSort prices bad = Throw err ->
  let statements :=
    (before ++ select_of v schemaName
            :: updates (update_of v schemaName) values good)%list in
  let res := main_of v env (fresh store no_fault) in
  fst res = Throw err /\
  sent (snd res) =
    map accepted (Connect :: Query BEGIN :: map Query statements
                  ++ [Query ROLLBACK; End_])%list /\
  committed (snd res) = store /\
  tx (snd res) = None /\
  console (snd res) = [].
Proof.
  intros Hconf Hfetched Hdecision schemaName prices before Hrows Hvalues Hbad
         statements res.
  subst res statements before prices schemaName.
  rewrite (main_connected _ _ _ Hconf).
  rewrite connected_accepted by reflexivity.
  match goal with
  | |- context [try_catch_finally _ _ _ ?w] => set (w1 := w)
  end.
  assert (Hrun : exists w',
    transaction (threshold_of v) (prepare_of v (schema_of v env))
      (revalue_of v (schema_of v env)) env w1 = (Throw err, w') /\
    committed w' = store /\
    sent w' =
      map accepted
        (Connect :: Query BEGIN
         :: map Query
              (([SelectLatestPrice;
                 InsertPrice (toString currentPriceEth)
                             (toString currentPriceDegen)]
                ++ prepare_stmts v (schema_of v env))
               ++ select_of v (schema_of v env)
                  :: updates (update_of v (schema_of v env)) values good))%list /\
    rejects w' = no_fault /\ console w' = [] /\
    transactionStarted w' = true).
  { assert (Hbegin : verdict w1 = None) by reflexivity.
    unfold transaction. rewrite tryCatch_rethrow, bind_run.
    rewrite (query_accepted _ _ Hbegin). simpl.
    rewrite bind_run. simpl.
    set (w2 := {| committed := store |}).
    assert (Hw2 : sent w2 = [(Connect, None); (Query BEGIN, None)])
      by reflexivity.
    assert (Htx2 : tx w2 = Some store) by reflexivity.
    assert (Hc2 : committed w2 = store) by reflexivity.
    assert (Hr2 : rejects w2 = no_fault) by reflexivity.
    assert (Hl2 : console w2 = []) by reflexivity.
    assert (Hst2 : transactionStarted w2 = true) by reflexivity.
    clearbody w2.
    destruct (updateLatestPrice_accepted (threshold_of v) env w2 _ _ _
                Htx2 Hr2 Hfetched Hdecision) as (w3 & Hupdate & Hafter3).
    rewrite bind_run, Hupdate. cbn [didUpdate negb prices].
    pose proof Hafter3 as (_ & (s2 & Hs2 & Ht3) & _ & Hr3 & _).
    destruct (prepare_of_accepted v (schema_of v env) w3 _ Ht3)
      as (w4 & Hprepare & Hafter4); [congruence|].
    rewrite bind_run, Hprepare.
    pose proof (after_accepted_trans _ _ _ _ _ Hafter3 Hafter4) as Hafter34.
    pose proof Hafter34 as (_ & (s2' & Hs2' & Ht4) & _ & Hr4 & _).
    rewrite Htx2 in Hs2'. injection Hs2' as <-.
    destruct (revalue_of_unconvertible v (schema_of v env) _ good values
                bad rest err w4 _ Ht4 ltac:(congruence) Hrows Hvalues Hbad)
      as (w5 & Hrevalue & Hafter5).
    rewrite bind_run, Hrevalue.
    pose proof (after_accepted_trans _ _ _ _ _ Hafter34 Hafter5) as Hafter.
    destruct Hafter as (Hc5 & _ & Hsent5 & Hr5 & Hl5 & Hst5).
    exists w5. split; [reflexivity|].
    rewrite Hsent5, Hw2. repeat split; congruence. }
  destruct Hrun as (w' & Hrun & Hcommitted & Hsent & Hrejects & Hconsole
                    & Hstarted).
  unfold try_catch_finally. rewrite Hrun.
  unfold Schema.main_catch, bind, get_transactionStarted, query, throw, end_.
  cbn. rewrite Hstarted.
  do 4 (rewrite ?(verdict_no_fault w' Hrejects); cbn;
        unfold verdict; cbn; rewrite ?Hrejects; cbn).
  rewrite Hsent, Hcommitted, Hconsole. repeat split.
  simpl. f_equal. f_equal. rewrite !map_app. simpl.
  now rewrite <- !app_assoc.
Qed.

End Unconvertible.

(** ** The tables a run touches *)

Section Frame.
Context {rt : Runtime} {db : Database}.
Variable P : Request -> bool.

Lemma only_ret {A} (a : A) : sends_only P (ret a).
Proof. intros w H. exact H. Qed.

Lemma only_throw {A} (e : Error) : sends_only P (@throw _ A e).
Proof. intros w H. exact H. Qed.

Lemma only_lift {A} (r : Completion A) : sends_only P (lift r).
Proof. intros w H. exact H. Qed.

Lemma only_throw_if (e : option Error) : sends_only P (throw_if e).
Proof. destruct e; [apply only_throw|apply only_ret]. Qed.

Lemma only_bind {A B} (m : M A) (k : A -> M B) :
  sends_only P m -> (forall a, sends_only P (k a)) -> sends_only P (bind m k).
Proof.
  intros Hm Hk w H. unfold bind. specialize (Hm w H).
  destruct (m w) as [[a|e] w1]; simpl in *; [|exact Hm].
  now apply Hk.
Qed.

Lemma only_tryCatch {A} (m : M A) : sends_only P m -> sends_only P (tryCatch m).
Proof.
  intros Hm w H. unfold tryCatch. specialize (Hm w H).
  destruct (m w) as [[a|e] w1]; exact Hm.
Qed.

Lemma only_with_sent (r : Request) (w : World) :
  P r = true -> all_of P (sent w) = true ->
  all_of P (sent (with_sent r w)) = true.
Proof.
  intros Hr H. simpl. rewrite all_of_app, H. unfold all_of. simpl.
  now rewrite Hr.
Qed.

Lemma only_query (s : Stmt) : P (Query s) = true -> sends_only P (query s).
Proof.
  intros Hs w H. unfold query.
  pose proof (only_with_sent (Query s) w Hs H) as H1.
  destruct (verdict w); [exact H1|].
  pose proof (accept_keeps s (with_sent (Query s) w)) as [Hsent _].
  destruct (accept s (with_sent (Query s) w)) as [result w2]. simpl in *.
  now rewrite Hsent.
Qed.

Lemma only_connect : P Connect = true -> sends_only P connect.
Proof.
  intros Hc w H. unfold connect.
  pose proof (only_with_sent Connect w Hc H) as H1.
  destruct (verdict w); exact H1.
Qed.

Lemma only_end : P End_ = true -> sends_only P end_.
Proof.
  intros Hc w H. unfold end_.
  pose proof (only_with_sent End_ w Hc H) as H1.
  destruct (verdict w); exact H1.
Qed.

Lemma only_console_log (line : string) : sends_only P (console_log line).
Proof. intros w H. exact H. Qed.

Lemma only_set_transactionStarted (b : bool) :
  sends_only P (set_transactionStarted b).
Proof. intros w H. exact H. Qed.

Lemma only_get_transactionStarted : sends_only P get_transactionStarted.
Proof. intros w H. exact H. Qed.

Lemma only_for_of {A} (xs : list A) (body : A -> M unit) :
  (forall x, sends_only P (body x)) -> sends_only P (for_of xs body).
Proof.
  intros Hbody. induction xs as [|x xs IH]; simpl.
  - apply only_ret.
  - apply only_bind; auto.
Qed.

Lemma only_try_catch_finally {A} (body : M A) (handler : Error -> M A)
    (finalizer : M unit) :
  sends_only P body -> (forall e, sends_only P (handler e)) ->
  sends_only P finalizer ->
  sends_only P (try_catch_finally body handler finalizer).
Proof.
  intros Hb Hh Hf w H. unfold try_catch_finally.
  specialize (Hb w H). destruct (body w) as [[a|e] w1]; simpl in Hb.
  - specialize (Hf w1 Hb).
    destruct (finalizer w1) as [[u|e] w2]; exact Hf.
  - specialize (Hh e w1 Hb).
    destruct (handler e w1) as [r w2]; simpl in Hh.
    specialize (Hf w2 Hh).
    destruct (finalizer w2) as [[u|e'] w3]; exact Hf.
Qed.

End Frame.

Create HintDb frame discriminated.
#[export] Hint Resolve only_ret only_throw only_lift only_throw_if
  only_console_log only_set_transactionStarted only_get_transactionStarted
  only_tryCatch : frame.

Ltac only_step :=
  repeat first
    [ progress auto with frame
    | apply only_bind; [|intros ?]
    | apply only_for_of; intros ?
    | apply only_tryCatch
    | apply only_query; simpl; try reflexivity; try apply String.eqb_refl
    | apply only_connect; reflexivity
    | apply only_end; reflexivity
    | match goal with
      | |- sends_only _ (match ?x with _ => _ end) => destruct x
      | |- sends_only _ (if ?b then _ else _) => destruct b
      end ].

Section Tables.
Context {rt : Runtime} {db : Database}.

Lemma only_transaction (P : Request -> bool) (threshold : Z) (prepare : M unit)
    (revalue : LatestPrice -> M Z) (env : Env) :
  P (Query BEGIN) = true -> P (Query COMMIT) = true ->
  P (Query ROLLBACK) = true -> P (Query SelectLatestPrice) = true ->
  (forall p1 p2, P (Query (InsertPrice p1 p2)) = true) ->
  sends_only P prepare -> (forall prices, sends_only P (revalue prices)) ->
  sends_only P (transaction threshold prepare revalue env).
Proof.
  intros Hb Hc Hr Hs Hi Hp Hv. unfold transaction, updateLatestPrice.
  repeat first
    [ progress auto with frame
    | apply only_bind; [|intros ?]
    | apply only_tryCatch
    | apply only_query; auto
    | match goal with
      | |- sends_only _ (match ?x with _ => _ end) => destruct x
      | |- sends_only _ (if ?b then _ else _) => destruct b
      end ].
Qed.

Lemma only_connected (P : Request -> bool) (body : M Z) :
  P Connect = true -> P End_ = true -> P (Query ROLLBACK) = true ->
  sends_only P body -> sends_only P (connected body).
Proof.
  intros Hc He Hr Hbody. unfold connected.
  apply only_bind; [apply only_tryCatch, only_connect; exact Hc|].
  intros [connectError result].
  apply only_bind; [auto with frame|]. intros _.
  apply only_bind; [auto with frame|]. intros _.
  apply only_try_catch_finally.
  - exact Hbody.
  - intros e. unfold Schema.main_catch.
    apply only_bind; [auto with frame|]. intros started.
    apply only_bind; [|auto with frame].
    destruct started; [|auto with frame].
    apply only_bind; [now apply only_query|auto with frame].
  - now apply only_end.
Qed.

(** Every request of every run is one the variant may send. *)
Lemma main_sends_only_allowed (v : Variant) (env : Env) (store : Store)
    (script : nat -> option Error) :
  all_of (allowed v (schema_of v env))
    (sent (snd (main_of v env (fresh store script)))) = true.
Proof.
  assert (Hmain : sends_only (allowed v (schema_of v env)) (main_of v env)).
  { destruct v; simpl.
    - unfold Schema.main, schema_of.
      destruct (DATABASE_URL env) as [[|c url]|]; auto with frame.
      intros w Hw. rewrite bind_run. unfold lift.
      destruct (fetchDeploymentId env) as [schemaName|e]; [|exact Hw].
      apply (only_connected (allowed SchemaQualified schemaName)
               (Schema.main_try env schemaName)); try reflexivity;
        [|exact Hw].
      rewrite Schema_main_try_transaction.
      apply only_transaction; try reflexivity.
      + unfold ensureLiveQueryTables. only_step.
      + intros prices. unfold Schema.updateBountyAmounts, revalue.
        only_step.
    - unfold Sidecar.main.
      destruct (DATABASE_URL env) as [[|c url]|]; auto with frame.
      apply (only_connected (allowed SidecarTable _) (Sidecar.main_try env));
        try reflexivity.
      rewrite Sidecar_main_try_transaction.
      apply only_transaction; try reflexivity.
      + apply only_ret.
      + intros prices. unfold Sidecar.updateBountyAmounts, revalue.
        only_step. }
  apply Hmain. reflexivity.
Qed.

Lemma allowed_tables (v : Variant) (schemaName : string) (s : Stmt) :
  allowed v schemaName (Query s) = true ->
  incl (reads s) (tables_read v schemaName) /\
  incl (writes s) (tables_written v schemaName).
Proof.
  intros H.
  destruct s, v; simpl in H; try discriminate;
    try apply String.eqb_eq in H; subst;
    split; intros t Ht; simpl in *; tauto.
Qed.

(** X11: a run touches only the tables of its own deployment.  Every
    request of every run is the connection or its closing, transaction
    control, the SELECT or the INSERT on the price table, or a statement
    whose table is one of the variant's own: in the schema-qualified
    variant the bookkeeping table and the bounty table of the deployment id
    that was fetched, in the sidecar variant the sidecar table.  By the
    text of the statements, the tables a run reads are the price table and
    the bounty table of the deployment (schema-qualified variant), or the
    price table, the sidecar table and the bounty table [joinedTable] that
    the SELECT of the sidecar joins (sidecar variant); the tables it
    creates or changes are the price table and the variant's own tables.
    The sidecar variant reads the joined bounty table and never changes
    it. *)
Theorem job_touches_only_its_tables (v : Variant) (env : Env) (store : Store)
    (script : nat -> option Error) :
  let log := sent (snd (main_of v env (fresh store script))) in
  all_of (allowed v (schema_of v env)) log = true /\
  (forall s o, In (Query s, o) log ->
     incl (reads s) (tables_read v (schema_of v env)) /\
     incl (writes s) (tables_written v (schema_of v env))) /\
  (forall table o, In (Query (SelectBountiesExtra table), o) log ->
     v = SidecarTable /\
     reads (SelectBountiesExtra table) = [Sidecar.bountiesTable; joinedTable]) /\
  ~ In joinedTable (tables_written SidecarTable (schema_of SidecarTable env)).
Proof.
  intros log.
  pose proof (main_sends_only_allowed v env store script) as Hall.
  fold log in Hall.
  split; [exact Hall|]. split; [|split].
  - intros s o Hin. apply allowed_tables.
    exact (all_of_In _ _ _ Hall Hin).
  - intros table o Hin.
    pose proof (all_of_In _ _ _ Hall Hin) as Ha. simpl in Ha.
    destruct v; [discriminate|].
    apply String.eqb_eq in Ha. now subst.
  - simpl. intros [H|[H|[]]]; discriminate.
Qed.

End Tables.

(** ** The trigger script *)

Section TriggerProperties.
Context {rt : Runtime} {cr : Trigger.Crypto}.

(** X19: the trigger script posts only with both credentials.  When
    SERVER_API_KEY or SERVER_SECRET is missing or empty, [main] throws
    [API key or API secret is missing], nothing is posted and the exit code
    is 1.  Otherwise exactly one request is posted, to the [/updatePrice]
    endpoint under SERVER_URL, with the key, the time stamp, and the HMAC,
    under the secret, of the canonical string built from that same time
    stamp; the exit code is 0 exactly when the server's answer resolves.
    SERVER_URL is not checked: when it is missing, the request goes to the
    address [undefined/updatePrice]. *)
Theorem trigger_posts_only_with_credentials (config : Trigger.Config)
    (now : number) (server : Trigger.Post -> Completion string) :
  let out := Trigger.entry_point true config now server in
  let key := Trigger.SERVER_API_KEY config in
  let secret := Trigger.SERVER_SECRET config in
  (Trigger.is_set key && Trigger.is_set secret = false ->
   Trigger.posted out = [] /\
   Trigger.exit out =
     Some {| code := 1;
             reported := Some "API key or API secret is missing" |}) /\
  (Trigger.is_set key && Trigger.is_set secret = true ->
   exists post,
     Trigger.posted out = [post] /\
     Trigger.url post
       = Trigger.template (Trigger.SERVER_URL config) ++ "/updatePrice" /\
     Trigger.data post = "{}" /\
     Some (Trigger.X_API_Key (Trigger.headers post)) = key /\
     Trigger.X_Timestamp (Trigger.headers post) = Trigger.timestamp now /\
     Some (Trigger.X_Signature (Trigger.headers post)) =
       option_map
         (fun secret =>
            Trigger.hmac_sha256_hex secret
              ("POST|/updatePrice|"
               ++ toString (Trigger.X_Timestamp (Trigger.headers post))
               ++ "|{}"))
         secret /\
     Trigger.exit out =
       match server post with
       | Return _ => Some {| code := 0; reported := None |}
       | Throw e => Some {| code := 1; reported := Some e |}
       end /\
     (Trigger.SERVER_URL config = None ->
      Trigger.url post = "undefined/updatePrice")) /\
  Trigger.entry_point false config now server =
    {| Trigger.exit := None; Trigger.stdout := []; Trigger.posted := [] |}.
Proof.
  cbv zeta. unfold Trigger.entry_point, Trigger.main.
  destruct config as [[[|c key]|] [[|c' secret]|] server_url]; simpl;
    (split; [|split; [|reflexivity]]); intros H; try discriminate;
    try (split; reflexivity).
  eexists. split; [destruct (server _); reflexivity|].
  repeat split.
  - destruct (server _); reflexivity.
  - intros ->. reflexivity.
Qed.

End TriggerProperties.

(** ** The snapshot comes first *)

Section SnapshotFirst.
Context {rt : Runtime} {db : Database}.

(** X20: nothing is revalued before the snapshot is stored.  The log of
    every run splits in two parts: the first holds no request on the
    bookkeeping table or on a bounty table, and whenever the second holds
    one, the first holds an accepted INSERT of the snapshot.  So every
    read or write of a bounty table, and the creation of the bookkeeping
    table, comes after the accepted INSERT of the prices of that run. *)
Theorem snapshot_is_inserted_before_any_revaluation (v : Variant) (env : Env)
    (store : Store) (script : nat -> option Error) :
  let res := main_of v env (fresh store script) in
  exists first second,
    sent (snd res) = (first ++ second)%list /\
    all_of (fun r => negb (follows_the_snapshot r)) first = true /\
    (all_of (fun r => negb (follows_the_snapshot r)) second = false ->
     exists p1 p2, In (Query (InsertPrice p1 p2), None) first).
Proof.
  intros res. subst res.
  destruct (main_runs v env store script)
    as [Hsent _ _|e0 Hsent _ _
       |w o a b c d suffix new Hw Hsent Ha Hb Hc Hd Hins Hend].
  - exists [], []. rewrite Hsent. repeat split. discriminate.
  - exists [(Connect, Some e0)], []. rewrite Hsent. repeat split. discriminate.
  - exists ((Connect, None) :: (Query BEGIN, o) :: a)%list,
           (b ++ c ++ d ++ suffix)%list.
    split; [rewrite Hsent; subst new; simpl; now rewrite <- !app_assoc|].
    assert (Hkind : forall (P : Request -> bool) (xs : list Entry),
              (forall r, P r = true -> follows_the_snapshot r = false) ->
              all_of P xs = true ->
              all_of (fun r => negb (follows_the_snapshot r)) xs = true).
    { intros P xs HP. unfold all_of. rewrite !forallb_forall.
      intros H x Hx. now rewrite (HP _ (H x Hx)). }
    split.
    + change (all_of (fun r => negb (follows_the_snapshot r)) a = true).
      apply (Hkind is_price_access); [|exact Ha].
      intros [|[]|]; unfold follows_the_snapshot; simpl; congruence.
    + intros Hsecond.
      destruct (b ++ c)%list as [|x xs] eqn:Hbc.
      * exfalso. apply app_eq_nil in Hbc as [-> ->].
        change (all_of (fun r => negb (follows_the_snapshot r)) (d ++ suffix)
                = false) in Hsecond.
        assert (Hall : all_of (fun r => negb (follows_the_snapshot r))
                         (d ++ suffix) = true).
        { unfold all_of. rewrite forallb_app. apply andb_true_intro. split.
          - apply (Hkind is_closing d); [|exact Hd].
            intros [|[]|]; unfold follows_the_snapshot; simpl; congruence.
          - destruct Hend; reflexivity. }
        congruence.
      * destruct Hins as (p1 & p2 & Hp); [left; rewrite Hbc; discriminate|].
        exists p1, p2. right. right. exact Hp.
Qed.

End SnapshotFirst.

(** ** Concrete runs *)

Import Scenario.

(** The first scenario of the specification: changes of 7.5 and 1 percent
    against a threshold of 10: nothing is written. *)
Example scenario_below_threshold :
  let res := run SchemaQualified "2150" "0.0101" [] in
  fst res = Return 0 /\
  requests res = [Connect; Query BEGIN; Query SelectLatestPrice;
                  Query ROLLBACK; End_] /\
  committed (snd res) = store.
Proof. vm_compute. repeat split. Qed.

(** The second and third scenarios: a change of 15 percent; one token on
    chain 1 is worth 2300.00000, half a token on chain 666666666 at 0.02
    dollars is worth 0.01000. *)
Example scenario_above_threshold :
  let res := run SchemaQualified "2300" "0.02" [] in
  fst res = Return 0 /\
  requests res =
    [Connect; Query BEGIN; Query SelectLatestPrice;
     Query (InsertPrice "2300" "0.02");
     Query (CreateTableIfNotExists (tableName "tenant"));
     Query (SelectBounties bounties_table);
     Query (UpdateAmountSort bounties_table "2300.00000" 1);
     Query (UpdateAmountSort bounties_table "0.01000" 2);
     Query COMMIT; End_] /\
  amounts res = ["2300.00000"; "0.01000"] /\
  Sample.Price (committed (snd res))
    = [{| eth_usd := "2000"; degen_usd := "0.01" |};
       {| eth_usd := "2300"; degen_usd := "0.02" |}].
Proof. vm_compute. repeat split. Qed.

(** The sidecar variant updates at a change of 7.5 percent. *)
Example scenario_sidecar_threshold :
  let res := run SidecarTable "2150" "0.0101" [] in
  fst res = Return 0 /\
  requests res =
    [Connect; Query BEGIN; Query SelectLatestPrice;
     Query (InsertPrice "2150" "0.0101");
     Query (SelectBountiesExtra Sidecar.bountiesTable);
     Query (UpdateAmountSortExtra Sidecar.bountiesTable "2150.00000" 1 1);
     Query (UpdateAmountSortExtra Sidecar.bountiesTable "0.00505" 2 666666666);
     Query COMMIT; End_].
Proof. vm_compute. repeat split. Qed.

Ltac find_entry := repeat first [left; reflexivity | right].

(** C1 at a run of the schema-qualified variant whose first row update
    (request 6) is rejected. *)
Lemma revaluation_is_atomic_witness :
  let res := run SchemaQualified "2300" "0.02" [(6%nat, "update failed")] in
  exists before rollback closing,
    sent (snd res) =
      (before ++ [(Query (UpdateAmountSort bounties_table "2300.00000" 1),
                   Some "update failed");
                  (Query ROLLBACK, rollback); (End_, closing)])%list /\
    clean before /\
    fst res = Throw (first_error "update failed" [rollback; closing]) /\
    (rollback = None -> closing = None -> fst res = Throw "update failed") /\
    (rollback = None \/ closing = None -> tx (snd res) = None) /\
    committed (snd res) = store.
Proof.
  apply (revaluation_is_atomic (rt := Sample.runtime) (db := Sample.database)
           SchemaQualified (env "2300" "0.02") store
           (faults [(6%nat, "update failed")])
           (Query (UpdateAmountSort bounties_table "2300.00000" 1))
           "update failed").
  - vm_compute. find_entry.
  - reflexivity.
Defined.

(** C10 at a run whose creation of the bookkeeping table (request 4) is
    rejected. *)
Lemma ensure_failure_is_fatal_witness :
  let res := run SchemaQualified "2300" "0.02" [(4%nat, "create failed")] in
  exists before rollback closing,
    sent (snd res) =
      (before ++ [(Query (CreateTableIfNotExists (tableName "tenant")),
                   Some "create failed");
                  (Query ROLLBACK, rollback); (End_, closing)])%list /\
    clean before /\
    (exists p1 p2, In (Query (InsertPrice p1 p2), None) before) /\
    all_of (fun r => negb (is_bounty_access r)) (sent (snd res)) = true /\
    fst res = Throw (first_error "create failed" [rollback; closing]) /\
    (rollback = None -> closing = None -> fst res = Throw "create failed") /\
    (rollback = None \/ closing = None -> tx (snd res) = None) /\
    committed (snd res) = store.
Proof.
  apply (ensure_failure_is_fatal (rt := Sample.runtime) (db := Sample.database)
           (env "2300" "0.02") store (faults [(4%nat, "create failed")])
           (tableName "tenant") "create failed").
  vm_compute. find_entry.
Defined.



(** C2: a failure of the rollback masks the original error.  The first row
    update is rejected with [update failed]; the rollback that the [catch]
    block sends is rejected with [rollback failed]; what [main] throws is
    [rollback failed], and the error of the update is lost. *)
Lemma rollback_failure_masks_the_original_error :
  let res := run SchemaQualified "2300" "0.02"
               [(6%nat, "update failed"); (7%nat, "rollback failed")] in
  sent (snd res) =
    [(Connect, None); (Query BEGIN, None); (Query SelectLatestPrice, None);
     (Query (InsertPrice "2300" "0.02"), None);
     (Query (CreateTableIfNotExists (tableName "tenant")), None);
     (Query (SelectBounties bounties_table), None);
     (Query (UpdateAmountSort bounties_table "2300.00000" 1),
      Some "update failed");
     (Query ROLLBACK, Some "rollback failed"); (End_, None)] /\
  fst res = Throw "rollback failed".
Proof. vm_compute. split; reflexivity. Qed.

(** ** Concrete runs, continued *)

Ltac scenario_is_configured :=
  split; [exists "p"%char, "ostgres://poidh"; reflexivity
         |intros _; exists "tenant"; reflexivity].

(** With the connection refused, nothing else is sent. *)
Lemma refused_connection_witness :
  let res := run SchemaQualified "2300" "0.02"
               [(0%nat, "connection refused")] in
  fst res = Throw "connection refused" /\
  sent (snd res) = [(Connect, Some "connection refused")] /\
  committed (snd res) = store /\
  tx (snd res) = None /\
  console (snd res) = [].
Proof.
  apply (refused_connection_is_not_closed
           (rt := Sample.runtime) (db := Sample.database)
           SchemaQualified (env "2300" "0.02") store
           (faults [(0%nat, "connection refused")]) "connection refused").
  - scenario_is_configured.
  - reflexivity.
Defined.

(** With BEGIN rejected, the connection is closed without a rollback. *)
Lemma rejected_begin_witness :
  let res := run SidecarTable "2300" "0.02" [(1%nat, "begin failed")] in
  sent (snd res) =
    [(Connect, None); (Query BEGIN, Some "begin failed"); (End_, None)] /\
  fst res = Throw "begin failed" /\
  committed (snd res) = store /\
  console (snd res) = [].
Proof.
  exact (rejected_begin_sends_no_rollback
           (rt := Sample.runtime) (db := Sample.database)
           SidecarTable (env "2300" "0.02") store
           (faults [(1%nat, "begin failed")]) "begin failed"
           ltac:(scenario_is_configured) eq_refl eq_refl).
Defined.

(** A run without faults closes its connection last. *)
Lemma accepted_connection_witness :
  let res := run SchemaQualified "2300" "0.02" [] in
  exists before closing,
    sent (snd res) = (before ++ [(End_, closing)])%list /\
    all_of (fun r => negb (is_end r)) before = true /\
    hd_error before = Some (Connect, None).
Proof.
  apply (accepted_connection_is_closed_last
           (rt := Sample.runtime) (db := Sample.database)
           SchemaQualified (env "2300" "0.02") store (faults [])).
  vm_compute. left. reflexivity.
Defined.

(** A run whose COMMIT (request 8) is rejected. *)
Lemma rejected_commit_witness :
  let res := run SchemaQualified "2300" "0.02" [(8%nat, "commit failed")] in
  exists before rollback closing,
    sent (snd res) =
      (before ++ [(Query COMMIT, Some "commit failed");
                  (Query ROLLBACK, rollback); (End_, closing)])%list /\
    clean before /\
    (exists p1 p2, In (Query (InsertPrice p1 p2), None) before) /\
    fst res = Throw (first_error "commit failed" [rollback; closing]) /\
    (rollback = None \/ closing = None -> tx (snd res) = None) /\
    committed (snd res) = store.
Proof.
  apply (rejected_commit_is_rolled_back
           (rt := Sample.runtime) (db := Sample.database)
           SchemaQualified (env "2300" "0.02") store
           (faults [(8%nat, "commit failed")]) "commit failed").
  vm_compute. repeat first [left; reflexivity | right].
Defined.

(** The run of the schema-qualified variant at 2300 and 0.02 dollars,
    without faults: both bounties are revalued and committed. *)
Lemma accepted_update_witness :
  let res := run SchemaQualified "2300" "0.02" [] in
  fst res = Return 0 /\
  requests res =
    [Connect; Query BEGIN; Query SelectLatestPrice;
     Query (InsertPrice "2300" "0.02");
     Query (CreateTableIfNotExists (tableName "tenant"));
     Query (SelectBounties bounties_table);
     Query (UpdateAmountSort bounties_table "2300.00000" 1);
     Query (UpdateAmountSort bounties_table "0.01000" 2);
     Query COMMIT; End_] /\
  amounts res = ["2300.00000"; "0.01000"] /\
  console (snd res) = ["updated amount_sort for 2 bounties"].
Proof.
  destruct (accepted_update_revalues_every_bounty
              (rt := Sample.runtime) (db := Sample.database)
              SchemaQualified (env "2300" "0.02") store
              (Sample.Number "2300") (Sample.Number "0.02")
              ["2300.00000"; "0.01000"])
    as (Hres & Hsent & Hcommitted & _ & Hconsole).
  - scenario_is_configured.
  - vm_compute. reflexivity.
  - vm_compute. reflexivity.
  - repeat constructor; vm_compute; reflexivity.
  - split; [exact Hres|]. split; [|split].
    + etransitivity; [exact (f_equal (map fst) Hsent)|].
      vm_compute. reflexivity.
    + etransitivity;
        [exact (f_equal (fun s => map Sample.amount_sort (Sample.Bounties s))
                  Hcommitted)|].
      vm_compute. reflexivity.
    + etransitivity; [exact Hconsole|]. vm_compute. reflexivity.
Defined.

(** A snapshot whose eth price is zero: the decision fails, and the run
    is rolled back. *)
Lemma undecided_run_witness :
  let zero :=
    {| Sample.Price := [{| eth_usd := "0"; degen_usd := "0.01" |}];
       Sample.Bounties := []; Sample.live_query_tables := false |} in
  let res := main_of (rt := Sample.runtime) (db := Sample.database)
               SidecarTable (env "2300" "0.02")
               (fresh (db := Sample.database) zero (faults [])) in
  sent (snd res) =
    [(Connect, None); (Query BEGIN, None); (Query SelectLatestPrice, None);
     (Query ROLLBACK, None); (End_, None)] /\
  fst res = Throw "Previous price === 0" /\
  committed (snd res) = zero /\
  console (snd res) = [].
Proof.
  intros zero.
  destruct (undecided_run_is_rolled_back
              (rt := Sample.runtime) (db := Sample.database)
              SidecarTable (env "2300" "0.02") zero (faults [])
              "Previous price === 0")
    as (Hsent & Hres & Hcommitted & Hconsole & _).
  - split; [exists "p"%char, "ostgres://poidh"; reflexivity|].
    split; [discriminate|]. repeat split.
  - vm_compute. reflexivity.
  - repeat split; assumption.
Defined.

(** A second bounty whose amount is 1.5: the first row is updated, then
    the run is rolled back. *)
Lemma unconvertible_amount_witness :
  let first := {| id := 1; amount := "1000000000000000000"; chain_id := 1 |} in
  let second := {| id := 2; amount := "1.5"; chain_id := 666666666 |} in
  let tables :=
    {| Sample.Price := [{| eth_usd := "2000"; degen_usd := "0.01" |}];
       Sample.Bounties :=
         [{| Sample.row := first; Sample.amount_sort := "0" |};
          {| Sample.row := second; Sample.amount_sort := "0" |}];
       Sample.live_query_tables := false |} in
  let res := main_of (rt := Sample.runtime) (db := Sample.database)
               SchemaQualified (env "2300" "0.02")
               (fresh (db := Sample.database) tables (faults [])) in
  fst res = Throw "Cannot convert 1.5 to a BigInt" /\
  map fst (sent (snd res)) =
    [Connect; Query BEGIN; Query SelectLatestPrice;
     Query (InsertPrice "2300" "0.02");
     Query (CreateTableIfNotExists (tableName "tenant"));
     Query (SelectBounties bounties_table);
     Query (UpdateAmountSort bounties_table "2300.00000" 1);
     Query ROLLBACK; End_] /\
  committed (snd res) = tables.
Proof.
  intros first second tables.
  destruct (unconvertible_amount_aborts_the_run
              (rt := Sample.runtime) (db := Sample.database)
              SchemaQualified (env "2300" "0.02") tables
              (Sample.Number "2300") (Sample.Number "0.02")
              [first] ["2300.00000"] second []
              "Cannot convert 1.5 to a BigInt")
    as (Hres & Hsent & Hcommitted & _).
  - scenario_is_configured.
  - vm_compute. reflexivity.
  - vm_compute. reflexivity.
  - vm_compute. reflexivity.
  - repeat constructor; vm_compute; reflexivity.
  - vm_compute. reflexivity.
  - split; [exact Hres|]. split; [|exact Hcommitted].
    etransitivity; [exact (f_equal (map fst) Hsent)|].
    vm_compute. reflexivity.
Defined.

(** The update and the rollback are both rejected: what [main] throws is
    the error of the rollback. *)
Lemma last_rejection_witness :
  fst (run SchemaQualified "2300" "0.02"
         [(6%nat, "update failed"); (7%nat, "rollback failed")])
  = Throw "rollback failed".
Proof.
  apply (main_throws_the_last_rejection
           (rt := Sample.runtime) (db := Sample.database)
           SchemaQualified (env "2300" "0.02") store
           (faults [(6%nat, "update failed"); (7%nat, "rollback failed")])
           "rollback failed").
  vm_compute. reflexivity.
Defined.


